(** * DevBridge MCP: the development-session orchestrator of [src/index.ts]

    A shallow embedding of the session orchestrator of the remote executor
    (command executor, ssh/scp argument builders, sync engine, watch filter,
    background-pid parser, per-session cycle state machine and the
    [dev_session_start] handler), followed by the properties proved about it.

    Conventions of the embedding.
    - A JavaScript string is a [string]: a sequence of code units below
      256.  The white space recognised by [trim] and [parseInt] in that
      range is 9..13, 32 and 160.
    - A JavaScript number that the program only uses as an integer (exit
      codes, process ids, counters, ports, millisecond clocks) is a [Z];
      [parseInt] is exact here, as it is in the program below 2^53.
    - A function that can throw returns [string + A], [inl] carrying the
      message of the [Error].
    - An [async] function is cut at its [await]s: each piece between two
      [await]s runs to completion and is one transition of the session's
      state machine. *)

From Stdlib Require Import ZArith String Ascii List Lia Bool DecimalString.
From Stdlib Require DecimalPos DecimalZ.
From stdpp Require Import base option list strings gmap.

Local Open Scope string_scope.
Local Open Scope Z_scope.

(** ** JavaScript string primitives *)

Module JsString.

Definition chars (s : string) : list ascii := list_ascii_of_string s.
Definition of_chars (l : list ascii) : string := string_of_list_ascii l.

Definition code (c : ascii) : N := N_of_ascii c.

(** [WhiteSpace] and [LineTerminator] code units below 256. *)
Definition isWhiteSpace (c : ascii) : bool :=
  let n := code c in
  ((9 <=? n) && (n <=? 13) || (n =? 32) || (n =? 160))%N.

Definition isDigit (c : ascii) : bool :=
  let n := code c in ((48 <=? n) && (n <=? 57))%N.

Definition digitValue (c : ascii) : Z := Z.of_N (code c) - 48.

(** The characters the regular expression atom [.] does not match. *)
Definition isLineTerminator (c : ascii) : bool :=
  let n := code c in ((n =? 10) || (n =? 13))%N.

Fixpoint dropWhile {A} (f : A -> bool) (l : list A) : list A :=
  match l with
  | [] => []
  | x :: l' => if f x then dropWhile f l' else l
  end.

Fixpoint takeWhile {A} (f : A -> bool) (l : list A) : list A :=
  match l with
  | [] => []
  | x :: l' => if f x then x :: takeWhile f l' else []
  end.

Definition trimStart (l : list ascii) : list ascii := dropWhile isWhiteSpace l.
Definition trimEnd (l : list ascii) : list ascii :=
  rev (dropWhile isWhiteSpace (rev l)).

(** [s.trim()] *)
Definition trim (s : string) : string :=
  of_chars (trimEnd (trimStart (chars s))).

(** [s.split(sep)] for a one-character separator: always at least one
    piece. *)
Fixpoint splitChars (sep : ascii) (l : list ascii) : list (list ascii) :=
  match l with
  | [] => [[]]
  | c :: l' =>
      if Ascii.eqb c sep then [] :: splitChars sep l'
      else match splitChars sep l' with
           | [] => [[c]]
           | piece :: rest => (c :: piece) :: rest
           end
  end.

Definition split (sep : ascii) (s : string) : list string :=
  map of_chars (splitChars sep (chars s)).

(** [s.startsWith(p)] *)
Fixpoint startsWith (p s : string) : bool :=
  match p, s with
  | EmptyString, _ => true
  | String a p', String b s' => Ascii.eqb a b && startsWith p' s'
  | String _ _, EmptyString => false
  end.

(** [s.includes(p)] *)
Fixpoint includes (p s : string) : bool :=
  startsWith p s ||
  match s with
  | EmptyString => false
  | String _ s' => includes p s'
  end.

Fixpoint dropChars (n : nat) (s : string) : string :=
  match n, s with
  | O, _ => s
  | S n', String _ s' => dropChars n' s'
  | S _, EmptyString => EmptyString
  end.

(** [s.replace(p, r)] with a string pattern: the first occurrence only. *)
Fixpoint replaceFirst (p r s : string) : string :=
  if startsWith p s then r ++ dropChars (String.length p) s
  else match s with
       | EmptyString => EmptyString
       | String c s' => String c (replaceFirst p r s')
       end.

(** [s.replace(/c/g, d)] for a one-character class. *)
Definition replaceAllChar (f : ascii -> bool) (d : ascii) (s : string) : string :=
  of_chars (map (fun c => if f c then d else c) (chars s)).

(** Lower case of a code unit below 256: the letters A..Z and the
    upper-case letters of Latin-1 (192..222 but the multiplication sign). *)
Definition toLowerChar (c : ascii) : ascii :=
  let n := code c in
  if ((65 <=? n) && (n <=? 90) || (192 <=? n) && (n <=? 222) && negb (n =? 215))%N
  then ascii_of_N (n + 32) else c.

(** [s.toLowerCase()] *)
Definition toLowerCase (s : string) : string :=
  of_chars (map toLowerChar (chars s)).

(** [/^\d+$/.test(s)] *)
Definition allDigits (s : string) : bool :=
  match chars s with
  | [] => false
  | l => forallb isDigit l
  end.

Definition digitsValue (l : list ascii) : Z :=
  fold_left (fun acc c => 10 * acc + digitValue c) l 0.

(** [parseInt(s, 10)]: leading white space, an optional sign, then the
    longest run of decimal digits; [None] is [NaN].  The value is the exact
    integer of the digits, which is what JavaScript returns below 2^53;
    above, the program's number is that integer rounded to a double (or
    [Infinity]), still of the same sign.  A statement that names the value
    is made below 2^53. *)
Definition parseInt (s : string) : option Z :=
  let body := trimStart (chars s) in
  let '(neg, rest) :=
    match body with
    | c :: rest' =>
        if Ascii.eqb c "-" then (true, rest')
        else if Ascii.eqb c "+" then (false, rest')
        else (false, body)
    | [] => (false, body)
    end in
  match takeWhile isDigit rest with
  | [] => None
  | ds => Some (if neg : bool then - digitsValue ds else digitsValue ds)
  end.

(** [String(n)] and [`${n}`] for an integer: its decimal digits, as
    JavaScript prints every integer below 2^53 (and, rounded to a double,
    up to 10^21, from where it prints an exponent). *)
Definition ofZ (n : Z) : string := NilZero.string_of_int (Z.to_int n).

(** [a || b] on strings: the empty string is falsy. *)
Definition orElse (a b : string) : string :=
  if String.eqb a "" then b else a.

(** [parts.join(sep)] *)
Fixpoint join (sep : string) (parts : list string) : string :=
  match parts with
  | [] => ""
  | [p] => p
  | p :: rest => p ++ sep ++ join sep rest
  end.

Definition nonEmpty (s : string) : bool := negb (String.eqb s "").

End JsString.

Import JsString.

(** ** Result of a local command: [ExecResult] *)

Record ExecResult := mkExecResult {
  stdout : string;
  stderr : string;
  exitCode : Z
}.

(** ** [parseBackgroundPid] *)

Definition PID_MARKER : string := "__MCP_PID__".

Definition nl : ascii := ascii_of_N 10.

(** [rawOutput.split("\n").map(trim).filter(Boolean)] *)
Definition outputLines (rawOutput : string) : list string :=
  List.filter nonEmpty (map trim (split nl rawOutput)).

Definition positivePid (o : option Z) : option Z :=
  match o with
  | Some pid => if 0 <? pid then Some pid else None
  | None => None
  end.

(** The [for] loop over [lines] from the last index down to 0, as a scan of
    the reversed list. *)
Fixpoint lastDigitLine (revLines : list string) : option Z :=
  match revLines with
  | [] => None
  | line :: rest =>
      if allDigits line then
        match positivePid (parseInt line) with
        | Some pid => Some pid
        | None => lastDigitLine rest
        end
      else lastDigitLine rest
  end.

Definition parseBackgroundPid (rawOutput : string) : option Z :=
  let lines := outputLines rawOutput in
  let marker := List.find (startsWith PID_MARKER) lines in
  let fromMarker :=
    match marker with
    | Some m => positivePid (parseInt (replaceFirst PID_MARKER "" m))
    | None => None
    end in
  match fromMarker with
  | Some pid => Some pid
  | None => lastDigitLine (rev lines)
  end.

(** ** Values of type [unknown] and the argument checks *)

(** A JSON value as the checks see it.  [JNumber] is a number that is an
    integer; any other number is [JOtherNumber] (JSON has no NaN, so it is
    truthy). *)
#[warnings="-register-all"]
Inductive JsValue :=
| JUndefined
| JNull
| JBool (b : bool)
| JNumber (n : Z)
| JOtherNumber
| JString (s : string)
| JArray (items : list JsValue)
| JObject.

Definition truthy (v : JsValue) : bool :=
  match v with
  | JUndefined | JNull => false
  | JBool b => b
  | JNumber n => negb (n =? 0)
  | JOtherNumber => true
  | JString s => nonEmpty s
  | JArray _ | JObject => true
  end.

(** A computation that may [throw new Error(msg)]. *)
Definition Throws (A : Type) : Type := (string + A)%type.

Definition ret {A} (a : A) : Throws A := inr a.
Definition throw {A} (msg : string) : Throws A := inl msg.
Definition bindT {A B} (m : Throws A) (k : A -> Throws B) : Throws B :=
  match m with
  | inl e => inl e
  | inr a => k a
  end.

Notation "'try!' x <- m 'in' k" := (bindT m (fun x => k))
  (at level 10, x name, m at level 100, k at level 200,
   format "'[v' 'try!'  x  <-  m  'in' '/' k ']'").

Definition assertString (value : JsValue) (field : string) : Throws string :=
  match value with
  | JString s =>
      if String.eqb (trim s) "" then throw (field ++ " must be a non-empty string")
      else ret s
  | _ => throw (field ++ " must be a non-empty string")
  end.

(** [CONTROL_CHAR_RE = /[\0\r\n]/] *)
Definition isControlChar (c : ascii) : bool :=
  let n := code c in ((n =? 0) || (n =? 13) || (n =? 10))%N.

Definition assertNoControlChars (value : string) (field : string) : Throws string :=
  if existsb isControlChar (chars value)
  then throw (field ++ " contains invalid control characters")
  else ret value.

(** The character class [[A-Za-z0-9._-]]. *)
Definition isSafeNameChar (c : ascii) : bool :=
  let n := code c in
  ((65 <=? n) && (n <=? 90) || (97 <=? n) && (n <=? 122) ||
   (48 <=? n) && (n <=? 57) || (n =? 46) || (n =? 95) || (n =? 45))%N.

(** [/^[A-Za-z0-9._-]+$/.test(s)] *)
Definition SAFE_SERVER_RE (s : string) : bool :=
  match chars s with
  | [] => false
  | l => forallb isSafeNameChar l
  end.

Definition assertServerName (value : JsValue) (field : string) : Throws string :=
  try! s <- assertString value field in
  try! serverName <- assertNoControlChars s field in
  if SAFE_SERVER_RE serverName then ret serverName
  else throw (field ++ " must match /^[A-Za-z0-9._-]+$/ (letters, numbers, ., _, -)").

Definition assertPath (value : JsValue) (field : string) : Throws string :=
  try! s <- assertString value field in
  assertNoControlChars s field.

Definition assertPositiveInt (value : JsValue) (field : string) : Throws Z :=
  match value with
  | JNumber n => if 0 <? n then ret n else throw (field ++ " must be a positive integer")
  | _ => throw (field ++ " must be a positive integer")
  end.

Fixpoint assertStringItems (items : list JsValue) (field : string) (idx : nat)
  : Throws (list string) :=
  match items with
  | [] => ret []
  | item :: rest =>
      let f := field ++ "[" ++ ofZ (Z.of_nat idx) ++ "]" in
      try! s <- assertString item f in
      try! s' <- assertNoControlChars s f in
      try! rest' <- assertStringItems rest field (S idx) in
      ret (s' :: rest')
  end.

Definition assertStringArray (value : JsValue) (field : string) : Throws (list string) :=
  match value with
  | JArray items => assertStringItems items field 0
  | _ => throw (field ++ " must be an array")
  end.

Inductive SyncMethod := MethodAuto | MethodRsync | MethodScp.

Definition assertSyncMethod (value : JsValue) : Throws SyncMethod :=
  try! s <- assertString value "method" in
  try! s' <- assertNoControlChars s "method" in
  let method := toLowerCase s' in
  if String.eqb method "auto" then ret MethodAuto
  else if String.eqb method "rsync" then ret MethodRsync
  else if String.eqb method "scp" then ret MethodScp
  else throw "method must be one of: auto, rsync, scp".

Inductive DevSessionMode := ModeShort | ModeLong.

Definition assertDevSessionMode (value : JsValue) : Throws DevSessionMode :=
  try! s <- assertString value "mode" in
  try! s' <- assertNoControlChars s "mode" in
  let mode := toLowerCase s' in
  if String.eqb mode "short" then ret ModeShort
  else if String.eqb mode "long" then ret ModeLong
  else throw "mode must be short or long".

(** [shellQuote]: wrap in single quotes, each embedded quote becoming
    quote, double-quoted quote, quote. *)
Definition squote : ascii := ascii_of_N 39.
Definition dquote : ascii := ascii_of_N 34.

Definition shellQuote (value : string) : string :=
  let escaped :=
    flat_map (fun c => if Ascii.eqb c squote
                       then [squote; dquote; squote; dquote; squote]
                       else [c]) (chars value) in
  of_chars (squote :: escaped ++ [squote])%list.

Definition shellQuoteArgs (parts : list string) : string :=
  join " " (map shellQuote parts).

(** ** Remote transport: ssh and scp arguments *)

Record ServerConfig := mkServerConfig {
  host : JsValue;
  user : JsValue;
  port : JsValue;
  identity_file : JsValue
}.

(** [servers] maps a name to the entry the object holds under it as its
    own property. *)
Record Config := mkConfig {
  servers : gmap string ServerConfig
}.

Definition sshMultiplexArgs : list string :=
  [ "-o"; "BatchMode=yes";
    "-o"; "ConnectTimeout=10";
    "-o"; "ControlMaster=auto";
    "-o"; "ControlPersist=300";
    "-o"; "ControlPath=~/.ssh/remote-executor-%C" ].

(** [if (serverConfig.port !== undefined) args.push("-p", String(port))] *)
Definition pushPort (serverConfig : ServerConfig) (args : list string)
  : Throws (list string) :=
  match port serverConfig with
  | JUndefined => ret args
  | p => try! n <- assertPositiveInt p "port" in
         ret (args ++ ["-p"; ofZ n])%list
  end.

(** [if (serverConfig.identity_file) args.push("-i", identity_file)] *)
Definition pushIdentityFile (serverConfig : ServerConfig) (args : list string)
  : Throws (list string) :=
  if truthy (identity_file serverConfig)
  then try! idf <- assertPath (identity_file serverConfig) "identity_file" in
       ret (args ++ ["-i"; idf])%list
  else ret args.

(** The properties every plain object inherits from [Object.prototype]. *)
Definition inheritedNames : list string :=
  [ "constructor"; "hasOwnProperty"; "isPrototypeOf"; "propertyIsEnumerable";
    "toLocaleString"; "toString"; "valueOf"; "__proto__";
    "__defineGetter__"; "__defineSetter__"; "__lookupGetter__"; "__lookupSetter__" ].

(** [config.servers[serverName]]: the entry the configuration holds under
    the name or, for an inherited name, what the prototype holds there (a
    function, or the prototype itself), a value none of whose [port],
    [identity_file], [user] and [host] is defined. *)
Definition serverEntry (config : Config) (serverName : string) : option ServerConfig :=
  match servers config !! serverName with
  | Some serverConfig => Some serverConfig
  | None =>
      if existsb (String.eqb serverName) inheritedNames
      then Some (mkServerConfig JUndefined JUndefined JUndefined JUndefined)
      else None
  end.

Definition buildSSHBaseArgs (server : string) (config : Config)
  : Throws (list string * string) :=
  try! serverName <- assertServerName (JString server) "server" in
  let args := sshMultiplexArgs in
  match serverEntry config serverName with
  | Some serverConfig =>
      try! args1 <- pushPort serverConfig args in
      try! args2 <- pushIdentityFile serverConfig args1 in
      try! u0 <- assertString (user serverConfig) "user" in
      try! u <- assertNoControlChars u0 "user" in
      try! h0 <- assertString (host serverConfig) "host" in
      try! h <- assertNoControlChars h0 "host" in
      ret (args2, u ++ "@" ++ h)
  | None => ret (args, serverName)
  end.

Definition buildSSHArgs (server : string) (config : Config) (remoteCommand : string)
  : Throws (list string) :=
  try! base <- buildSSHBaseArgs server config in
  let '(args, target) := base in
  ret (args ++ [target; remoteCommand])%list.

(** The loop [for (i = 0; i < args.length; i += 2)] of [buildSCPArgs]: the
    ssh arguments are read two at a time and only the first of each two is
    compared with ["-p"].  The ssh base arguments always come in pairs
    ([sshBaseArgs_paired] below); on a list of odd length JavaScript would
    push [undefined] for the missing last value, which has no counterpart
    here, and the model keeps the flag alone. *)
Fixpoint scpOptionArgs (args : list string) : list string :=
  match args with
  | flag :: value :: rest =>
      ((if String.eqb flag "-p" then ["-P"; value] else [flag; value])
         ++ scpOptionArgs rest)%list
  | [flag] => [if String.eqb flag "-p" then "-P" else flag]
  | [] => []
  end.

Inductive Direction := Upload | Download.

(** [localPath: string | string[]] *)
Inductive LocalPath :=
| OnePath (p : string)
| ManyPaths (ps : list string).

Definition buildSCPArgs (server : string) (config : Config) (direction : Direction)
    (localPath : LocalPath) (remotePath : string) : Throws (list string) :=
  try! base <- buildSSHBaseArgs server config in
  let '(args, target) := base in
  let scpArgs := "-r" :: scpOptionArgs args in
  let remoteSpec := target ++ ":" ++ remotePath in
  match direction with
  | Upload =>
      let localPaths := match localPath with
                        | OnePath p => [p]
                        | ManyPaths ps => ps
                        end in
      ret (scpArgs ++ localPaths ++ [remoteSpec])%list
  | Download =>
      match localPath with
      | ManyPaths _ => throw "download direction expects a single local path"
      | OnePath p => ret (scpArgs ++ [remoteSpec; p])%list
      end
  end.

Definition buildRsyncSshCommand (server : string) (config : Config) : Throws string :=
  try! base <- buildSSHBaseArgs server config in
  let '(args, _) := base in
  ret (shellQuoteArgs ("ssh" :: args)).

Definition buildRsyncRemoteTarget (server : string) (config : Config) (remotePath : string)
  : Throws string :=
  try! base <- buildSSHBaseArgs server config in
  let '(_, target) := base in
  ret (target ++ ":" ++ shellQuote remotePath).

(** ** Watch layer: the path filter *)

Definition slash : ascii := "/".
Definition backslash : ascii := ascii_of_N 92.
Definition star : ascii := "*".

Definition normalizeWatchPath (value : string) : string :=
  replaceAllChar (Ascii.eqb backslash) slash value.

(** [path.posix.basename(p)]: trailing separators are dropped, then the
    part after the last separator is returned. *)
Definition basename (p : string) : string :=
  let r := dropWhile (Ascii.eqb slash) (rev (chars p)) in
  of_chars (rev (takeWhile (fun c => negb (Ascii.eqb slash c)) r)).

(** [wildcardToRegex(pattern).test(s)].  Every regular-expression
    metacharacter of the pattern other than the star is escaped, so the
    compiled expression is an anchored sequence of literal characters and of
    [.*], which matches any run of characters that holds no line
    terminator. *)
Fixpoint wildcardMatch (pattern : list ascii) (s : list ascii) : bool :=
  match pattern with
  | [] => match s with [] => true | _ => false end
  | p :: pattern' =>
      if Ascii.eqb p star then
        (fix anyRun (s : list ascii) : bool :=
           wildcardMatch pattern' s ||
           match s with
           | [] => false
           | c :: s' => negb (isLineTerminator c) && anyRun s'
           end) s
      else
        match s with
        | c :: s' => Ascii.eqb p c && wildcardMatch pattern' s'
        | [] => false
        end
  end.

Definition wildcardTest (pattern s : string) : bool :=
  wildcardMatch (chars pattern) (chars s).

(** One turn of the loop of [shouldIgnorePath]: does [pattern] make the
    function return [true]? *)
Definition patternIgnores (normalized base : string) (pattern : string) : bool :=
  let p := normalizeWatchPath pattern in
  if negb (includes "*" p) then
    if includes "/" p then
      String.eqb normalized p || startsWith (p ++ "/") normalized
    else
      String.eqb normalized p || includes ("/" ++ p ++ "/") normalized
        || String.eqb base p
  else if includes "/" p then wildcardTest p normalized
  else wildcardTest p base.

Definition shouldIgnorePath (relativePath : string) (excludePatterns : list string) : bool :=
  let normalized := normalizeWatchPath relativePath in
  let base := basename normalized in
  existsb (patternIgnores normalized base) excludePatterns.

(** ** Command executor *)

(** What the child process created by [spawn] emits: data on its two pipes,
    then ['close'] with its exit code ([None] is [null], a process ended by a
    signal) or ['error']. *)
Inductive ProcEvent :=
| StdoutData (chunk : string)
| StderrData (chunk : string)
| ProcClose (code : option Z)
| ProcError (message : string).

(** The runtime's [child_process.spawn]: it checks its arguments before it
    creates the child and throws when it refuses them; otherwise it returns
    the child, whose events arrive later. *)
Inductive SpawnResult :=
| SpawnThrows (message : string)
| Spawned (events : list ProcEvent).

Definition Spawn : Type := string -> list string -> Z -> option string -> SpawnResult.

Inductive Promise (A : Type) :=
| Pending
| Resolved (value : A)
| Rejected (reason : string).
Arguments Pending {A}.
Arguments Resolved {A} value.
Arguments Rejected {A} reason.

Record ExecState := mkExecState {
  outBuf : string;
  errBuf : string;
  promise : Promise ExecResult
}.

(** [resolve(v)]: only the first call settles the promise. *)
Definition resolve (st : ExecState) (v : ExecResult) : ExecState :=
  match promise st with
  | Pending => mkExecState (outBuf st) (errBuf st) (Resolved v)
  | _ => st
  end.

(** The four handlers registered by [executeCommand]. *)
Definition onProcEvent (st : ExecState) (ev : ProcEvent) : ExecState :=
  match ev with
  | StdoutData d => mkExecState (outBuf st ++ d) (errBuf st) (promise st)
  | StderrData d => mkExecState (outBuf st) (errBuf st ++ d) (promise st)
  | ProcClose code =>
      resolve st (mkExecResult (trim (outBuf st)) (trim (errBuf st))
                               (default (-1) code))
  | ProcError message => resolve st (mkExecResult "" message (-1))
  end.

(** [executeCommand]: the executor of [new Promise] calls [spawn]; an
    exception of [spawn] there rejects the promise, as nothing catches it. *)
Definition executeCommand (spawn : Spawn) (program : string) (args : list string)
    (timeoutMs : Z) (cwd : option string) : Promise ExecResult :=
  match spawn program args timeoutMs cwd with
  | SpawnThrows message => Rejected message
  | Spawned events =>
      promise (fold_left onProcEvent events (mkExecState "" "" Pending))
  end.

Definition NUL : string := String (ascii_of_N 0) "".

Definition hasNullByte (s : string) : bool :=
  existsb (fun c => (code c =? 0)%N) (chars s).

(** A runtime whose [spawn] refuses an empty program name and a program or
    argument that holds a null byte, as Node's does
    ([ERR_INVALID_ARG_VALUE]; its message also names the argument and the
    value received), and otherwise runs [proc]. *)
Definition nodeSpawn (proc : string -> list string -> list ProcEvent) : Spawn :=
  fun program args _ _ =>
    if String.eqb program ""
    then SpawnThrows "The argument 'file' cannot be empty. Received ''"
    else if hasNullByte program
    then SpawnThrows "The argument 'file' must be a string without null bytes."
    else if existsb hasNullByte args
    then SpawnThrows "The argument 'args' must be a string without null bytes."
    else Spawned (proc program args).

(** [executeRemoteCommand] as the promise it returns: an [async] function
    whose body throws returns a rejected promise. *)
Definition executeRemoteCommandPromise (spawn : Spawn) (server : string) (config : Config)
    (remoteCommand : string) (timeoutMs : Z) : Promise ExecResult :=
  match buildSSHArgs server config remoteCommand with
  | inl message => Rejected message
  | inr sshArgs => executeCommand spawn "ssh" sshArgs timeoutMs None
  end.

(** [assertTimeoutSeconds] on an integer number of seconds. *)
Definition assertTimeoutSeconds (value : Z) (field : string) : Throws Z :=
  if (0 <? value) && (value <=? 86400) then ret value
  else throw (field ++ " must be a number between 1 and 86400 seconds").

(** [case "remote_execute"], from the call to the promise it awaits.  The
    timeout is absent (300 seconds then) or an integer number of seconds.
    The command is checked by [assertString] alone. *)
Definition remote_execute (spawn : Spawn) (config : Config)
    (serverName command working_dir : JsValue) (timeout : option Z)
  : Throws (Promise ExecResult) :=
  try! safeServer <- assertServerName serverName "server" in
  try! safeCommand <- assertString command "command" in
  try! safeTimeout <- assertTimeoutSeconds (default 300 timeout) "timeout" in
  try! remoteCommand <-
    (if truthy working_dir
     then try! safeWorkingDir <- assertPath working_dir "working_dir" in
          ret ("cd " ++ shellQuote safeWorkingDir ++ " && " ++ safeCommand)
     else ret safeCommand) in
  ret (executeRemoteCommandPromise spawn safeServer config remoteCommand
         (safeTimeout * 1000)).

(** ** Sync engine *)

Inductive FileKind := IsFile | IsDirectory | IsOther.

(** One call of [executeCommand]. *)
Record Call := mkCall {
  callProgram : string;
  callArgs : list string;
  callTimeout : Z
}.

(** The local machine as the sync engine sees it: the file system
    ([statSync] and [readdirSync], [None] when they throw), the path
    library, and the result each command resolves with. *)
Record Runtime := mkRuntime {
  statSync : string -> option FileKind;
  readdirSync : string -> option (list string);
  pathJoin : string -> string -> string;
  posixDirname : string -> string;
  exec : string -> list string -> Z -> ExecResult
}.

(** A computation that issues commands and may throw: the commands issued so
    far, in order, and the outcome. *)
Definition Traced (A : Type) : Type := (list Call * Throws A)%type.

Definition retM {A} (a : A) : Traced A := ([], inr a).
Definition lift {A} (m : Throws A) : Traced A := ([], m).
Definition bindM {A B} (m : Traced A) (k : A -> Traced B) : Traced B :=
  match m with
  | (t, inl e) => (t, inl e)
  | (t, inr a) => let '(t', r) := k a in ((t ++ t')%list, r)
  end.

Notation "'run!' x <- m 'in' k" := (bindM m (fun x => k))
  (at level 10, x name, m at level 100, k at level 200,
   format "'[v' 'run!'  x  <-  m  'in' '/' k ']'").

Definition awaitCommand (rt : Runtime) (program : string) (args : list string)
    (timeoutMs : Z) : Traced ExecResult :=
  ([mkCall program args timeoutMs], inr (exec rt program args timeoutMs)).

Definition executeRemoteCommand (rt : Runtime) (server : string) (config : Config)
    (remoteCommand : string) (timeoutMs : Z) : Traced ExecResult :=
  run! sshArgs <- lift (buildSSHArgs server config remoteCommand) in
  awaitCommand rt "ssh" sshArgs timeoutMs.

Definition resolveScpUploadRemoteMkdirPath (rt : Runtime) (localPath remotePath : string)
  : string :=
  match statSync rt localPath with
  | Some IsFile => posixDirname rt remotePath
  | _ => remotePath
  end.

Definition resolveScpUploadLocalSources (rt : Runtime) (localPath : string) : list string :=
  match statSync rt localPath with
  | Some IsDirectory =>
      match readdirSync rt localPath with
      | Some names => map (fun name => pathJoin rt localPath name) names
      | None => [localPath]
      end
  | _ => [localPath]
  end.

Definition endsWith (suffix s : string) : bool :=
  startsWith (of_chars (rev (chars suffix))) (of_chars (rev (chars s))).

Definition resolveRsyncSourcePath (rt : Runtime) (localPath : string) : string :=
  match statSync rt localPath with
  | Some IsDirectory => if endsWith "/" localPath then localPath else localPath ++ "/"
  | _ => localPath
  end.

Definition NL : string := String nl "".

Definition isRsyncUnavailable (result : ExecResult) : bool :=
  let combined := toLowerCase (stdout result ++ NL ++ stderr result) in
  if exitCode result =? 127 then true
  else includes "rsync: command not found" combined
       || includes "failed to exec rsync" combined
       || includes "remote command not found" combined.

Inductive MethodUsed := UsedRsync | UsedScp.

(** [SyncExecutionResult]; its fields [stderr] and [exclude] are
    [sync_stderr] and [sync_exclude] here, the plain names being those of
    [ExecResult] and of the session. *)
Record SyncExecutionResult := mkSyncResult {
  success : bool;
  method : MethodUsed;
  exit_code : Z;
  output : string;
  sync_stderr : string;
  sync_exclude : list string;
  delete_remote_extra : bool;
  fallback_used : bool;
  rsync_error : option string
}.

Record SyncParams := mkSyncParams {
  p_server : string;
  p_local_path : string;
  p_remote_path : string;
  p_exclude : option (list string);
  p_method : option SyncMethod;
  p_delete_remote_extra : option bool
}.

(** The upload by [scp], written twice in [performRemoteSync] (the fallback
    and the forced method): create the remote directory, then copy the
    sources unless there is none. *)
Definition scpUpload (rt : Runtime) (config : Config)
    (safeServer safeLocalPath safeRemotePath : string) : Traced ExecResult :=
  let remoteMkdirPath := resolveScpUploadRemoteMkdirPath rt safeLocalPath safeRemotePath in
  let scpSourcePaths := resolveScpUploadLocalSources rt safeLocalPath in
  run! _ <- executeRemoteCommand rt safeServer config
              ("mkdir -p " ++ shellQuote remoteMkdirPath) 30000 in
  match scpSourcePaths with
  | [] => retM (mkExecResult "" "" 0)
  | _ =>
      run! scpArgs <- lift (buildSCPArgs safeServer config Upload
                              (ManyPaths scpSourcePaths) safeRemotePath) in
      awaitCommand rt "scp" scpArgs 600000
  end.

Definition rsyncErrorText (rsyncResult : ExecResult) : string :=
  join NL (List.filter nonEmpty [stdout rsyncResult; stderr rsyncResult]).

Definition syncResult (safeExclude : list string) (safeDelete : bool)
    (methodUsed : MethodUsed) (fallbackUsed : bool) (result : ExecResult)
    (rsyncResult : option ExecResult) : SyncExecutionResult :=
  {| success := exitCode result =? 0;
     method := methodUsed;
     exit_code := exitCode result;
     output := stdout result;
     sync_stderr := stderr result;
     sync_exclude := safeExclude;
     delete_remote_extra := safeDelete;
     fallback_used := fallbackUsed;
     rsync_error :=
       match fallbackUsed, rsyncResult with
       | true, Some r => Some (rsyncErrorText r)
       | _, _ => None
       end |}.

Definition rsyncArguments (sshCommand : string) (safeDelete : bool)
    (safeExclude : list string) (source target : string) : list string :=
  (["-az"; "--partial"; "--human-readable"; "-e"; sshCommand]
     ++ (if safeDelete then ["--delete"] else [])
     ++ flat_map (fun pattern => ["--exclude"; pattern]) safeExclude
     ++ [source; target])%list.

Definition performRemoteSync (rt : Runtime) (config : Config) (params : SyncParams)
  : Traced SyncExecutionResult :=
  run! safeServer <- lift (assertServerName (JString (p_server params)) "server") in
  run! safeLocalPath <- lift (assertPath (JString (p_local_path params)) "local_path") in
  run! safeRemotePath <- lift (assertPath (JString (p_remote_path params)) "remote_path") in
  run! safeExclude <-
    lift (match p_exclude params with
          | Some ex => assertStringArray (JArray (map JString ex)) "exclude"
          | None => ret []
          end) in
  let safeMethod := default MethodAuto (p_method params) in
  let safeDeleteRemoteExtra := default false (p_delete_remote_extra params) in
  let rsyncSourcePath := resolveRsyncSourcePath rt safeLocalPath in
  match safeMethod with
  | MethodScp =>
      run! result <- scpUpload rt config safeServer safeLocalPath safeRemotePath in
      retM (syncResult safeExclude safeDeleteRemoteExtra UsedScp false result None)
  | _ =>
      run! sshCommand <- lift (buildRsyncSshCommand safeServer config) in
      run! target <- lift (buildRsyncRemoteTarget safeServer config safeRemotePath) in
      let rsyncArgs := rsyncArguments sshCommand safeDeleteRemoteExtra safeExclude
                         rsyncSourcePath target in
      run! rsyncResult <- awaitCommand rt "rsync" rsyncArgs 600000 in
      if exitCode rsyncResult =? 0 then
        retM (syncResult safeExclude safeDeleteRemoteExtra UsedRsync false
                rsyncResult (Some rsyncResult))
      else if (match safeMethod with MethodAuto => true | _ => false end)
              && isRsyncUnavailable rsyncResult then
        run! result <- scpUpload rt config safeServer safeLocalPath safeRemotePath in
        retM (syncResult safeExclude safeDeleteRemoteExtra UsedScp true
                result (Some rsyncResult))
      else
        retM (syncResult safeExclude safeDeleteRemoteExtra UsedRsync false
                rsyncResult (Some rsyncResult))
  end.

(** ** Development sessions *)

Inductive DevSessionState := StatusRunning | StatusStopped | StatusError.

(** The fields of [DevSession] that are set once, when the session is
    created.  The field [id] of the source is [sessionId] here. *)
Record SessionSettings := mkSettings {
  sessionId : string;
  name : string;
  server : string;
  localPath : string;
  remotePath : string;
  remoteWorkingDir : string;
  exclude : list string;
  syncMethod : SyncMethod;
  deleteRemoteExtra : bool;
  mode : DevSessionMode;
  shortCommand : option string;
  longCommand : option string;
  debounceMs : Z;
  pollIntervalSeconds : Z;
  logLines : Z;
  followSeconds : Z;
  startedAt : Z
}.

(** A handle returned by [setTimeout]: the reason its callback will pass to
    [runDevSessionCycle], and whether it can still fire. *)
Record Timer := mkTimer {
  timerReason : string;
  timerArmed : bool
}.

(** [DevSession]: its settings and the fields the orchestrator mutates.
    [watcher] and [pollingTimer] say whether the handle is set.  The two
    fields of the log tail, which the poller alone assigns, are left out. *)
Record DevSession := mkDevSession {
  settings : SessionSettings;
  watcher : bool;
  debounceTimer : option Timer;
  pollingTimer : bool;
  running : bool;
  pending : bool;
  stopRequested : bool;
  status : DevSessionState;
  lastSyncAt : option Z;
  lastRunAt : option Z;
  syncCount : Z;
  runCount : Z;
  changedPaths : gset string;
  lastError : option string;
  lastOperation : option string;
  pid : option Z;
  logFile : option string;
  lastSyncResult : option SyncExecutionResult;
  lastShortRun : option ExecResult;
  lastProcessInfo : option string;
  isProcessRunning : option bool
}.

(** Field assignments [session.f = v]. *)
Definition set_watcher (v : bool) (s : DevSession) : DevSession :=
  let 'mkDevSession c w dt pt r p sr st lsa lra sc rc cp le lo pi lf lsr lsh lpi ipr := s in
  mkDevSession c v dt pt r p sr st lsa lra sc rc cp le lo pi lf lsr lsh lpi ipr.
Definition set_debounceTimer (v : option Timer) (s : DevSession) : DevSession :=
  let 'mkDevSession c w dt pt r p sr st lsa lra sc rc cp le lo pi lf lsr lsh lpi ipr := s in
  mkDevSession c w v pt r p sr st lsa lra sc rc cp le lo pi lf lsr lsh lpi ipr.
Definition set_pollingTimer (v : bool) (s : DevSession) : DevSession :=
  let 'mkDevSession c w dt pt r p sr st lsa lra sc rc cp le lo pi lf lsr lsh lpi ipr := s in
  mkDevSession c w dt v r p sr st lsa lra sc rc cp le lo pi lf lsr lsh lpi ipr.
Definition set_running (v : bool) (s : DevSession) : DevSession :=
  let 'mkDevSession c w dt pt r p sr st lsa lra sc rc cp le lo pi lf lsr lsh lpi ipr := s in
  mkDevSession c w dt pt v p sr st lsa lra sc rc cp le lo pi lf lsr lsh lpi ipr.
Definition set_pending (v : bool) (s : DevSession) : DevSession :=
  let 'mkDevSession c w dt pt r p sr st lsa lra sc rc cp le lo pi lf lsr lsh lpi ipr := s in
  mkDevSession c w dt pt r v sr st lsa lra sc rc cp le lo pi lf lsr lsh lpi ipr.
Definition set_stopRequested (v : bool) (s : DevSession) : DevSession :=
  let 'mkDevSession c w dt pt r p sr st lsa lra sc rc cp le lo pi lf lsr lsh lpi ipr := s in
  mkDevSession c w dt pt r p v st lsa lra sc rc cp le lo pi lf lsr lsh lpi ipr.
Definition set_status (v : DevSessionState) (s : DevSession) : DevSession :=
  let 'mkDevSession c w dt pt r p sr st lsa lra sc rc cp le lo pi lf lsr lsh lpi ipr := s in
  mkDevSession c w dt pt r p sr v lsa lra sc rc cp le lo pi lf lsr lsh lpi ipr.
Definition set_lastSyncAt (v : option Z) (s : DevSession) : DevSession :=
  let 'mkDevSession c w dt pt r p sr st lsa lra sc rc cp le lo pi lf lsr lsh lpi ipr := s in
  mkDevSession c w dt pt r p sr st v lra sc rc cp le lo pi lf lsr lsh lpi ipr.
Definition set_lastRunAt (v : option Z) (s : DevSession) : DevSession :=
  let 'mkDevSession c w dt pt r p sr st lsa lra sc rc cp le lo pi lf lsr lsh lpi ipr := s in
  mkDevSession c w dt pt r p sr st lsa v sc rc cp le lo pi lf lsr lsh lpi ipr.
Definition set_syncCount (v : Z) (s : DevSession) : DevSession :=
  let 'mkDevSession c w dt pt r p sr st lsa lra sc rc cp le lo pi lf lsr lsh lpi ipr := s in
  mkDevSession c w dt pt r p sr st lsa lra v rc cp le lo pi lf lsr lsh lpi ipr.
Definition set_runCount (v : Z) (s : DevSession) : DevSession :=
  let 'mkDevSession c w dt pt r p sr st lsa lra sc rc cp le lo pi lf lsr lsh lpi ipr := s in
  mkDevSession c w dt pt r p sr st lsa lra sc v cp le lo pi lf lsr lsh lpi ipr.
Definition set_changedPaths (v : gset string) (s : DevSession) : DevSession :=
  let 'mkDevSession c w dt pt r p sr st lsa lra sc rc cp le lo pi lf lsr lsh lpi ipr := s in
  mkDevSession c w dt pt r p sr st lsa lra sc rc v le lo pi lf lsr lsh lpi ipr.
Definition set_lastError (v : option string) (s : DevSession) : DevSession :=
  let 'mkDevSession c w dt pt r p sr st lsa lra sc rc cp le lo pi lf lsr lsh lpi ipr := s in
  mkDevSession c w dt pt r p sr st lsa lra sc rc cp v lo pi lf lsr lsh lpi ipr.
Definition set_lastOperation (v : option string) (s : DevSession) : DevSession :=
  let 'mkDevSession c w dt pt r p sr st lsa lra sc rc cp le lo pi lf lsr lsh lpi ipr := s in
  mkDevSession c w dt pt r p sr st lsa lra sc rc cp le v pi lf lsr lsh lpi ipr.
Definition set_pid (v : option Z) (s : DevSession) : DevSession :=
  let 'mkDevSession c w dt pt r p sr st lsa lra sc rc cp le lo pi lf lsr lsh lpi ipr := s in
  mkDevSession c w dt pt r p sr st lsa lra sc rc cp le lo v lf lsr lsh lpi ipr.
Definition set_logFile (v : option string) (s : DevSession) : DevSession :=
  let 'mkDevSession c w dt pt r p sr st lsa lra sc rc cp le lo pi lf lsr lsh lpi ipr := s in
  mkDevSession c w dt pt r p sr st lsa lra sc rc cp le lo pi v lsr lsh lpi ipr.
Definition set_lastSyncResult (v : option SyncExecutionResult) (s : DevSession) : DevSession :=
  let 'mkDevSession c w dt pt r p sr st lsa lra sc rc cp le lo pi lf lsr lsh lpi ipr := s in
  mkDevSession c w dt pt r p sr st lsa lra sc rc cp le lo pi lf v lsh lpi ipr.
Definition set_lastShortRun (v : option ExecResult) (s : DevSession) : DevSession :=
  let 'mkDevSession c w dt pt r p sr st lsa lra sc rc cp le lo pi lf lsr lsh lpi ipr := s in
  mkDevSession c w dt pt r p sr st lsa lra sc rc cp le lo pi lf lsr v lpi ipr.
Definition set_lastProcessInfo (v : option string) (s : DevSession) : DevSession :=
  let 'mkDevSession c w dt pt r p sr st lsa lra sc rc cp le lo pi lf lsr lsh lpi ipr := s in
  mkDevSession c w dt pt r p sr st lsa lra sc rc cp le lo pi lf lsr lsh v ipr.
Definition set_isProcessRunning (v : option bool) (s : DevSession) : DevSession :=
  let 'mkDevSession c w dt pt r p sr st lsa lra sc rc cp le lo pi lf lsr lsh lpi ipr := s in
  mkDevSession c w dt pt r p sr st lsa lra sc rc cp le lo pi lf lsr lsh lpi v.

(** Truthiness of the optional fields tested by the orchestrator. *)
Definition truthyString (o : option string) : bool :=
  match o with
  | Some s => nonEmpty s
  | None => false
  end.

Definition truthyNumber (o : option Z) : bool :=
  match o with
  | Some n => negb (n =? 0)
  | None => false
  end.

Definition markSessionError (message : string) (s : DevSession) : DevSession :=
  set_lastError (Some message) (set_status StatusError s).

Definition clearSessionTimers (s : DevSession) : DevSession :=
  set_pollingTimer false (set_debounceTimer None s).

(** ** The cycle orchestrator as a state machine *)

(** What the session asks of the outside: a sync, or a remote command for
    one of four purposes. *)
Inductive Purpose := ShortRun | ProcessCheck | LongStart | Kill.

Inductive Action :=
| DoSync (params : SyncParams)
| DoRemote (purpose : Purpose) (command : string) (timeoutMs : Z).

(** The [await] at which an activation of [runDevSessionCycle] is
    suspended, with the locals it will need: the [reason] it was called
    with, and the log file chosen by [maybeStartLongTask]. *)
Inductive Cont :=
| AwaitSync (reason : string)
| AwaitShortRun (reason : string)
| AwaitProcessCheck (reason : string)
| AwaitLongStart (reason : string) (actualLogFile : string).

Definition contReason (k : Cont) : string :=
  match k with
  | AwaitSync r | AwaitShortRun r | AwaitProcessCheck r | AwaitLongStart r _ => r
  end.

(** A session together with the activations of [runDevSessionCycle] that
    are suspended on it.  Nothing here bounds their number: that there is
    never more than one is a theorem. *)
Record World := mkWorld {
  session : DevSession;
  cycles : list Cont
}.

(** The clock as read by a transition: [Date.now()] and
    [new Date().toISOString()]. *)
Record Clock := mkClock {
  nowMs : Z;
  nowIso : string
}.

Inductive Event :=
| WatchEvent (filename : option string)
| DebounceFired
| Trigger (reason : string)
| SyncResolved (i : nat) (result : SyncExecutionResult) (clock : Clock)
| RemoteResolved (i : nat) (result : ExecResult) (clock : Clock)
| AwaitThrew (i : nat) (message : string)
| Stop (stop_remote_process : bool) (signal : JsValue)
| KillResolved (result : ExecResult).

Definition syncParamsOf (s : DevSession) : SyncParams :=
  let c := settings s in
  {| p_server := server c;
     p_local_path := localPath c;
     p_remote_path := remotePath c;
     p_exclude := Some (exclude c);
     p_method := Some (syncMethod c);
     p_delete_remote_extra := Some (deleteRemoteExtra c) |}.

(** The head of the [do] loop, up to [await performRemoteSync]. *)
Definition beginIteration (reason : string) (s : DevSession)
  : DevSession * option Cont * list Action :=
  let s1 := set_pending false s in
  let s2 := set_status StatusRunning s1 in
  let s3 := set_lastError None s2 in
  let s4 := set_lastOperation (Some ("sync (" ++ reason ++ ")")) s3 in
  (s4, Some (AwaitSync reason), [DoSync (syncParamsOf s4)]).

(** The [while] test at the foot of the loop, and [finally]. *)
Definition endIteration (reason : string) (s : DevSession)
  : DevSession * option Cont * list Action :=
  if pending s && negb (stopRequested s) then beginIteration reason s
  else (set_running false s, None, []).

(** [catch (error) { markSessionError }] followed by [finally]. *)
Definition failCycle (message : string) (s : DevSession)
  : DevSession * option Cont * list Action :=
  (set_running false (markSessionError message s), None, []).

Definition DQ : string := String dquote "".

Definition processCheckCommand (p : Z) : string :=
  "ps -p " ++ ofZ p ++ " -o pid=,stat=,etime=,command=".

Definition backgroundCommand (workingDir longCmd actualLogFile : string) : string :=
  "cd " ++ shellQuote workingDir ++ " && nohup " ++ longCmd ++ " > "
    ++ shellQuote actualLogFile ++ " 2>&1 < /dev/null & printf "
    ++ DQ ++ "__MCP_PID__%s\n" ++ DQ ++ " " ++ DQ ++ "$!" ++ DQ.

Definition isColonOrDot (c : ascii) : bool :=
  Ascii.eqb c ":" || Ascii.eqb c ".".

(** [maybeStartLongTask] from the choice of the log file to the [await] of
    the start command. *)
Definition launchLongTask (reason : string) (clock : Clock) (s : DevSession)
  : DevSession * option Cont * list Action :=
  let c := settings s in
  let timestamp := replaceAllChar isColonOrDot "-" (nowIso clock) in
  let actualLogFile :=
    if truthyString (logFile s) then default "" (logFile s)
    else remoteWorkingDir c ++ "/" ++ name c ++ "_" ++ timestamp ++ ".log" in
  let bgCommand :=
    backgroundCommand (remoteWorkingDir c) (default "" (longCommand c)) actualLogFile in
  (s, Some (AwaitLongStart reason actualLogFile), [DoRemote LongStart bgCommand 30000]).

(** [maybeStartLongTask] from its entry to its first [await], or to its
    [return] when the session is not a long one: the loop then goes on. *)
Definition maybeStartLongTask (reason : string) (clock : Clock) (s : DevSession)
  : DevSession * option Cont * list Action :=
  let c := settings s in
  match mode c with
  | ModeLong =>
      if truthyString (longCommand c) then
        if truthyNumber (pid s) then
          (s, Some (AwaitProcessCheck reason),
           [DoRemote ProcessCheck (processCheckCommand (default 0 (pid s))) 15000])
        else launchLongTask reason clock s
      else endIteration reason s
  | ModeShort => endIteration reason s
  end.

(** The loop body after [await performRemoteSync] has returned. *)
Definition afterSync (reason : string) (result : SyncExecutionResult) (clock : Clock)
    (s : DevSession) : DevSession * option Cont * list Action :=
  let s1 := set_lastSyncResult (Some result) s in
  let s2 := set_syncCount (syncCount s1 + 1) s1 in
  let s3 := set_lastSyncAt (Some (nowMs clock)) s2 in
  let s4 := set_changedPaths ∅ s3 in
  if negb (success result) then
    failCycle (orElse (sync_stderr result)
                 ("sync failed with exit code " ++ ofZ (exit_code result))) s4
  else
    let c := settings s4 in
    match mode c with
    | ModeShort =>
        if truthyString (shortCommand c) then
          let s5 := set_lastOperation (Some "short command run") s4 in
          let command := "cd " ++ shellQuote (remoteWorkingDir c) ++ " && "
                           ++ default "" (shortCommand c) in
          (s5, Some (AwaitShortRun reason), [DoRemote ShortRun command 300000])
        else endIteration reason s4
    | ModeLong => maybeStartLongTask reason clock s4
    end.

(** The loop body after [await executeRemoteCommand] of the short command. *)
Definition afterShortRun (reason : string) (runRes : ExecResult) (clock : Clock)
    (s : DevSession) : DevSession * option Cont * list Action :=
  let s1 := set_lastShortRun (Some runRes) s in
  let s2 := set_runCount (runCount s1 + 1) s1 in
  let s3 := set_lastRunAt (Some (nowMs clock)) s2 in
  let s4 := if negb (exitCode runRes =? 0)
            then set_lastError
                   (Some ("short command failed with exit code " ++ ofZ (exitCode runRes))) s3
            else s3 in
  endIteration reason s4.

(** [maybeStartLongTask] after the [ps] lookup has returned. *)
Definition processAlive (checkRes : ExecResult) : bool :=
  (exitCode checkRes =? 0) && (0 <? Z.of_nat (String.length (trim (stdout checkRes)))).

Definition afterProcessCheck (reason : string) (checkRes : ExecResult) (clock : Clock)
    (s : DevSession) : DevSession * option Cont * list Action :=
  let s1 := set_isProcessRunning (Some (processAlive checkRes)) s in
  let s2 := set_lastProcessInfo (Some (stdout checkRes)) s1 in
  if processAlive checkRes then endIteration reason s2
  else launchLongTask reason clock s2.

(** [maybeStartLongTask] after the start command has returned. *)
Definition afterLongStart (reason : string) (actualLogFile : string) (result : ExecResult)
    (clock : Clock) (s : DevSession) : DevSession * option Cont * list Action :=
  match parseBackgroundPid (stdout result) with
  | Some p =>
      if negb (exitCode result =? 0) then
        failCycle ("failed to start long task: "
                     ++ orElse (stderr result) (stdout result)) s
      else
        let s1 := set_pid (Some p) s in
        let s2 := set_logFile (Some actualLogFile) s1 in
        let s3 := set_isProcessRunning (Some true) s2 in
        let s4 := set_runCount (runCount s3 + 1) s3 in
        let s5 := set_lastRunAt (Some (nowMs clock)) s4 in
        let s6 := set_lastOperation (Some "long task started") s5 in
        endIteration reason s6
  | None =>
      failCycle ("failed to start long task: "
                   ++ orElse (stderr result) (stdout result)) s
  end.

(** Put a transition's outcome back in the world: the activation [i] is
    suspended again, or has ended. *)
Definition settle (w : World) (i : nat)
    (out : DevSession * option Cont * list Action) : World * list Action :=
  let '(s, k, acts) := out in
  (mkWorld s (match k with
              | Some k' => <[i := k']> (cycles w)
              | None => delete i (cycles w)
              end), acts).

(** [runDevSessionCycle(session, reason)] from the call to its first
    [await], or to its [return]. *)
Definition runDevSessionCycle (reason : string) (w : World) : World * list Action :=
  let s := session w in
  if stopRequested s then (w, [])
  else if running s then (mkWorld (set_pending true s) (cycles w), [])
  else
    let '(s', k, acts) := beginIteration reason (set_running true s) in
    (mkWorld s' (match k with
                 | Some k' => (cycles w ++ [k'])%list
                 | None => cycles w
                 end), acts).

(** [scheduleDevSessionCycle]: the timer is replaced, not accumulated. *)
Definition scheduleDevSessionCycle (reason : string) (s : DevSession) : DevSession :=
  if stopRequested s then s
  else set_debounceTimer (Some (mkTimer reason true)) s.

(** The callback given to [watch] by [startDevSessionWatcher].  The test
    [!filename] holds for [null] and for the empty name alike. *)
Definition onWatchEvent (filename : option string) (s : DevSession) : DevSession :=
  if stopRequested s then s
  else if truthyString filename then
    let changed := normalizeWatchPath (default "" filename) in
    if shouldIgnorePath changed (exclude (settings s)) then s
    else scheduleDevSessionCycle changed
           (set_changedPaths ({[ changed ]} ∪ changedPaths s) s)
  else scheduleDevSessionCycle "watch event" s.

(** A destructuring default: it replaces [undefined] only. *)
Definition orDefault (v d : JsValue) : JsValue :=
  match v with
  | JUndefined => d
  | _ => v
  end.

(** Upper case of a code unit below 256.  The three letters whose upper
    case is not a single code unit below 256 (181, 223, 255) are kept; no
    signal name holds them or what they become. *)
Definition toUpperChar (c : ascii) : ascii :=
  let n := code c in
  if ((97 <=? n) && (n <=? 122) || (224 <=? n) && (n <=? 254) && negb (n =? 247))%N
  then ascii_of_N (n - 32) else c.

Definition assertSignal (value : JsValue) : Throws string :=
  try! s <- assertString value "signal" in
  try! s' <- assertNoControlChars s "signal" in
  let signal := of_chars (map toUpperChar (chars s')) in
  if String.eqb signal "TERM" || String.eqb signal "KILL"
     || String.eqb signal "INT" || String.eqb signal "HUP"
  then ret signal
  else throw "signal must be one of: TERM, KILL, INT, HUP".

(** The [dev_session_stop] handler, from the lookup of the session to the
    [await] of the kill command. *)
Definition stopSession (stop_remote_process : bool) (signal : JsValue) (s : DevSession)
  : DevSession * list Action :=
  let s1 := set_stopRequested true s in
  let s2 := set_status StatusStopped s1 in
  let s3 := set_lastOperation (Some "session stopped") s2 in
  let s4 := clearSessionTimers s3 in
  let s5 := set_watcher false s4 in
  let killActs :=
    if stop_remote_process && truthyNumber (pid s5) then
      match mode (settings s5), assertSignal (orDefault signal (JString "TERM")) with
      | ModeLong, inr safeSignal =>
          [DoRemote Kill ("kill -s " ++ safeSignal ++ " " ++ ofZ (default 0 (pid s5))) 10000]
      | _, _ => []
      end
    else [] in
  (s5, killActs).

Definition killSucceeded (killRes : ExecResult) : bool :=
  (exitCode killRes =? 0) || includes "no such process" (toLowerCase (stderr killRes)).

(** One transition of a session: an event of the outside, handled to the
    next [await].  The poller [pollLongTask] is not part of it: it assigns
    [isProcessRunning], [lastProcessInfo] and the log tail only, and the
    cycle reads none of them before it has assigned it itself. *)
Definition step (w : World) (e : Event) : World * list Action :=
  match e with
  | WatchEvent filename => (mkWorld (onWatchEvent filename (session w)) (cycles w), [])
  | DebounceFired =>
      match debounceTimer (session w) with
      | Some t =>
          if timerArmed t then
            runDevSessionCycle (timerReason t)
              (mkWorld (set_debounceTimer (Some (mkTimer (timerReason t) false)) (session w))
                       (cycles w))
          else (w, [])
      | None => (w, [])
      end
  | Trigger reason => runDevSessionCycle reason w
  | SyncResolved i result clock =>
      match cycles w !! i with
      | Some (AwaitSync reason) => settle w i (afterSync reason result clock (session w))
      | _ => (w, [])
      end
  | RemoteResolved i result clock =>
      match cycles w !! i with
      | Some (AwaitShortRun reason) =>
          settle w i (afterShortRun reason result clock (session w))
      | Some (AwaitProcessCheck reason) =>
          settle w i (afterProcessCheck reason result clock (session w))
      | Some (AwaitLongStart reason actualLogFile) =>
          settle w i (afterLongStart reason actualLogFile result clock (session w))
      | _ => (w, [])
      end
  | AwaitThrew i message =>
      match cycles w !! i with
      | Some _ => settle w i (failCycle message (session w))
      | None => (w, [])
      end
  | Stop stop_remote_process signal =>
      let '(s, acts) := stopSession stop_remote_process signal (session w) in
      (mkWorld s (cycles w), acts)
  | KillResolved killRes =>
      (mkWorld (set_isProcessRunning (Some (negb (killSucceeded killRes))) (session w))
               (cycles w), [])
  end.

(** A run: the events in order, and every action they caused. *)
Fixpoint run (w : World) (es : list Event) : World * list Action :=
  match es with
  | [] => (w, [])
  | e :: es' =>
      let '(w1, acts1) := step w e in
      let '(w2, acts2) := run w1 es' in
      (w2, (acts1 ++ acts2)%list)
  end.

Definition isSync (a : Action) : bool :=
  match a with
  | DoSync _ => true
  | DoRemote _ _ _ => false
  end.

Definition isLongStart (a : Action) : bool :=
  match a with
  | DoRemote LongStart _ _ => true
  | _ => false
  end.

(** The number of cycles begun: one [performRemoteSync] each. *)
Definition cyclesBegun (acts : list Action) : nat :=
  length (List.filter isSync acts).

(** ** The [dev_session_start] handler *)

Record StartArgs := mkStartArgs {
  a_session_name : JsValue;
  a_server : JsValue;
  a_local_path : JsValue;
  a_remote_path : JsValue;
  a_remote_working_dir : JsValue;
  a_mode : JsValue;
  a_short_command : JsValue;
  a_long_command : JsValue;
  a_exclude : JsValue;
  a_method : JsValue;
  a_delete_remote_extra : JsValue;
  a_debounce_ms : JsValue;
  a_poll_interval_seconds : JsValue;
  a_log_lines : JsValue;
  a_follow_seconds : JsValue
}.

Definition assertSessionName (value : JsValue) : Throws string :=
  try! s <- assertString value "session_name" in
  try! nm <- assertNoControlChars s "session_name" in
  if SAFE_SERVER_RE nm then ret nm
  else throw "session_name must contain only letters, numbers, ., _, -".

(** What [Date.now()], [Math.random()] and [fs.watch] give the handler:
    the clock, the two generated parts of the session id, and the error of
    [watch] if it throws. *)
Record StartEnv := mkStartEnv {
  startClock : Clock;
  idStamp : string;
  idRandom : string;
  watchError : option string
}.

Definition createSessionId (env : StartEnv) (nm : string) : string :=
  nm ++ "-" ++ idStamp env ++ "-" ++ idRandom env.

(** The checks of the handler, in the order of the source, down to the
    settings of the session to create. *)
Definition validateStart (env : StartEnv) (args : StartArgs) : Throws SessionSettings :=
  try! safeSessionName <-
    assertSessionName (orDefault (a_session_name args) (JString "dev-session")) in
  try! safeServer <- assertServerName (a_server args) "server" in
  try! safeLocalPath <- assertPath (a_local_path args) "local_path" in
  try! safeRemotePath <- assertPath (a_remote_path args) "remote_path" in
  try! safeRemoteWorkingDir <-
    (if truthy (a_remote_working_dir args)
     then assertPath (a_remote_working_dir args) "remote_working_dir"
     else ret safeRemotePath) in
  try! safeMode <- assertDevSessionMode (orDefault (a_mode args) (JString "short")) in
  try! safeExclude <- assertStringArray (orDefault (a_exclude args) (JArray [])) "exclude" in
  try! safeMethod <- assertSyncMethod (orDefault (a_method args) (JString "auto")) in
  let safeDeleteRemoteExtra :=
    match orDefault (a_delete_remote_extra args) (JBool false) with
    | JBool b => b
    | _ => false
    end in
  try! safeDebounceMs <-
    assertPositiveInt (orDefault (a_debounce_ms args) (JNumber 800)) "debounce_ms" in
  try! safePollInterval <-
    assertPositiveInt (orDefault (a_poll_interval_seconds args) (JNumber 5))
      "poll_interval_seconds" in
  try! safeLogLines <-
    assertPositiveInt (orDefault (a_log_lines args) (JNumber 80)) "log_lines" in
  try! safeFollowSeconds <-
    match orDefault (a_follow_seconds args) (JNumber 1) with
    | JNumber n =>
        if (n <? 0) || (86400 <? n)
        then throw "follow_seconds must be an integer between 0 and 86400"
        else ret n
    | _ => throw "follow_seconds must be an integer between 0 and 86400"
    end in
  try! commands <-
    match safeMode with
    | ModeShort =>
        if truthy (a_short_command args) then
          try! c <- assertString (a_short_command args) "short_command" in
          ret (Some c, None)
        else throw "short mode requires short_command"
    | ModeLong =>
        if truthy (a_long_command args) then
          try! c <- assertString (a_long_command args) "long_command" in
          ret (None, Some c)
        else throw "long mode requires long_command"
    end in
  ret {| sessionId := createSessionId env safeSessionName;
         name := safeSessionName;
         server := safeServer;
         localPath := safeLocalPath;
         remotePath := safeRemotePath;
         remoteWorkingDir := safeRemoteWorkingDir;
         exclude := safeExclude;
         syncMethod := safeMethod;
         deleteRemoteExtra := safeDeleteRemoteExtra;
         mode := safeMode;
         shortCommand := fst commands;
         longCommand := snd commands;
         debounceMs := safeDebounceMs;
         pollIntervalSeconds := safePollInterval;
         logLines := safeLogLines;
         followSeconds := safeFollowSeconds;
         startedAt := nowMs (startClock env) |}.

(** The session literal of the handler. *)
Definition newSession (c : SessionSettings) : DevSession :=
  {| settings := c;
     watcher := false;
     debounceTimer := None;
     pollingTimer := false;
     running := false;
     pending := false;
     stopRequested := false;
     status := StatusRunning;
     lastSyncAt := None;
     lastRunAt := None;
     syncCount := 0;
     runCount := 0;
     changedPaths := ∅;
     lastError := None;
     lastOperation := Some "session created";
     pid := None;
     logFile := None;
     lastSyncResult := None;
     lastShortRun := None;
     lastProcessInfo := None;
     isProcessRunning := None |}.

(** The registry [devSessions]: each session with its suspended
    activations. *)
Abbreviation Registry := (gmap string World).

(** How the handler leaves its synchronous part: with the failure answer
    [{success: false, error}] of its [catch], or with a session created. *)
Inductive StartOutcome :=
| StartFailed (error : string)
| StartCreated (sessionId : string).

(** [case "dev_session_start"], from the call to the [await] of the first
    cycle (or to the failure answer): the registry after it, the actions
    issued, and the outcome. *)
Definition dev_session_start (env : StartEnv) (args : StartArgs) (devSessions : Registry)
  : Registry * list Action * StartOutcome :=
  match validateStart env args with
  | inl error => (devSessions, [], StartFailed error)
  | inr c =>
      let s0 := newSession c in
      match watchError env with
      | Some error =>
          (<[sessionId c := mkWorld (markSessionError error s0) []]> devSessions, [],
           StartCreated (sessionId c))
      | None =>
          let s1 := set_watcher true s0 in
          let s2 := match mode c with
                    | ModeLong => set_pollingTimer true s1
                    | ModeShort => s1
                    end in
          let '(w, acts) := runDevSessionCycle "session start" (mkWorld s2 []) in
          (<[sessionId c := w]> devSessions, acts, StartCreated (sessionId c))
      end
  end.

(** * Properties *)

(** ** Lists and strings *)

Section ListFacts.
Context {A : Type}.

Lemma find_first (f : A -> bool) (before : list A) (m : A) (after : list A) :
  Forall (fun x => f x = false) before -> f m = true ->
  List.find f (before ++ m :: after) = Some m.
Proof.
  intros Hb Hm. induction Hb as [|x l Hx _ IH]; simpl.
  - now rewrite Hm.
  - now rewrite Hx.
Qed.

Lemma find_absent (f : A -> bool) (l : list A) :
  Forall (fun x => f x = false) l -> List.find f l = None.
Proof.
  intros Hl. induction Hl as [|x l Hx _ IH]; simpl; [reflexivity|].
  now rewrite Hx.
Qed.

Lemma existsb_In (f : A -> bool) (l : list A) (x : A) :
  In x l -> f x = true -> existsb f l = true.
Proof. intros Hin Hf. apply existsb_exists. eauto. Qed.

Lemma forallb_In_false (f : A -> bool) (l : list A) (x : A) :
  In x l -> f x = false -> forallb f l = false.
Proof.
  intros Hin Hf. destruct (forallb f l) eqn:E; [|reflexivity].
  rewrite forallb_forall in E. rewrite (E x Hin) in Hf. discriminate.
Qed.
End ListFacts.

Lemma startsWith_dropChars (p s : string) :
  startsWith p s = true -> replaceFirst p "" s = dropChars (String.length p) s.
Proof. intros H. destruct s; simpl; now rewrite H. Qed.

(** ** The background-pid parser *)

(** A line that carries the marker followed by a positive integer, and a
    line of digits only with a positive value. *)
Definition isMarkerLine (line : string) : bool := startsWith PID_MARKER line.

Definition markerPid (line : string) : option Z :=
  if isMarkerLine line
  then positivePid (parseInt (dropChars (String.length PID_MARKER) line))
  else None.

Definition digitPid (line : string) : option Z :=
  if allDigits line then positivePid (parseInt line) else None.

Lemma lastDigitLine_cons (line : string) (rest : list string) :
  lastDigitLine (line :: rest) =
  match digitPid line with
  | Some p => Some p
  | None => lastDigitLine rest
  end.
Proof. unfold digitPid. simpl. destruct (allDigits line); reflexivity. Qed.

Lemma lastDigitLine_skip (l1 l2 : list string) :
  Forall (fun l => digitPid l = None) l1 ->
  lastDigitLine (l1 ++ l2) = lastDigitLine l2.
Proof.
  intros H. induction H as [|x l Hx _ IH]; [reflexivity|].
  change ((x :: l) ++ l2)%list with (x :: (l ++ l2))%list.
  now rewrite lastDigitLine_cons, Hx.
Qed.

Lemma lastDigitLine_last (pre : list string) (d : string) (post : list string) (p : Z) :
  digitPid d = Some p ->
  Forall (fun l => digitPid l = None) post ->
  lastDigitLine (rev (pre ++ d :: post)) = Some p.
Proof.
  intros Hd Hpost.
  rewrite rev_app_distr. simpl rev. rewrite <- app_assoc.
  rewrite lastDigitLine_skip.
  - simpl app. now rewrite lastDigitLine_cons, Hd.
  - apply List.Forall_forall. intros x Hx. rewrite <- in_rev in Hx.
    rewrite List.Forall_forall in Hpost. auto.
Qed.

Lemma lastDigitLine_none (lines : list string) :
  Forall (fun l => digitPid l = None) lines -> lastDigitLine (rev lines) = None.
Proof.
  intros H. rewrite <- (app_nil_r (rev lines)). rewrite lastDigitLine_skip; [reflexivity|].
  apply List.Forall_forall. intros x Hx. rewrite <- in_rev in Hx.
  rewrite List.Forall_forall in H. auto.
Qed.

(** The first marker line, if there is one, carries no positive integer. *)
Definition noUsableMarker (lines : list string) : Prop :=
  Forall (fun l => isMarkerLine l = false) lines \/
  exists before m after,
    lines = (before ++ m :: after)%list /\
    Forall (fun l => isMarkerLine l = false) before /\
    isMarkerLine m = true /\ markerPid m = None.

Lemma parseBackgroundPid_marker (rawOutput : string) (before : list string)
    (m : string) (after : list string) :
  outputLines rawOutput = (before ++ m :: after)%list ->
  Forall (fun l => isMarkerLine l = false) before ->
  isMarkerLine m = true ->
  parseBackgroundPid rawOutput =
  match markerPid m with
  | Some p => Some p
  | None => lastDigitLine (rev (outputLines rawOutput))
  end.
Proof.
  intros Hl Hb Hm. unfold parseBackgroundPid.
  pose proof (find_first (startsWith PID_MARKER) before m after Hb Hm) as Hfind.
  rewrite <- Hl in Hfind. rewrite Hfind.
  unfold markerPid. rewrite Hm.
  rewrite startsWith_dropChars by exact Hm. reflexivity.
Qed.

Lemma parseBackgroundPid_fallback (rawOutput : string) :
  noUsableMarker (outputLines rawOutput) ->
  parseBackgroundPid rawOutput = lastDigitLine (rev (outputLines rawOutput)).
Proof.
  intros [Hno | (before & m & after & Hl & Hb & Hm & Hp)].
  - unfold parseBackgroundPid.
    rewrite (find_absent (startsWith PID_MARKER) _ Hno). reflexivity.
  - rewrite (parseBackgroundPid_marker _ _ _ _ Hl Hb Hm). now rewrite Hp.
Qed.

Lemma positivePid_pos (o : option Z) (p : Z) : positivePid o = Some p -> 0 < p.
Proof.
  unfold positivePid. destruct o as [q|]; [|discriminate].
  destruct (0 <? q) eqn:Hq; [|discriminate].
  intros H. inversion H; subst. lia.
Qed.

(** Claim C5, as stated, fails: a later line carries the marker and the
    positive integer 4821, but the first marker line carries none, and
    the parser returns no id. *)
Lemma parseBackgroundPid_first_marker_only :
  let rawOutput := "__MCP_PID__" ++ NL ++ "__MCP_PID__4821" in
  In "__MCP_PID__4821" (outputLines rawOutput) /\
  markerPid "__MCP_PID__4821" = Some 4821 /\
  parseBackgroundPid rawOutput = None.
Proof. vm_compute. intuition. Qed.

(** Claim C5 (amended).  The parser is marker-first with a digit-line
    fallback, and the marker it reads is the first marker line: if the first
    trimmed non-empty line that starts with the marker is followed by a
    positive integer, that integer is the process id; if there is no marker
    line or the first one carries no positive integer, the id is that of the
    last line made of digits only with a positive value; and if there is no
    such line either, there is no id.  The integers are those below 2^53,
    which [parseInt] returns exactly; whether a line carries a positive
    integer at all does not depend on its size. *)
Theorem parseBackgroundPid_marker_first (rawOutput : string) :
  let lines := outputLines rawOutput in
  (forall before m after p,
      lines = (before ++ m :: after)%list ->
      Forall (fun l => isMarkerLine l = false) before ->
      markerPid m = Some p ->
      p < 2 ^ 53 ->
      parseBackgroundPid rawOutput = Some p /\ 0 < p) /\
  (forall pre d post p,
      noUsableMarker lines ->
      lines = (pre ++ d :: post)%list ->
      digitPid d = Some p ->
      p < 2 ^ 53 ->
      Forall (fun l => digitPid l = None) post ->
      parseBackgroundPid rawOutput = Some p /\ 0 < p) /\
  (noUsableMarker lines ->
   Forall (fun l => digitPid l = None) lines ->
   parseBackgroundPid rawOutput = None).
Proof.
  intros lines. split; [|split].
  - intros before m after p Hl Hb Hp _.
    assert (Hm : isMarkerLine m = true).
    { unfold markerPid in Hp. destruct (isMarkerLine m); [reflexivity|discriminate]. }
    split.
    + rewrite (parseBackgroundPid_marker _ _ _ _ Hl Hb Hm). now rewrite Hp.
    + unfold markerPid in Hp. rewrite Hm in Hp. eapply positivePid_pos; eassumption.
  - intros pre d post p Hno Hl Hd _ Hpost. split.
    + rewrite parseBackgroundPid_fallback by assumption. fold lines. rewrite Hl.
      now apply lastDigitLine_last.
    + unfold digitPid in Hd. destruct (allDigits d); [|discriminate].
      eapply positivePid_pos; eassumption.
  - intros Hno Hnd. rewrite parseBackgroundPid_fallback by assumption.
    now apply lastDigitLine_none.
Qed.

Lemma parseBackgroundPid_marker_first_witness :
  parseBackgroundPid ("Welcome to the host" ++ NL ++ "Last login: today" ++ NL
                        ++ "__MCP_PID__4821" ++ NL) = Some 4821 /\
  parseBackgroundPid ("Welcome to the host" ++ NL ++ "4821" ++ NL) = Some 4821.
Proof.
  split.
  - apply (proj1 (parseBackgroundPid_marker_first _)
             ["Welcome to the host"; "Last login: today"] "__MCP_PID__4821" [] 4821).
    + reflexivity.
    + repeat constructor.
    + reflexivity.
    + reflexivity.
  - apply (proj1 (proj2 (parseBackgroundPid_marker_first _))
             ["Welcome to the host"] "4821" [] 4821).
    + left. repeat constructor.
    + reflexivity.
    + reflexivity.
    + reflexivity.
    + constructor.
Defined.

(** ** The watch filter *)

(** A pattern with neither a wildcard nor a separator. *)
Definition isPlainPattern (pattern : string) : bool :=
  negb (includes "*" pattern) && negb (includes "/" pattern)
  && negb (existsb (Ascii.eqb backslash) (chars pattern)).

Lemma of_chars_chars (s : string) : of_chars (chars s) = s.
Proof. apply string_of_list_ascii_of_string. Qed.

Lemma chars_of_chars (l : list ascii) : chars (of_chars l) = l.
Proof. apply list_ascii_of_string_of_list_ascii. Qed.

Lemma normalizeWatchPath_plain (s : string) :
  existsb (Ascii.eqb backslash) (chars s) = false -> normalizeWatchPath s = s.
Proof.
  unfold normalizeWatchPath, replaceAllChar. intros H.
  rewrite <- (of_chars_chars s) at 2. f_equal.
  induction (chars s) as [|c l IH]; [reflexivity|].
  simpl in *. apply orb_false_elim in H as [Hc Hl].
  rewrite Hc. f_equal. auto.
Qed.

(** The three ways in which the filter does recognise a plain pattern: the
    whole path, a segment with a separator on both sides, the basename. *)
Lemma shouldIgnorePath_plain (relativePath pattern : string) (excludePatterns : list string) :
  In pattern excludePatterns ->
  isPlainPattern pattern = true ->
  let normalized := normalizeWatchPath relativePath in
  (normalized = pattern \/
   includes ("/" ++ pattern ++ "/") normalized = true \/
   basename normalized = pattern) ->
  shouldIgnorePath relativePath excludePatterns = true.
Proof.
  intros Hin Hplain normalized Hcase.
  unfold isPlainPattern in Hplain.
  apply andb_prop in Hplain as [Hplain Hbs]. apply andb_prop in Hplain as [Hstar Hsep].
  apply negb_true_iff in Hstar, Hsep, Hbs.
  unfold shouldIgnorePath. apply (existsb_In _ _ pattern Hin).
  unfold patternIgnores. rewrite (normalizeWatchPath_plain pattern Hbs).
  rewrite Hstar, Hsep. simpl. fold normalized.
  destruct Hcase as [H | [H | H]].
  - rewrite H, String.eqb_refl. reflexivity.
  - rewrite H. now rewrite orb_true_r.
  - rewrite H, String.eqb_refl. now rewrite !orb_true_r.
Qed.

(** Claim C4.  The claim does not hold of the filter: a changed path whose
    first segment is the plain pattern, here [node_modules/pkg/index.js]
    under the pattern [node_modules], is not the pattern itself, holds no
    [/node_modules/] with a separator on both sides, and has another
    basename; the filter does not ignore it. *)
Theorem shouldIgnorePath_first_segment_missed :
  isPlainPattern "node_modules" = true /\
  hd_error (split slash "node_modules/pkg/index.js") = Some "node_modules" /\
  shouldIgnorePath "node_modules/pkg/index.js" ["node_modules"] = false /\
  shouldIgnorePath "src/node_modules/pkg/index.js" ["node_modules"] = true /\
  shouldIgnorePath "src/node_modules" ["node_modules"] = true /\
  shouldIgnorePath "node_modules" ["node_modules"] = true.
Proof. repeat split. Qed.

(** ** The scp argument builder *)

Definition flattenPairs (pairs : list (string * string)) : list string :=
  flat_map (fun fv => [fst fv; snd fv]) pairs.

(** The scp spelling of an ssh option: only the port flag changes. *)
Definition scpOption (fv : string * string) : string * string :=
  (if String.eqb (fst fv) "-p" then "-P" else fst fv, snd fv).

Lemma scpOptionArgs_pairs (pairs : list (string * string)) :
  scpOptionArgs (flattenPairs pairs) = flattenPairs (map scpOption pairs).
Proof.
  induction pairs as [|[f v] l IH]; [reflexivity|].
  simpl. rewrite IH. destruct (String.eqb f "-p"); reflexivity.
Qed.

Definition isSshFlag (fv : string * string) : Prop :=
  fst fv = "-o" \/ fst fv = "-p" \/ fst fv = "-i".

Definition multiplexPairs : list (string * string) :=
  [ ("-o", "BatchMode=yes"); ("-o", "ConnectTimeout=10"); ("-o", "ControlMaster=auto");
    ("-o", "ControlPersist=300"); ("-o", "ControlPath=~/.ssh/remote-executor-%C") ].

Lemma pushPort_pairs (sc : ServerConfig) (pairs : list (string * string))
    (args : list string) :
  pushPort sc (flattenPairs pairs) = inr args ->
  exists more, args = flattenPairs (pairs ++ more)%list /\ Forall isSshFlag more.
Proof.
  unfold pushPort, bindT, ret. intros H.
  assert (Hnone : exists more : list (string * string),
             flattenPairs pairs = flattenPairs (pairs ++ more)%list /\ Forall isSshFlag more).
  { exists []. rewrite app_nil_r. split; [reflexivity|constructor]. }
  destruct (port sc); simpl in H; try discriminate;
    try (inversion H; subst; exact Hnone).
  destruct (0 <? n); [|discriminate]. inversion H; subst.
  exists [("-p", ofZ n)]. split.
  - unfold flattenPairs. now rewrite flat_map_app.
  - constructor; [right; left; reflexivity|constructor].
Qed.

Lemma pushIdentityFile_pairs (sc : ServerConfig) (pairs : list (string * string))
    (args : list string) :
  pushIdentityFile sc (flattenPairs pairs) = inr args ->
  exists more, args = flattenPairs (pairs ++ more)%list /\ Forall isSshFlag more.
Proof.
  unfold pushIdentityFile, bindT, ret. intros H.
  destruct (truthy (identity_file sc)).
  - destruct (assertPath _ _) as [e|idf]; [discriminate|]. inversion H; subst.
    exists [("-i", idf)]. split.
    + unfold flattenPairs. now rewrite flat_map_app.
    + constructor; [right; right; reflexivity|constructor].
  - inversion H; subst. exists []. rewrite app_nil_r. split; [reflexivity|constructor].
Qed.

(** The ssh base arguments are option pairs: the five multiplexing
    settings, then the port if configured, then the identity file if
    configured. *)
Lemma sshBaseArgs_paired (server : string) (config : Config)
    (args : list string) (target : string) :
  buildSSHBaseArgs server config = inr (args, target) ->
  exists pairs,
    args = flattenPairs (multiplexPairs ++ pairs)%list /\
    Forall isSshFlag pairs.
Proof.
  unfold buildSSHBaseArgs, bindT, ret, throw.
  destruct (assertServerName _ _) as [e|serverName]; [discriminate|].
  destruct (serverEntry config serverName) as [sc|].
  2:{ intros H. inversion H; subst. exists []. split; [reflexivity|constructor]. }
  change sshMultiplexArgs with (flattenPairs multiplexPairs).
  destruct (pushPort sc _) as [e|args1] eqn:E1; [discriminate|].
  apply pushPort_pairs in E1 as (ps1 & -> & Hps1).
  destruct (pushIdentityFile sc _) as [e|args2] eqn:E2; [discriminate|].
  apply pushIdentityFile_pairs in E2 as (ps2 & -> & Hps2).
  destruct (assertString (user sc) _) as [e|u0]; [discriminate|].
  destruct (assertNoControlChars u0 _) as [e|u]; [discriminate|].
  destruct (assertString (host sc) _) as [e|h0]; [discriminate|].
  destruct (assertNoControlChars h0 _) as [e|h]; [discriminate|].
  intros H. inversion H; subst.
  exists (ps1 ++ ps2)%list. split.
  - now rewrite app_assoc.
  - apply Forall_app. split; assumption.
Qed.

(** Claim C10.  Whenever the ssh base arguments of a server are built, they
    are a list of option pairs with flags [-o], [-p], [-i]; the scp
    arguments are [-r], then the same pairs in the same order with the flag
    [-p] alone respelt [-P] and every value kept, then the paths, the remote
    one on the same target. *)
Theorem buildSCPArgs_mirrors_ssh (server : string) (config : Config)
    (args : list string) (target : string)
    (direction : Direction) (localPath : LocalPath) (remotePath : string) :
  buildSSHBaseArgs server config = inr (args, target) ->
  exists pairs,
    args = flattenPairs pairs /\
    Forall isSshFlag pairs /\
    (let options := ("-r" :: flattenPairs (map scpOption pairs))%list in
     let remoteSpec := target ++ ":" ++ remotePath in
     buildSCPArgs server config direction localPath remotePath =
       match direction, localPath with
       | Upload, OnePath p => inr (options ++ [p; remoteSpec])%list
       | Upload, ManyPaths ps => inr (options ++ ps ++ [remoteSpec])%list
       | Download, OnePath p => inr (options ++ [remoteSpec; p])%list
       | Download, ManyPaths _ => inl "download direction expects a single local path"
       end) /\
    Forall (fun fv => fst fv <> "-p" -> scpOption fv = fv) pairs /\
    Forall (fun fv => fst fv = "-p" -> scpOption fv = ("-P", snd fv)) pairs.
Proof.
  intros H. destruct (sshBaseArgs_paired _ _ _ _ H) as (ps & Hargs & Hps).
  exists (multiplexPairs ++ ps)%list. split; [exact Hargs|]. split.
  { apply Forall_app. split; [|exact Hps].
    repeat (apply List.Forall_cons; [left; reflexivity|]). apply List.Forall_nil. }
  split.
  { unfold buildSCPArgs, bindT. rewrite H. rewrite Hargs.
    rewrite scpOptionArgs_pairs. destruct direction, localPath; reflexivity. }
  split; apply List.Forall_forall; intros [f v] _ Hf; unfold scpOption; simpl in *.
  - destruct (String.eqb_spec f "-p"); [contradiction|reflexivity].
  - subst. reflexivity.
Qed.

Definition demoConfig : Config :=
  mkConfig {[ "gpu" := mkServerConfig (JString "10.0.0.7") (JString "alice")
                         (JNumber 2222) (JString "/home/alice/.ssh/id_ed25519") ]}.

Lemma buildSCPArgs_mirrors_ssh_witness :
  exists pairs,
    In ("-p", "2222") pairs /\
    buildSCPArgs "gpu" demoConfig Upload (ManyPaths ["src"; "README.md"]) "/srv/app" =
      inr ("-r" :: flattenPairs (map scpOption pairs)
             ++ ["src"; "README.md"; "alice@10.0.0.7:/srv/app"])%list.
Proof.
  destruct (buildSCPArgs_mirrors_ssh "gpu" demoConfig
              (sshMultiplexArgs ++ ["-p"; "2222"; "-i"; "/home/alice/.ssh/id_ed25519"])%list
              "alice@10.0.0.7" Upload (ManyPaths ["src"; "README.md"]) "/srv/app")
    as (pairs & Hargs & _ & Hscp & _ & _).
  - vm_compute. reflexivity.
  - exists pairs. split; [|exact Hscp].
    clear Hscp.
    repeat (destruct pairs as [|[? ?] pairs]; [discriminate Hargs|]).
    simpl in Hargs. inversion Hargs; subst. simpl. tauto.
Defined.

(** ** Validation of [dev_session_start] *)

Lemma SAFE_SERVER_RE_unsafe (s : string) (c : ascii) :
  In c (chars s) -> isSafeNameChar c = false -> SAFE_SERVER_RE s = false.
Proof.
  unfold SAFE_SERVER_RE. intros Hin Hc.
  destruct (chars s) as [|a l] eqn:E; [reflexivity|].
  eapply forallb_In_false; eassumption.
Qed.

Lemma assertSessionName_rejects (s : string) (c : ascii) :
  In c (chars s) -> isSafeNameChar c = false ->
  exists error, assertSessionName (JString s) = inl error.
Proof.
  intros Hin Hc. unfold assertSessionName, assertString, assertNoControlChars, bindT, throw, ret.
  destruct (String.eqb (trim s) ""); [eauto|].
  destruct (existsb isControlChar (chars s)); [eauto|].
  rewrite (SAFE_SERVER_RE_unsafe s c Hin Hc). eauto.
Qed.

(** Claim C7.  A [dev_session_start] call whose [session_name] holds a
    character outside letters, digits, [.], [_] and [-] ends with the
    failure answer; the registry, and so every session in it, is what it was
    before the call, and no sync and no remote command has been issued. *)
Theorem dev_session_start_validates_first (env : StartEnv) (args : StartArgs)
    (devSessions : gmap string World) (sessionName : string) (c : ascii) :
  a_session_name args = JString sessionName ->
  In c (chars sessionName) ->
  isSafeNameChar c = false ->
  exists error,
    dev_session_start env args devSessions = (devSessions, [], StartFailed error).
Proof.
  intros Hname Hin Hc.
  destruct (assertSessionName_rejects sessionName c Hin Hc) as [error Herr].
  exists error. unfold dev_session_start, validateStart.
  rewrite Hname. simpl orDefault. rewrite Herr. reflexivity.
Qed.

Definition demoStartEnv : StartEnv :=
  mkStartEnv (mkClock 1700000000000 "2023-11-14T22:13:20.000Z") "lp2k3f0g" "x7k2qa" None.

Definition demoStartArgs (sessionName : JsValue) : StartArgs :=
  {| a_session_name := sessionName;
     a_server := JString "gpu";
     a_local_path := JString "/work/app";
     a_remote_path := JString "/srv/app";
     a_remote_working_dir := JUndefined;
     a_mode := JUndefined;
     a_short_command := JString "echo hi";
     a_long_command := JUndefined;
     a_exclude := JArray [JString "node_modules"; JString "*.log"];
     a_method := JUndefined;
     a_delete_remote_extra := JUndefined;
     a_debounce_ms := JUndefined;
     a_poll_interval_seconds := JUndefined;
     a_log_lines := JUndefined;
     a_follow_seconds := JUndefined |}.

Lemma dev_session_start_validates_first_witness :
  exists error,
    dev_session_start demoStartEnv (demoStartArgs (JString "my session")) ∅ =
      (∅, [], StartFailed error).
Proof.
  apply (dev_session_start_validates_first demoStartEnv
           (demoStartArgs (JString "my session")) ∅ "my session" " ").
  - reflexivity.
  - simpl. right. right. left. reflexivity.
  - reflexivity.
Defined.

(** ** The sync engine *)

Definition isPathOk (p : string) : bool :=
  nonEmpty (trim p) && negb (existsb isControlChar (chars p)).

Lemma assertPath_ok (p field : string) :
  isPathOk p = true -> assertPath (JString p) field = inr p.
Proof.
  unfold isPathOk, nonEmpty, assertPath, assertString, assertNoControlChars, bindT, ret.
  intros H. apply andb_prop in H as [H1 H2].
  apply negb_true_iff in H1, H2. now rewrite H1, H2.
Qed.

Lemma assertStringItems_ok (ex : list string) (field : string) (idx : nat) :
  forallb isPathOk ex = true ->
  assertStringItems (map JString ex) field idx = inr ex.
Proof.
  revert idx. induction ex as [|p ex IH]; intros idx H; [reflexivity|].
  simpl in H. apply andb_prop in H as [Hp Hex].
  simpl. unfold isPathOk, nonEmpty in Hp. apply andb_prop in Hp as [H1 H2].
  apply negb_true_iff in H1, H2.
  unfold assertString, assertNoControlChars, bindT, ret. rewrite H1, H2.
  fold (@bindT (list string) (list string)). rewrite (IH (S idx) Hex). reflexivity.
Qed.

Lemma assertServerName_same (s field s' : string) :
  assertServerName (JString s) field = inr s' -> s' = s.
Proof.
  unfold assertServerName, assertString, assertNoControlChars, bindT, ret, throw.
  destruct (String.eqb (trim s) ""); [discriminate|].
  destruct (existsb isControlChar (chars s)); [discriminate|].
  destruct (SAFE_SERVER_RE s); [|discriminate].
  intros H. now inversion H.
Qed.

Lemma buildSSHBaseArgs_server (server : string) (config : Config)
    (base : list string * string) :
  buildSSHBaseArgs server config = inr base ->
  assertServerName (JString server) "server" = inr server.
Proof.
  unfold buildSSHBaseArgs, bindT.
  destruct (assertServerName (JString server) "server") as [e|s] eqn:E; [discriminate|].
  intros _. now rewrite (assertServerName_same _ _ _ E).
Qed.

Lemma bindM_lift {A B} (a : A) (k : A -> Traced B) :
  bindM (lift (inr a)) k = k a.
Proof. unfold bindM, lift. now destruct (k a). Qed.

Lemma bindM_await {B} (rt : Runtime) (program : string) (args : list string)
    (timeoutMs : Z) (k : ExecResult -> Traced B) :
  bindM (awaitCommand rt program args timeoutMs) k =
  (mkCall program args timeoutMs :: fst (k (exec rt program args timeoutMs)),
   snd (k (exec rt program args timeoutMs))).
Proof. unfold bindM, awaitCommand. now destruct (k _). Qed.

Section SyncEngine.
Variable rt : Runtime.
Variable config : Config.
Variables (server : string) (args : list string) (target : string).
Hypothesis Hbase : buildSSHBaseArgs server config = inr (args, target).

Definition mkdirCall (localPath remotePath : string) : Call :=
  mkCall "ssh"
    (args ++ [target;
              ("mkdir -p " ++ shellQuote
                 (resolveScpUploadRemoteMkdirPath rt localPath remotePath))%string])%list
    30000.

(** The fallback upload first creates the remote directory, then runs
    [scp] unless there is nothing to copy; it does not throw. *)
Lemma scpUpload_returns (localPath remotePath : string) :
  exists rest result,
    scpUpload rt config server localPath remotePath =
      (mkdirCall localPath remotePath :: rest, inr result) /\
    (rest = [] \/ exists scpArgs, rest = [mkCall "scp" scpArgs 600000]).
Proof.
  unfold scpUpload, executeRemoteCommand, buildSSHArgs, lift, bindM, bindT, awaitCommand.
  rewrite Hbase. simpl.
  destruct (resolveScpUploadLocalSources rt localPath) as [|p ps] eqn:E.
  - exists [], (mkExecResult "" "" 0). split; [reflexivity|]. now left.
  - unfold buildSCPArgs, bindT. rewrite Hbase. simpl.
    eexists _, _. split; [reflexivity|]. right. eauto.
Qed.



Definition rsyncCall (params : SyncParams) : Call :=
  mkCall "rsync"
    (rsyncArguments (shellQuoteArgs ("ssh" :: args))
       (default false (p_delete_remote_extra params))
       (default [] (p_exclude params))
       (resolveRsyncSourcePath rt (p_local_path params))
       (target ++ ":" ++ shellQuote (p_remote_path params)))
    600000.

Definition rsyncOutcome (params : SyncParams) : ExecResult :=
  exec rt (callProgram (rsyncCall params)) (callArgs (rsyncCall params))
    (callTimeout (rsyncCall params)).

Definition wellFormedParams (params : SyncParams) : Prop :=
  p_server params = server /\
  isPathOk (p_local_path params) = true /\
  isPathOk (p_remote_path params) = true /\
  forallb isPathOk (default [] (p_exclude params)) = true.


End SyncEngine.


Definition demoRuntime (rsyncResult : ExecResult) : Runtime :=
  {| statSync := fun _ => Some IsDirectory;
     readdirSync := fun _ => Some ["main.py"; "README.md"];
     pathJoin := fun dir entry => dir ++ "/" ++ entry;
     posixDirname := fun p => p;
     exec := fun program _ _ =>
               if String.eqb program "rsync" then rsyncResult
               else mkExecResult "" "" 0 |}.



(** ** The command executor *)

Definition isData (ev : ProcEvent) : Prop :=
  match ev with
  | StdoutData _ | StderrData _ => True
  | ProcClose _ | ProcError _ => False
  end.

(** What the two pipes have delivered, appended to what was there. *)
Definition capturedOut (acc : string) (events : list ProcEvent) : string :=
  fold_left (fun a ev => match ev with StdoutData d => a ++ d | _ => a end) events acc.

Definition capturedErr (acc : string) (events : list ProcEvent) : string :=
  fold_left (fun a ev => match ev with StderrData d => a ++ d | _ => a end) events acc.

Lemma onProcEvent_data (events : list ProcEvent) (o e : string) :
  Forall isData events ->
  fold_left onProcEvent events (mkExecState o e Pending) =
  mkExecState (capturedOut o events) (capturedErr e events) Pending.
Proof.
  intros H. revert o e.
  induction H as [|ev evs Hev _ IH]; intros o e; [reflexivity|].
  destruct ev; simpl in Hev; try contradiction; simpl; apply IH.
Qed.

Lemma onProcEvent_settled (events : list ProcEvent) (o e : string) (v : ExecResult) :
  promise (fold_left onProcEvent events (mkExecState o e (Resolved v))) = Resolved v.
Proof.
  revert o e. induction events as [|ev evs IH]; intros o e; [reflexivity|].
  destruct ev; simpl; apply IH.
Qed.

Lemma onProcEvent_not_rejected (events : list ProcEvent) (st : ExecState) (reason : string) :
  (forall r, promise st <> Rejected r) ->
  promise (fold_left onProcEvent events st) <> Rejected reason.
Proof.
  revert st. induction events as [|ev evs IH]; intros st Hst; [apply Hst|].
  simpl. apply IH. intros r.
  destruct ev; simpl; try apply Hst;
    unfold resolve; destruct (promise st) eqn:E; simpl;
    try discriminate; rewrite ?E; try discriminate; apply Hst.
Qed.

(** Claim C6.  The executor calls [spawn] inside the promise's executor and
    catches nothing, so when [spawn] refuses its arguments the promise is
    rejected.  The [remote_execute] tool reaches it: its command is any
    non-blank string, and with a null byte in it the call of
    [executeCommand] made for the server [gpu] is rejected. *)
Theorem executeCommand_rejects_on_null_byte :
  let command := "ls" ++ NUL in
  let sshArgs := (sshMultiplexArgs
                    ++ ["-p"; "2222"; "-i"; "/home/alice/.ssh/id_ed25519";
                        "alice@10.0.0.7"; command])%list in
  let spawn := nodeSpawn (fun _ _ => [ProcClose (Some 0)]) in
  assertString (JString command) "command" = inr command /\
  buildSSHArgs "gpu" demoConfig command = inr sshArgs /\
  executeCommand spawn "ssh" sshArgs 300000 None
    = Rejected "The argument 'args' must be a string without null bytes." /\
  remote_execute spawn demoConfig (JString "gpu") (JString command) JUndefined None
    = inr (Rejected "The argument 'args' must be a string without null bytes.").
Proof. vm_compute. repeat split. Qed.

(** Property X19.  Whenever [spawn] returns a child process, the promise
    of [executeCommand] is never rejected: it is
    pending while only data arrives, it resolves at the first close with the
    captured output, trimmed, and the exit code (or -1 without one), and at
    a first error with exit code -1, the failure message as stderr and an
    empty stdout.  When [spawn] throws instead, the promise is rejected with
    its message. *)
Theorem executeCommand_resolves (spawn : Spawn) (program : string) (args : list string)
    (timeoutMs : Z) (cwd : option string) :
  let outcome := executeCommand spawn program args timeoutMs cwd in
  match spawn program args timeoutMs cwd with
  | SpawnThrows message => outcome = Rejected message
  | Spawned events =>
      (forall reason, outcome <> Rejected reason) /\
      (forall data code rest,
          events = (data ++ ProcClose code :: rest)%list -> Forall isData data ->
          outcome = Resolved (mkExecResult (trim (capturedOut "" data))
                                (trim (capturedErr "" data)) (default (-1) code))) /\
      (forall data message rest,
          events = (data ++ ProcError message :: rest)%list -> Forall isData data ->
          outcome = Resolved (mkExecResult "" message (-1))) /\
      (Forall isData events -> outcome = Pending)
  end.
Proof.
  cbv zeta. unfold executeCommand.
  destruct (spawn program args timeoutMs cwd) as [message|events]; [reflexivity|].
  split; [|split; [|split]].
  - intros reason. apply onProcEvent_not_rejected. intros r. discriminate.
  - intros data code rest -> Hdata.
    rewrite fold_left_app, (onProcEvent_data _ _ _ Hdata). simpl.
    apply onProcEvent_settled.
  - intros data message rest -> Hdata.
    rewrite fold_left_app, (onProcEvent_data _ _ _ Hdata). simpl.
    apply onProcEvent_settled.
  - intros Hdata. now rewrite (onProcEvent_data _ _ _ Hdata).
Qed.

Lemma executeCommand_resolves_witness :
  executeCommand
    (nodeSpawn (fun _ _ => [StdoutData "  hi"; StderrData "warn "; StdoutData " there ";
                            ProcClose None; ProcError "late"]))
    "ssh" ["gpu"; "echo hi there"] 300000 None =
  Resolved (mkExecResult "hi there" "warn" (-1)).
Proof.
  apply (proj1 (proj2 (executeCommand_resolves
           (nodeSpawn (fun _ _ => [StdoutData "  hi"; StderrData "warn "; StdoutData " there ";
                                   ProcClose None; ProcError "late"]))
           "ssh" ["gpu"; "echo hi there"] 300000 None))
         [StdoutData "  hi"; StderrData "warn "; StdoutData " there "] None
         [ProcError "late"]).
  - reflexivity.
  - repeat constructor.
Defined.

(** ** The cycle orchestrator *)

Ltac unfold_cycle :=
  unfold afterSync, afterShortRun, afterProcessCheck, afterLongStart,
    maybeStartLongTask, launchLongTask, endIteration, beginIteration,
    failCycle, markSessionError in *.

Ltac break_ifs :=
  repeat match goal with
         | |- context [if ?b then _ else _] => destruct b eqn:?
         | |- context [match ?x with _ => _ end] => destruct x eqn:?
         end.

(** Claim C9 (amended).  When the sync of an iteration returns a result,
    the sync counter is incremented, [lastSyncAt] and [lastSyncResult] are
    set and the set of changed paths is emptied, whatever the result says;
    if the result is a failure the cycle then ends in error with nothing
    run, and the set of changed paths is empty.  When the sync call throws
    instead of returning, the iteration records nothing: the counter, the
    time, the last result and the set of changed paths stay as they were,
    and the cycle ends in error with the message thrown. *)
Theorem sync_bookkeeping_before_success_test (w : World) (i : nat) (reason : string)
    (result : SyncExecutionResult) (clock : Clock) :
  cycles w !! i = Some (AwaitSync reason) ->
  let w' := fst (step w (SyncResolved i result clock)) in
  let acts := snd (step w (SyncResolved i result clock)) in
  (syncCount (session w') = syncCount (session w) + 1 /\
   lastSyncAt (session w') = Some (nowMs clock) /\
   lastSyncResult (session w') = Some result /\
   changedPaths (session w') = ∅ /\
   (success result = false ->
      acts = [] /\
      cycles w' = delete i (cycles w) /\
      running (session w') = false /\
      status (session w') = StatusError /\
      lastError (session w') =
        Some (orElse (sync_stderr result)
                ("sync failed with exit code " ++ ofZ (exit_code result))) /\
      changedPaths (session w') = ∅)) /\
  (forall message,
      let thrown := fst (step w (AwaitThrew i message)) in
      syncCount (session thrown) = syncCount (session w) /\
      lastSyncAt (session thrown) = lastSyncAt (session w) /\
      lastSyncResult (session thrown) = lastSyncResult (session w) /\
      changedPaths (session thrown) = changedPaths (session w) /\
      snd (step w (AwaitThrew i message)) = [] /\
      cycles thrown = delete i (cycles w) /\
      running (session thrown) = false /\
      status (session thrown) = StatusError /\
      lastError (session thrown) = Some message).
Proof.
  intros Hk. cbv zeta. unfold step. rewrite Hk.
  destruct w as [s ks]. simpl session. simpl cycles.
  destruct s as [c ? ? ? ? ? ? ? ? ? ? ? ? ? ? ? ? ? ? ? ?].
  split.
  - destruct (success result) eqn:Hsucc.
    + unfold settle. unfold_cycle. simpl. rewrite Hsucc. simpl.
      break_ifs; simpl; repeat split; intros; discriminate.
    + unfold settle. unfold_cycle. simpl. rewrite Hsucc. simpl.
      repeat split.
  - intros message. unfold settle. unfold_cycle. simpl. repeat split.
Qed.

Definition demoSettings (m : DevSessionMode) : SessionSettings :=
  {| sessionId := "dev-session-lp2k3f0g-x7k2qa";
     name := "dev-session";
     server := "gpu";
     localPath := "/work/app";
     remotePath := "/srv/app";
     remoteWorkingDir := "/srv/app";
     exclude := ["node_modules"; "*.log"];
     syncMethod := MethodAuto;
     deleteRemoteExtra := false;
     mode := m;
     shortCommand := match m with ModeShort => Some "make test" | ModeLong => None end;
     longCommand := match m with ModeLong => Some "python train.py" | ModeShort => None end;
     debounceMs := 800;
     pollIntervalSeconds := 5;
     logLines := 80;
     followSeconds := 1;
     startedAt := 1700000000000 |}.

Definition demoClock : Clock := mkClock 1700000005000 "2023-11-14T22:13:25.000Z".

Definition syncFailed : SyncExecutionResult :=
  mkSyncResult false UsedRsync 23 "" "rsync: connection unexpectedly closed"
    ["node_modules"; "*.log"] false false None.

Definition syncOk : SyncExecutionResult :=
  mkSyncResult true UsedRsync 0 "sent 1.2K bytes" ""
    ["node_modules"; "*.log"] false false None.

(** A session whose first cycle waits for its sync, two files having changed
    meanwhile. *)
Definition demoSyncing (m : DevSessionMode) : World :=
  fst (run (mkWorld (newSession (demoSettings m)) [])
         [Trigger "session start"; WatchEvent (Some "src/main.py");
          WatchEvent (Some "src/util.py")]).

Lemma sync_bookkeeping_before_success_test_witness :
  let w' := fst (step (demoSyncing ModeShort) (SyncResolved 0 syncFailed demoClock)) in
  size (changedPaths (session (demoSyncing ModeShort))) = 2%nat /\
  syncCount (session w') = 1 /\
  changedPaths (session w') = ∅ /\
  cycles w' = [].
Proof.
  pose proof (sync_bookkeeping_before_success_test (demoSyncing ModeShort) 0
                "session start" syncFailed demoClock eq_refl) as H.
  cbv zeta in H. destruct H as ((Hc & _ & _ & Hp & Hfail) & _).
  destruct (Hfail eq_refl) as (_ & Hk & _).
  split; [vm_compute; reflexivity|].
  split; [exact Hc|]. split; [exact Hp|exact Hk].
Defined.

(** A configuration whose entry for the server lacks its user. *)
Definition demoConfigNoUser : Config :=
  mkConfig {[ "gpu" := mkServerConfig (JString "10.0.0.7") JUndefined
                         JUndefined JUndefined ]}.

(** Claim C9, as stated, fails: under a configuration whose server entry
    has no user the sync of the session throws before it runs anything.
    The first cycle fails so; two files then change, the debounce timer
    fires and a second cycle begins, whose sync throws again.  Neither
    iteration counts a sync, and the two paths that had changed are still
    in the set after the failed cycle. *)
Lemma sync_throw_keeps_changed_paths :
  let message := "user must be a non-empty string" in
  let w := mkWorld (newSession (demoSettings ModeShort)) [] in
  let es := [Trigger "session start"; AwaitThrew 0 message;
             WatchEvent (Some "src/main.py"); WatchEvent (Some "src/util.py");
             DebounceFired; AwaitThrew 0 message] in
  let final := fst (run w es) in
  performRemoteSync (demoRuntime (mkExecResult "" "" 0)) demoConfigNoUser
    (syncParamsOf (session w)) = ([], inl message) /\
  cyclesBegun (snd (run w es)) = 2%nat /\
  syncCount (session final) = 0 /\
  lastSyncAt (session final) = None /\
  changedPaths (session final) = {[ "src/main.py"; "src/util.py" ]} /\
  changedPaths (session final) <> ∅ /\
  status (session final) = StatusError /\ cycles final = [].
Proof.
  cbv zeta.
  set (final := fst (run _ _)).
  assert (Hpaths : changedPaths (session final) = {[ "src/main.py"; "src/util.py" ]}).
  { change (changedPaths (session final))
      with ({[ "src/util.py" ]} ∪ ({[ "src/main.py" ]} ∪ (∅ : gset string))).
    set_solver. }
  split; [vm_compute; reflexivity|].
  split; [reflexivity|]. split; [reflexivity|]. split; [reflexivity|].
  split; [exact Hpaths|]. split; [|split; reflexivity].
  rewrite Hpaths. intros H.
  assert (Hin : "src/main.py" ∈ ({[ "src/main.py"; "src/util.py" ]} : gset string))
    by set_solver.
  rewrite H in Hin. set_solver.
Qed.

(** *** The long task is started only when none is known to live *)

Definition launches (out : DevSession * option Cont * list Action) : bool :=
  existsb isLongStart (snd out).

Definition outSession (out : DevSession * option Cont * list Action) : DevSession :=
  fst (fst out).


Lemma endIteration_no_launch (reason : string) (s : DevSession) :
  launches (endIteration reason s) = false /\
  pid (outSession (endIteration reason s)) = pid s /\
  logFile (outSession (endIteration reason s)) = logFile s /\
  isProcessRunning (outSession (endIteration reason s)) = isProcessRunning s.
Proof.
  destruct s as [c ? ? ? ? ? ? ? ? ? ? ? ? ? ? ? ? ? ? ? ?].
  unfold launches, outSession. unfold_cycle. simpl. break_ifs; simpl; auto.
Qed.

Lemma failCycle_no_launch (message : string) (s : DevSession) :
  launches (failCycle message s) = false /\
  pid (outSession (failCycle message s)) = pid s /\
  logFile (outSession (failCycle message s)) = logFile s.
Proof.
  destruct s as [c ? ? ? ? ? ? ? ? ? ? ? ? ? ? ? ? ? ? ? ?].
  unfold launches, outSession. unfold_cycle. simpl. auto.
Qed.

Lemma afterSync_launch (reason : string) (result : SyncExecutionResult) (clock : Clock)
    (s : DevSession) :
  pid (outSession (afterSync reason result clock s)) = pid s /\
  logFile (outSession (afterSync reason result clock s)) = logFile s /\
  (launches (afterSync reason result clock s) = true -> truthyNumber (pid s) = false).
Proof.
  destruct s as [c ? ? ? ? ? ? ? ? ? ? ? ? ? ? ? ? ? ? ? ?].
  unfold launches, outSession. unfold_cycle. simpl.
  break_ifs; simpl; repeat split; auto; intros; try discriminate.
Qed.

Lemma afterShortRun_no_launch (reason : string) (r : ExecResult) (clock : Clock)
    (s : DevSession) :
  launches (afterShortRun reason r clock s) = false /\
  pid (outSession (afterShortRun reason r clock s)) = pid s /\
  logFile (outSession (afterShortRun reason r clock s)) = logFile s.
Proof.
  destruct s as [c ? ? ? ? ? ? ? ? ? ? ? ? ? ? ? ? ? ? ? ?].
  unfold launches, outSession. unfold_cycle. simpl.
  break_ifs; simpl; repeat split; auto.
Qed.

Lemma afterProcessCheck_launch (reason : string) (r : ExecResult) (clock : Clock)
    (s : DevSession) :
  pid (outSession (afterProcessCheck reason r clock s)) = pid s /\
  logFile (outSession (afterProcessCheck reason r clock s)) = logFile s /\
  isProcessRunning (outSession (afterProcessCheck reason r clock s))
    = Some (processAlive r) /\
  launches (afterProcessCheck reason r clock s) = negb (processAlive r).
Proof.
  destruct s as [c ? ? ? ? ? ? ? ? ? ? ? ? ? ? ? ? ? ? ? ?].
  unfold launches, outSession. unfold_cycle. simpl.
  destruct (processAlive r); simpl; [|auto].
  break_ifs; simpl; repeat split; auto.
Qed.

Lemma afterLongStart_pid (reason logf : string) (r : ExecResult) (clock : Clock)
    (s : DevSession) :
  launches (afterLongStart reason logf r clock s) = false /\
  ((pid (outSession (afterLongStart reason logf r clock s)) = pid s /\
    logFile (outSession (afterLongStart reason logf r clock s)) = logFile s) \/
   (exists p, parseBackgroundPid (stdout r) = Some p /\ exitCode r = 0 /\
              pid (outSession (afterLongStart reason logf r clock s)) = Some p /\
              logFile (outSession (afterLongStart reason logf r clock s)) = Some logf)).
Proof.
  destruct s as [c ? ? ? ? ? ? ? ? ? ? ? ? ? ? ? ? ? ? ? ?].
  unfold launches, outSession. unfold_cycle. simpl.
  destruct (parseBackgroundPid (stdout r)) as [p|] eqn:Ep; simpl; [|auto].
  destruct (Z.eqb_spec (exitCode r) 0) as [E|E]; simpl; [|auto].
  break_ifs; simpl; split; auto; right; exists p; auto.
Qed.

Lemma settle_session (w : World) (i : nat) (out : DevSession * option Cont * list Action) :
  session (fst (settle w i out)) = outSession out /\ snd (settle w i out) = snd out.
Proof. destruct out as [[s k] acts]. auto. Qed.

Lemma runDevSessionCycle_no_launch (reason : string) (w : World) :
  existsb isLongStart (snd (runDevSessionCycle reason w)) = false /\
  pid (session (fst (runDevSessionCycle reason w))) = pid (session w) /\
  logFile (session (fst (runDevSessionCycle reason w))) = logFile (session w).
Proof.
  destruct w as [s ks]. destruct s as [c ? ? ? ? ? ? ? ? ? ? ? ? ? ? ? ? ? ? ? ?].
  unfold runDevSessionCycle. unfold_cycle. simpl. break_ifs; simpl; auto.
Qed.




(** *** Frames of the transitions *)

Definition nextCont (out : DevSession * option Cont * list Action) : option Cont :=
  snd (fst out).

(** What every resumption of the cycle leaves alone: the stop flag and the
    debounce timer; [running] changes only when the activation ends, and
    then to [false]; and after a stop no sync is begun. *)
Definition framed (s : DevSession) (out : DevSession * option Cont * list Action) : Prop :=
  stopRequested (outSession out) = stopRequested s /\
  debounceTimer (outSession out) = debounceTimer s /\
  match nextCont out with
  | Some _ => running (outSession out) = running s
  | None => running (outSession out) = false
  end /\
  (stopRequested s = true -> cyclesBegun (snd out) = 0%nat).

Ltac frame_by_cases s :=
  destruct s as [c ? ? ? ? ? ? ? ? ? ? ? ? ? ? ? ? ? ? ? ?];
  unfold framed, outSession, nextCont, cyclesBegun; unfold_cycle; simpl;
  break_ifs; simpl in *; repeat split; auto; intros; subst; simpl in *;
  rewrite ?andb_false_r in *; congruence.

Lemma afterSync_framed (reason : string) (r : SyncExecutionResult) (clock : Clock)
    (s : DevSession) : framed s (afterSync reason r clock s).
Proof. frame_by_cases s. Qed.

Lemma afterShortRun_framed (reason : string) (r : ExecResult) (clock : Clock)
    (s : DevSession) : framed s (afterShortRun reason r clock s).
Proof. frame_by_cases s. Qed.

Lemma afterProcessCheck_framed (reason : string) (r : ExecResult) (clock : Clock)
    (s : DevSession) : framed s (afterProcessCheck reason r clock s).
Proof. frame_by_cases s. Qed.

Lemma afterLongStart_framed (reason logf : string) (r : ExecResult) (clock : Clock)
    (s : DevSession) : framed s (afterLongStart reason logf r clock s).
Proof. frame_by_cases s. Qed.

Lemma failCycle_framed (message : string) (s : DevSession) :
  framed s (failCycle message s).
Proof. frame_by_cases s. Qed.

(** Every resumption of an activation is framed. *)
Definition resumption (w : World) (e : Event)
  : option (nat * (DevSession * option Cont * list Action)) :=
  match e with
  | SyncResolved i r c =>
      match cycles w !! i with
      | Some (AwaitSync reason) => Some (i, afterSync reason r c (session w))
      | _ => None
      end
  | RemoteResolved i r c =>
      match cycles w !! i with
      | Some (AwaitShortRun reason) => Some (i, afterShortRun reason r c (session w))
      | Some (AwaitProcessCheck reason) => Some (i, afterProcessCheck reason r c (session w))
      | Some (AwaitLongStart reason lf) => Some (i, afterLongStart reason lf r c (session w))
      | _ => None
      end
  | AwaitThrew i message =>
      match cycles w !! i with
      | Some _ => Some (i, failCycle message (session w))
      | None => None
      end
  | _ => None
  end.

Definition isResumption (e : Event) : bool :=
  match e with
  | SyncResolved _ _ _ | RemoteResolved _ _ _ | AwaitThrew _ _ => true
  | _ => false
  end.

Lemma step_resumption (w : World) (e : Event) :
  isResumption e = true ->
  match resumption w e with
  | Some (i, out) =>
      step w e = settle w i out /\ framed (session w) out /\ is_Some (cycles w !! i)
  | None => step w e = (w, [])
  end.
Proof.
  destruct e as [f | | reason | i r c | i r c | i msg | srp sig | kr];
    try discriminate; intros _; unfold resumption, step.
  - destruct (cycles w !! i) as [[reason|reason|reason|reason lf]|] eqn:E;
      try reflexivity.
    split; [reflexivity|]. split; [apply afterSync_framed|eauto].
  - destruct (cycles w !! i) as [[reason|reason|reason|reason lf]|] eqn:E;
      try reflexivity; (split; [reflexivity|]); (split; [|eauto]).
    + apply afterShortRun_framed.
    + apply afterProcessCheck_framed.
    + apply afterLongStart_framed.
  - destruct (cycles w !! i) as [k|] eqn:E; [|reflexivity].
    split; [reflexivity|]. split; [apply failCycle_framed|eauto].
Qed.


(** *** Stop is final *)




Definition hasCommand (c : SessionSettings) : bool :=
  match mode c with
  | ModeShort => truthyString (shortCommand c)
  | ModeLong => truthyString (longCommand c)
  end.















(** *** Single flight *)

(** At most one activation is suspended, and [running] says whether one
    is. *)
Definition singleFlight (w : World) : Prop :=
  match cycles w with
  | [] => running (session w) = false
  | [_] => running (session w) = true
  | _ => False
  end.

Lemma singleFlight_length (w : World) : singleFlight w -> (length (cycles w) <= 1)%nat.
Proof.
  unfold singleFlight. destruct (cycles w) as [|k [|k' l]]; simpl; intros;
    try lia; contradiction.
Qed.

Lemma runDevSessionCycle_singleFlight (reason : string) (w : World) :
  singleFlight w -> singleFlight (fst (runDevSessionCycle reason w)).
Proof.
  destruct w as [s ks]. destruct s as [c ? ? ? ? ? ? ? ? ? ? ? ? ? ? ? ? ? ? ? ?].
  unfold singleFlight, runDevSessionCycle. simpl. intros Hw.
  destruct stopRequested0; [exact Hw|].
  destruct running0; simpl; [exact Hw|].
  destruct ks as [|k0 [|k1 l]]; simpl; try discriminate; auto.
Qed.

Lemma onWatchEvent_running (filename : option string) (s : DevSession) :
  running (onWatchEvent filename s) = running s.
Proof.
  destruct s as [c ? ? ? ? ? ? ? ? ? ? ? ? ? ? ? ? ? ? ? ?].
  unfold onWatchEvent, scheduleDevSessionCycle. simpl.
  destruct stopRequested0; [reflexivity|].
  destruct (truthyString filename); [|reflexivity].
  destruct (shouldIgnorePath _ _); reflexivity.
Qed.

Lemma step_singleFlight (w : World) (e : Event) :
  singleFlight w -> singleFlight (fst (step w e)).
Proof.
  intros Hw. destruct (isResumption e) eqn:Hres.
  - pose proof (step_resumption w e Hres) as H.
    destruct (resumption w e) as [[i out]|]; [|now rewrite H].
    destruct H as (Hstep & (_ & _ & Hrun & _) & [k Hk]). rewrite Hstep.
    destruct out as [[s' k'] acts]. unfold outSession, nextCont in Hrun. simpl in Hrun.
    unfold singleFlight in *. simpl.
    destruct (cycles w) as [|k0 [|k1 l]]; try contradiction.
    + destruct i; discriminate.
    + destruct i as [|i]; [|destruct i; discriminate].
      destruct k'; simpl; congruence.
  - destruct e as [f | | reason | i r c | i r c | i msg | srp sig | kr];
      try discriminate.
    + unfold singleFlight in *. simpl. rewrite onWatchEvent_running. exact Hw.
    + simpl. destruct (debounceTimer (session w)) as [t|]; [|exact Hw].
      destruct (timerArmed t); [|exact Hw].
      apply runDevSessionCycle_singleFlight.
      destruct w as [s ks]. destruct s. exact Hw.
    + apply runDevSessionCycle_singleFlight, Hw.
    + destruct w as [s ks]. destruct s. exact Hw.
    + destruct w as [s ks]. destruct s. exact Hw.
Qed.

Lemma run_singleFlight (es : list Event) (w : World) :
  singleFlight w -> singleFlight (fst (run w es)).
Proof.
  revert w. induction es as [|e es IH]; intros w Hw; [exact Hw|].
  simpl. pose proof (step_singleFlight w e Hw) as H1.
  destruct (step w e) as [w1 acts1]. simpl in H1.
  specialize (IH w1 H1). destruct (run w1 es) as [w2 acts2]. exact IH.
Qed.

(** The handler registers the session it creates with at most its first
    cycle in flight. *)
Lemma dev_session_start_singleFlight (env : StartEnv) (args : StartArgs)
    (devSessions devSessions' : gmap string World) (acts : list Action) (sid : string) :
  dev_session_start env args devSessions = (devSessions', acts, StartCreated sid) ->
  exists w, devSessions' !! sid = Some w /\ singleFlight w.
Proof.
  unfold dev_session_start.
  destruct (validateStart env args) as [error|c]; [discriminate|].
  destruct (watchError env) as [error|].
  - intros H. inversion H; subst. eexists. split; [apply lookup_insert_eq|].
    reflexivity.
  - match goal with
    | |- context [runDevSessionCycle ?r ?w0] =>
        pose proof (runDevSessionCycle_singleFlight r w0) as Hsf;
        destruct (runDevSessionCycle r w0) as [w acts0]
    end.
    intros H. inversion H; subst. exists w. split; [apply lookup_insert_eq|].
    apply Hsf. destruct (mode c); reflexivity.
Qed.

(** *** One iteration and the triggers that arrive during it *)

(** The events that arrive from outside the cycle: a direct trigger (manual
    trigger, session start), the debounce timer firing, a watch event.  The
    first two call [runDevSessionCycle], the timer only if it is armed. *)
Definition isArrival (e : Event) : bool :=
  match e with
  | Trigger _ | DebounceFired | WatchEvent _ => true
  | _ => false
  end.

Definition callsCycle (w : World) (e : Event) : bool :=
  match e with
  | Trigger _ => true
  | DebounceFired =>
      match debounceTimer (session w) with
      | Some t => timerArmed t
      | None => false
      end
  | _ => false
  end.

Fixpoint triggerCount (w : World) (es : list Event) : nat :=
  match es with
  | [] => 0
  | e :: es' => ((if callsCycle w e then 1 else 0) + triggerCount (fst (step w e)) es')%nat
  end.

(** What the return of an [await] does to the iteration of the single
    activation: the iteration goes on to its next [await], or reaches the
    foot of the loop, or fails. *)
Inductive Progress := Continues | Finishes | Fails.

Definition progress (w : World) (e : Event) : option Progress :=
  let c := settings (session w) in
  match e, cycles w with
  | SyncResolved O r _, [AwaitSync _] =>
      if negb (success r) then Some Fails
      else if hasCommand c then Some Continues else Some Finishes
  | RemoteResolved O r _, [AwaitShortRun _] => Some Finishes
  | RemoteResolved O r _, [AwaitProcessCheck _] =>
      if processAlive r then Some Finishes else Some Continues
  | RemoteResolved O r _, [AwaitLongStart _ _] =>
      match parseBackgroundPid (stdout r) with
      | Some _ => if exitCode r =? 0 then Some Finishes else Some Fails
      | None => Some Fails
      end
  | AwaitThrew O _, [_] => Some Fails
  | _, _ => None
  end.

(** The events of one iteration that completes without error and without a
    stop: arrivals in any number at any point, the returns that let it go
    on, and last the return that takes it to the foot of the loop. *)
Inductive iterationTrace : World -> list Event -> Prop :=
| it_finishes (w : World) (e : Event) :
    progress w e = Some Finishes -> iterationTrace w [e]
| it_continues (w : World) (e : Event) (es : list Event) :
    progress w e = Some Continues ->
    iterationTrace (fst (step w e)) es -> iterationTrace w (e :: es)
| it_arrival (w : World) (e : Event) (es : list Event) :
    isArrival e = true ->
    iterationTrace (fst (step w e)) es -> iterationTrace w (e :: es).

(** A cycle is in flight, it was called with [reason], no stop is
    requested. *)
Definition inFlight (reason : string) (w : World) : Prop :=
  (exists k, cycles w = [k] /\ contReason k = reason) /\
  running (session w) = true /\
  stopRequested (session w) = false.

Lemma step_arrival (reason : string) (w : World) (e : Event) :
  inFlight reason w -> isArrival e = true ->
  inFlight reason (fst (step w e)) /\
  snd (step w e) = [] /\
  pending (session (fst (step w e))) = pending (session w) || callsCycle w e.
Proof.
  intros ((k & Hk & Hr) & Hrun & Hstop) Harr.
  destruct w as [s ks]. destruct s as [c ? ? ? ? ? ? ? ? ? ? ? ? ? ? ? ? ? ? ? ?].
  unfold inFlight. simpl in *. subst.
  destruct e; try discriminate; simpl;
    unfold onWatchEvent, scheduleDevSessionCycle, runDevSessionCycle; simpl;
    break_ifs; simpl in *; subst; simpl;
    rewrite ?orb_false_r, ?orb_true_r; repeat split; eauto; try discriminate.
Qed.

Lemma step_continues (reason : string) (w : World) (e : Event) :
  inFlight reason w -> progress w e = Some Continues ->
  inFlight reason (fst (step w e)) /\
  cyclesBegun (snd (step w e)) = 0%nat /\
  pending (session (fst (step w e))) = pending (session w) /\
  callsCycle w e = false.
Proof.
  intros ((k & Hk & Hr) & Hrun & Hstop) Hp.
  destruct w as [s ks]. destruct s as [c ? ? ? ? ? ? ? ? ? ? ? ? ? ? ? ? ? ? ? ?].
  unfold inFlight, progress, hasCommand in *. simpl in *. subst.
  destruct e as [f | | r0 | i r cl | i r cl | i msg | srp sig | kr]; try discriminate;
    destruct i; try discriminate; destruct k; try discriminate;
    unfold step; simpl; unfold settle; unfold_cycle; simpl.
  - destruct (success r); simpl in *; [|discriminate].
    destruct (mode c); simpl in *.
    + destruct (truthyString (shortCommand c)); [|discriminate].
      simpl. repeat split; eauto.
    + destruct (truthyString (longCommand c)); [|discriminate].
      destruct (truthyNumber _); simpl; repeat split; eauto.
  - destruct (processAlive r); [discriminate|]. simpl. repeat split; eauto.
  - destruct (parseBackgroundPid (stdout r)); [|discriminate].
    destruct (exitCode r =? 0); discriminate.
Qed.

Lemma step_finishes (reason : string) (w : World) (e : Event) :
  inFlight reason w -> progress w e = Some Finishes ->
  callsCycle w e = false /\
  stopRequested (session (fst (step w e))) = false /\
  if pending (session w) then
    cyclesBegun (snd (step w e)) = 1%nat /\
    cycles (fst (step w e)) = [AwaitSync reason] /\
    running (session (fst (step w e))) = true /\
    pending (session (fst (step w e))) = false
  else
    cyclesBegun (snd (step w e)) = 0%nat /\
    cycles (fst (step w e)) = [] /\
    running (session (fst (step w e))) = false.
Proof.
  intros ((k & Hk & Hr) & Hrun & Hstop) Hp.
  destruct w as [s ks]. destruct s as [c ? ? ? ? ? ? ? ? ? ? ? ? ? ? ? ? ? ? ? ?].
  unfold inFlight, progress, hasCommand in *. simpl in *. subst.
  destruct e as [f | | r0 | i r cl | i r cl | i msg | srp sig | kr]; try discriminate;
    destruct i; try discriminate; destruct k; try discriminate;
    unfold step; simpl; unfold settle; unfold_cycle; simpl.
  - destruct (success r); simpl in *; [|discriminate].
    destruct (mode c); simpl in *.
    + destruct (truthyString (shortCommand c)); [discriminate|].
      destruct pending0; simpl; repeat split; eauto.
    + destruct (truthyString (longCommand c)); [discriminate|].
      destruct pending0; simpl; repeat split; eauto.
  - destruct (exitCode r =? 0); destruct pending0; simpl; repeat split; eauto.
  - destruct (processAlive r); [|discriminate].
    destruct pending0; simpl; repeat split; eauto.
  - destruct (parseBackgroundPid (stdout r)); [|discriminate].
    destruct (exitCode r =? 0); [|discriminate].
    destruct pending0; simpl; repeat split; eauto.
Qed.

Lemma step_fails (reason : string) (w : World) (e : Event) :
  inFlight reason w -> progress w e = Some Fails ->
  cyclesBegun (snd (step w e)) = 0%nat /\
  cycles (fst (step w e)) = [] /\
  running (session (fst (step w e))) = false /\
  status (session (fst (step w e))) = StatusError /\
  pending (session (fst (step w e))) = pending (session w).
Proof.
  intros ((k & Hk & Hr) & Hrun & Hstop) Hp.
  destruct w as [s ks]. destruct s as [c ? ? ? ? ? ? ? ? ? ? ? ? ? ? ? ? ? ? ? ?].
  unfold inFlight, progress, hasCommand in *. simpl in *. subst.
  destruct e as [f | | r0 | i r cl | i r cl | i msg | srp sig | kr]; try discriminate;
    destruct i; try discriminate; destruct k; try discriminate;
    unfold step; simpl; unfold settle; unfold_cycle; simpl; auto.
  - destruct (success r); simpl in *; [|auto].
    destruct (mode c); simpl in *.
    + destruct (truthyString (shortCommand c)); discriminate.
    + destruct (truthyString (longCommand c)); discriminate.
  - destruct (processAlive r); discriminate.
  - destruct (parseBackgroundPid (stdout r)); [|auto].
    destruct (exitCode r =? 0); [discriminate|]. simpl. auto.
Qed.

Lemma run_cons (w : World) (e : Event) (es : list Event) :
  fst (run w (e :: es)) = fst (run (fst (step w e)) es) /\
  snd (run w (e :: es)) = (snd (step w e) ++ snd (run (fst (step w e)) es))%list.
Proof.
  simpl. destruct (step w e) as [w1 a1]. simpl.
  destruct (run w1 es) as [w2 a2]. auto.
Qed.

Lemma run_app (w : World) (es1 es2 : list Event) :
  fst (run w (es1 ++ es2)) = fst (run (fst (run w es1)) es2) /\
  snd (run w (es1 ++ es2)) = (snd (run w es1) ++ snd (run (fst (run w es1)) es2))%list.
Proof.
  revert w. induction es1 as [|e es1 IH]; intros w; [simpl; auto|].
  change ((e :: es1) ++ es2)%list with (e :: (es1 ++ es2))%list.
  destruct (run_cons w e (es1 ++ es2)) as (-> & ->).
  destruct (run_cons w e es1) as (-> & ->).
  destruct (IH (fst (step w e))) as (-> & ->).
  split; [reflexivity|]. now rewrite app_assoc.
Qed.

Lemma cyclesBegun_app (a b : list Action) :
  cyclesBegun (a ++ b) = (cyclesBegun a + cyclesBegun b)%nat.
Proof. unfold cyclesBegun. now rewrite List.filter_app, length_app. Qed.

(** The drain loop over one iteration: the pending flag, already set or
    set by a trigger that arrives, makes the loop begin exactly one more
    iteration; without it the activation ends. *)
Lemma drain_iteration (reason : string) (w : World) (es : list Event) :
  iterationTrace w es ->
  inFlight reason w ->
  let w' := fst (run w es) in
  stopRequested (session w') = false /\
  if pending (session w) || (0 <? triggerCount w es)%nat then
    cyclesBegun (snd (run w es)) = 1%nat /\
    cycles w' = [AwaitSync reason] /\
    running (session w') = true /\
    pending (session w') = false
  else
    cyclesBegun (snd (run w es)) = 0%nat /\
    cycles w' = [] /\
    running (session w') = false.
Proof.
  cbv zeta. intros Htrace. induction Htrace as [w e Hp | w e es Hp _ IH | w e es Ha _ IH];
    intros Hin.
  - destruct (step_finishes reason w e Hin Hp) as (Hcc & Hstop & Hfin).
    destruct (run_cons w e []) as (-> & ->). simpl run. simpl fst. simpl snd.
    rewrite app_nil_r. simpl triggerCount. rewrite Hcc. simpl.
    rewrite orb_false_r. split; [exact Hstop|exact Hfin].
  - destruct (step_continues reason w e Hin Hp) as (Hin1 & Hsync & Hpend & Hcc).
    destruct (run_cons w e es) as (-> & ->).
    rewrite cyclesBegun_app, Hsync. simpl triggerCount. rewrite Hcc. simpl.
    rewrite <- Hpend. apply IH, Hin1.
  - destruct (step_arrival reason w e Hin Ha) as (Hin1 & Hacts & Hpend).
    destruct (run_cons w e es) as (-> & ->).
    rewrite Hacts. simpl app. simpl triggerCount.
    specialize (IH Hin1). rewrite Hpend in IH.
    destruct (callsCycle w e); simpl in *.
    + rewrite orb_true_r in *. exact IH.
    + rewrite orb_false_r in IH. exact IH.
Qed.

(** Claim C1, as stated, fails: two triggers arrive while the first cycle
    waits for its sync, the sync then fails, and the activation ends with
    the pending flag still set and no further cycle begun. *)
Lemma pending_trigger_dropped_on_failure :
  let w0 := mkWorld (newSession (demoSettings ModeShort)) [] in
  let during := [Trigger "manual trigger"; Trigger "manual trigger"] in
  let es := (Trigger "session start" :: during ++ [SyncResolved 0 syncFailed demoClock])%list in
  triggerCount (fst (step w0 (Trigger "session start"))) during = 2%nat /\
  cyclesBegun (snd (run w0 es)) = 1%nat /\
  cycles (fst (run w0 es)) = [] /\
  running (session (fst (run w0 es))) = false /\
  pending (session (fst (run w0 es))) = true.
Proof. vm_compute. repeat split. Qed.

(** Claim C1 (amended).  For a session created by [dev_session_start],
    whatever the events from then on, at most one activation of the cycle is
    suspended.  While a cycle is in
    flight and no stop is requested, an arrival (trigger, timer, watch
    event) begins no cycle and adds no activation; if it calls the cycle it
    sets the pending flag.  If the iteration in flight completes without
    error and without a stop, then however many triggers arrived during it,
    exactly one more iteration is begun at its end if there was at least
    one, and none if there was none; and when that further iteration
    completes in turn with no trigger during it, the activation ends having
    begun exactly one cycle in all.  If the iteration in flight fails
    instead, the activation ends in error at once and begins nothing,
    whatever the pending flag. *)
Theorem single_flight_pending_merge :
  (forall env args devSessions devSessions' acts sid,
      dev_session_start env args devSessions = (devSessions', acts, StartCreated sid) ->
      exists w,
        devSessions' !! sid = Some w /\
        forall es, (length (cycles (fst (run w es))) <= 1)%nat) /\
  (forall reason w e,
      inFlight reason w -> isArrival e = true ->
      inFlight reason (fst (step w e)) /\
      snd (step w e) = [] /\
      pending (session (fst (step w e))) = pending (session w) || callsCycle w e) /\
  (forall reason w es,
      inFlight reason w -> pending (session w) = false -> iterationTrace w es ->
      let w' := fst (run w es) in
      if (0 <? triggerCount w es)%nat then
        cyclesBegun (snd (run w es)) = 1%nat /\
        inFlight reason w' /\ cycles w' = [AwaitSync reason] /\
        pending (session w') = false
      else
        cyclesBegun (snd (run w es)) = 0%nat /\
        cycles w' = [] /\ running (session w') = false) /\
  (forall reason w es1 es2,
      inFlight reason w -> pending (session w) = false ->
      iterationTrace w es1 -> (0 < triggerCount w es1)%nat ->
      iterationTrace (fst (run w es1)) es2 ->
      triggerCount (fst (run w es1)) es2 = 0%nat ->
      cyclesBegun (snd (run w (es1 ++ es2))) = 1%nat /\
      cycles (fst (run w (es1 ++ es2))) = [] /\
      running (session (fst (run w (es1 ++ es2)))) = false) /\
  (forall reason w e,
      inFlight reason w -> progress w e = Some Fails ->
      cyclesBegun (snd (step w e)) = 0%nat /\
      cycles (fst (step w e)) = [] /\
      running (session (fst (step w e))) = false /\
      status (session (fst (step w e))) = StatusError /\
      pending (session (fst (step w e))) = pending (session w)).
Proof.
  assert (Hone : forall reason w es,
      inFlight reason w -> pending (session w) = false -> iterationTrace w es ->
      if (0 <? triggerCount w es)%nat then
        cyclesBegun (snd (run w es)) = 1%nat /\
        inFlight reason (fst (run w es)) /\ cycles (fst (run w es)) = [AwaitSync reason] /\
        pending (session (fst (run w es))) = false
      else
        cyclesBegun (snd (run w es)) = 0%nat /\
        cycles (fst (run w es)) = [] /\ running (session (fst (run w es))) = false).
  { intros reason w es Hin Hpend Htrace.
    pose proof (drain_iteration reason w es Htrace Hin) as H. cbv zeta in H.
    rewrite Hpend in H. simpl in H. destruct H as (Hstop & H).
    destruct (0 <? triggerCount w es)%nat; [|exact H].
    destruct H as (Hb & Hk & Hr & Hp). repeat split; auto.
    exists (AwaitSync reason). auto. }
  split; [|split; [|split; [|split]]].
  5: exact step_fails.
  - intros env args devSessions devSessions' acts sid Hstart.
    destruct (dev_session_start_singleFlight _ _ _ _ _ _ Hstart) as (w & Hw & Hsf).
    exists w. split; [exact Hw|].
    intros es. now apply singleFlight_length, run_singleFlight.
  - intros reason w e. apply step_arrival.
  - exact Hone.
  - intros reason w es1 es2 Hin Hpend Ht1 Hn1 Ht2 Hn2.
    pose proof (Hone reason w es1 Hin Hpend Ht1) as H1.
    destruct (Nat.ltb_spec 0 (triggerCount w es1)) as [_|Hle]; [|lia].
    destruct H1 as (Hb1 & Hin1 & _ & Hp1).
    pose proof (Hone reason _ es2 Hin1 Hp1 Ht2) as H2.
    rewrite Hn2 in H2. simpl in H2. destruct H2 as (Hb2 & Hk2 & Hr2).
    destruct (run_app w es1 es2) as (-> & ->).
    rewrite cyclesBegun_app, Hb1, Hb2. auto.
Qed.

Lemma single_flight_pending_merge_witness :
  let w := demoSyncing ModeShort in
  let es1 := [Trigger "manual trigger"; WatchEvent (Some "src/a.py"); DebounceFired;
              SyncResolved 0 syncOk demoClock; Trigger "manual trigger";
              RemoteResolved 0 (mkExecResult "ok" "" 0) demoClock] in
  let es2 := [SyncResolved 0 syncOk demoClock;
              RemoteResolved 0 (mkExecResult "ok" "" 0) demoClock] in
  triggerCount w es1 = 3%nat /\
  cyclesBegun (snd (run w (es1 ++ es2))) = 1%nat /\
  cycles (fst (run w (es1 ++ es2))) = [] /\
  running (session (fst (run w (es1 ++ es2)))) = false.
Proof.
  cbv zeta. split; [vm_compute; reflexivity|].
  apply (proj1 (proj2 (proj2 (proj2 single_flight_pending_merge))) "session start").
  - repeat split; [exists (AwaitSync "session start"); split; reflexivity].
  - reflexivity.
  - apply it_arrival; [reflexivity|].
    apply it_arrival; [reflexivity|].
    apply it_arrival; [reflexivity|].
    apply it_continues; [vm_compute; reflexivity|].
    apply it_arrival; [reflexivity|].
    apply it_finishes. vm_compute. reflexivity.
  - vm_compute. lia.
  - apply it_continues; [vm_compute; reflexivity|].
    apply it_finishes. vm_compute. reflexivity.
  - vm_compute. reflexivity.
Defined.

(** * Further properties of the code *)

(** ** Integers printed and parsed *)

Lemma chars_append (a b : string) : chars (a ++ b) = (chars a ++ chars b)%list.
Proof. induction a as [|c a IH]; simpl; [reflexivity|]. now rewrite IH. Qed.

Lemma uint_chars_digits (d : Decimal.uint) :
  forallb isDigit (chars (NilEmpty.string_of_uint d)) = true.
Proof. induction d; [reflexivity|..]; exact IHd. Qed.

Lemma takeWhile_all {A} (f : A -> bool) (l : list A) :
  forallb f l = true -> takeWhile f l = l.
Proof.
  induction l as [|x l IH]; simpl; [reflexivity|].
  intros H. apply andb_prop in H as [Hx Hl]. rewrite Hx. f_equal. auto.
Qed.

Definition digitStep (acc : Z) (c : ascii) : Z := 10 * acc + digitValue c.

Lemma uint_value_acc (d : Decimal.uint) (p : positive) :
  fold_left digitStep (chars (NilEmpty.string_of_uint d)) (Z.pos p)
  = Z.pos (Pos.of_uint_acc d p).
Proof.
  revert p. induction d; intros p; [reflexivity|..];
    simpl chars; simpl fold_left; simpl Pos.of_uint_acc;
    match goal with
    | |- fold_left _ _ ?a = Z.pos (Pos.of_uint_acc _ ?q) =>
        replace a with (Z.pos q) by (unfold digitStep, digitValue; simpl; lia)
    end; apply IHd.
Qed.

Lemma uint_value (d : Decimal.uint) :
  fold_left digitStep (chars (NilEmpty.string_of_uint d)) 0 = Z.of_N (Pos.of_uint d).
Proof.
  induction d; [reflexivity|exact IHd|..];
    simpl chars; simpl fold_left; simpl Pos.of_uint; simpl Z.of_N;
    match goal with
    | |- fold_left _ _ ?a = Z.pos (Pos.of_uint_acc _ ?q) =>
        replace a with (Z.pos q) by (unfold digitStep, digitValue; simpl; lia)
    end; apply uint_value_acc.
Qed.

Lemma uint_head_digit (d : Decimal.uint) :
  d <> Decimal.Nil ->
  NilZero.string_of_uint d = NilEmpty.string_of_uint d /\
  exists c rest, chars (NilEmpty.string_of_uint d) = c :: rest /\ isDigit c = true.
Proof. destruct d; intros H; try contradiction; simpl; eauto. Qed.

Lemma isDigit_plain (c : ascii) :
  isDigit c = true ->
  isWhiteSpace c = false /\ Ascii.eqb c "-" = false /\ Ascii.eqb c "+" = false.
Proof.
  unfold isDigit, isWhiteSpace, code. intros H.
  apply andb_prop in H as [H1 H2]. apply N.leb_le in H1, H2.
  repeat split.
  - repeat (apply orb_false_intro); try apply andb_false_intro2;
      try apply N.eqb_neq; try apply N.leb_gt; lia.
  - destruct (Ascii.eqb_spec c "-") as [->|]; [|reflexivity]. simpl in H1. lia.
  - destruct (Ascii.eqb_spec c "+") as [->|]; [|reflexivity]. simpl in H1. lia.
Qed.

Lemma parseDigits_uint (d : Decimal.uint) :
  d <> Decimal.Nil ->
  match takeWhile isDigit (chars (NilEmpty.string_of_uint d)) with
  | [] => None
  | ds => Some (digitsValue ds)
  end = Some (Z.of_N (Pos.of_uint d)).
Proof.
  intros Hd. destruct (uint_head_digit d Hd) as (_ & c & rest & Hc & _).
  rewrite (takeWhile_all _ _ (uint_chars_digits d)).
  destruct (chars (NilEmpty.string_of_uint d)) eqn:E; [discriminate|].
  rewrite <- E. f_equal. apply uint_value.
Qed.

Lemma parseInt_minus (s : string) :
  parseInt (String "-" s) =
  match takeWhile isDigit (chars s) with
  | [] => None
  | ds => Some (- digitsValue ds)
  end.
Proof. reflexivity. Qed.

(** [parseInt(String(n), 10)] gives [n] back, for every integer. *)
Lemma parseInt_ofZ (n : Z) : parseInt (ofZ n) = Some n.
Proof.
  unfold ofZ. rewrite <- (DecimalZ.of_to n) at 2.
  destruct n as [|p|p]; simpl Z.to_int; [reflexivity| |];
    pose proof (DecimalPos.Unsigned.to_uint_nonnil p) as Hd;
    destruct (uint_head_digit _ Hd) as (Hz & c & rest & Hc & Hdig);
    destruct (isDigit_plain c Hdig) as (Hws & Hm & Hp);
    simpl NilZero.string_of_int; rewrite Hz.
  - unfold parseInt, trimStart. rewrite Hc. simpl dropWhile. rewrite Hws, Hm, Hp. rewrite <- Hc.
    rewrite (parseDigits_uint _ Hd). reflexivity.
  - rewrite parseInt_minus.
    pose proof (parseDigits_uint _ Hd) as H.
    destruct (takeWhile isDigit _); [discriminate|]. inversion H as [H1].
    rewrite H1. reflexivity.
Qed.

(** ** The marker line printed by the start command *)

Lemma splitChars_pieces (sep : ascii) (l : list ascii) : splitChars sep l <> [].
Proof.
  induction l as [|c l IH]; simpl; [discriminate|].
  destruct (Ascii.eqb c sep); [discriminate|].
  destruct (splitChars sep l); discriminate.
Qed.

Lemma splitChars_sep (sep : ascii) (l1 l2 : list ascii) :
  splitChars sep (l1 ++ sep :: l2) = (splitChars sep l1 ++ splitChars sep l2)%list.
Proof.
  induction l1 as [|c l1 IH]; simpl.
  - now rewrite Ascii.eqb_refl.
  - destruct (Ascii.eqb c sep); [now rewrite IH|].
    rewrite IH. pose proof (splitChars_pieces sep l1) as Hne.
    destruct (splitChars sep l1); [contradiction|reflexivity].
Qed.

Lemma splitChars_none (sep : ascii) (l : list ascii) :
  existsb (fun c => Ascii.eqb c sep) l = false -> splitChars sep l = [l].
Proof.
  induction l as [|c l IH]; simpl; [reflexivity|].
  intros H. apply orb_false_elim in H as [Hc Hl]. rewrite Hc, (IH Hl). reflexivity.
Qed.

Lemma outputLines_append (a b : string) :
  outputLines (a ++ NL ++ b) = (outputLines a ++ outputLines b)%list.
Proof.
  unfold outputLines, split. rewrite chars_append. simpl chars.
  change (String nl "") with NL. unfold NL. simpl.
  rewrite splitChars_sep, !map_app, List.filter_app. reflexivity.
Qed.

Lemma dropWhile_head {A} (f : A -> bool) (x : A) (l : list A) :
  f x = false -> dropWhile f (x :: l) = x :: l.
Proof. intros H. simpl. now rewrite H. Qed.

Lemma trim_kept (l : list ascii) (first last : ascii) (mid : list ascii) :
  l = (first :: mid ++ [last])%list ->
  isWhiteSpace first = false -> isWhiteSpace last = false ->
  trimEnd (trimStart l) = l.
Proof.
  intros -> Hf Hl. unfold trimStart, trimEnd.
  rewrite dropWhile_head by exact Hf.
  replace (rev (first :: mid ++ [last])) with (last :: rev (first :: mid))
    by (change (first :: mid ++ [last])%list with ((first :: mid) ++ [last])%list;
        now rewrite rev_app_distr).
  rewrite dropWhile_head by exact Hl.
  change (rev (last :: rev (first :: mid)))
    with (rev (rev (first :: mid)) ++ [last])%list.
  now rewrite rev_involutive.
Qed.

Lemma forallb_last {A} (f : A -> bool) (l : list A) (x : A) :
  l <> [] -> forallb f l = true -> exists mid last, (x :: l = x :: mid ++ [last])%list /\ f last = true.
Proof.
  intros Hne Hall. destruct (exists_last Hne) as (mid & last & ->).
  exists mid, last. split; [reflexivity|].
  rewrite forallb_app in Hall. apply andb_prop in Hall as [_ H]. simpl in H.
  now rewrite andb_true_r in H.
Qed.

Definition markerLine (p : Z) : string := PID_MARKER ++ ofZ p.

Lemma ofZ_digits (p : Z) :
  0 < p -> chars (ofZ p) <> [] /\ forallb isDigit (chars (ofZ p)) = true.
Proof.
  intros Hp. destruct p as [|q|q]; try lia.
  unfold ofZ. simpl Z.to_int. simpl NilZero.string_of_int.
  pose proof (DecimalPos.Unsigned.to_uint_nonnil q) as Hd.
  destruct (uint_head_digit _ Hd) as (Hz & c & rest & Hc & _).
  rewrite Hz. split; [rewrite Hc; discriminate|apply uint_chars_digits].
Qed.

Lemma isDigit_not_nl (l : list ascii) :
  forallb isDigit l = true -> existsb (fun c => Ascii.eqb c nl) l = false.
Proof.
  induction l as [|c l IH]; simpl; [reflexivity|].
  intros H. apply andb_prop in H as [Hc Hl]. rewrite (IH Hl), orb_false_r.
  destruct (Ascii.eqb_spec c nl) as [->|]; [discriminate Hc|reflexivity].
Qed.

Lemma outputLines_markerLine (p : Z) :
  0 < p -> outputLines (markerLine p) = [markerLine p].
Proof.
  intros Hp. destruct (ofZ_digits p Hp) as (Hne & Hdig).
  unfold outputLines, split, markerLine. rewrite chars_append.
  rewrite splitChars_none
    by (rewrite existsb_app, (isDigit_not_nl _ Hdig); reflexivity).
  destruct (forallb_last isDigit (chars (ofZ p)) "_"%char Hne Hdig)
    as (mid & last & Heq & Hlast).
  destruct (isDigit_plain last Hlast) as (Hws & _ & _).
  assert (Hl : (chars PID_MARKER ++ chars (ofZ p))%list
               = ("_"%char :: (chars "_MCP_PID__" ++ mid) ++ [last])%list).
  { inversion Heq as [Hd]. rewrite Hd. reflexivity. }
  set (body := (chars PID_MARKER ++ chars (ofZ p))%list) in *.
  change (List.filter nonEmpty [trim (of_chars body)] = [PID_MARKER ++ ofZ p]).
  unfold trim. rewrite chars_of_chars.
  rewrite (trim_kept body _ _ _ Hl eq_refl Hws).
  subst body. rewrite <- chars_append, of_chars_chars. reflexivity.
Qed.

Lemma markerPid_markerLine (p : Z) : 0 < p -> markerPid (markerLine p) = Some p.
Proof.
  intros Hp. unfold markerPid.
  replace (isMarkerLine (markerLine p)) with true by reflexivity.
  change (dropChars (String.length PID_MARKER) (markerLine p)) with (ofZ p).
  rewrite parseInt_ofZ. unfold positivePid.
  destruct (Z.ltb_spec 0 p); [reflexivity|lia].
Qed.

(** The output of the start command as [executeCommand] hands it over,
    trimmed: the marker line, after a banner if the login printed one, and
    before further lines if any followed. *)
Definition printedPid (banner : option string) (p : Z) (trailer : option string) : string :=
  let tail :=
    match trailer with
    | Some t => markerLine p ++ NL ++ t
    | None => markerLine p
    end in
  match banner with
  | Some b => b ++ NL ++ tail
  | None => tail
  end.

Lemma outputLines_printedPid (banner : option string) (p : Z) (trailer : option string) :
  0 < p ->
  outputLines (printedPid banner p trailer)
  = (outputLines (default "" banner) ++ markerLine p :: outputLines (default "" trailer))%list.
Proof.
  intros Hp. unfold printedPid.
  destruct banner as [b|], trailer as [t|]; simpl default;
    rewrite ?outputLines_append, (outputLines_markerLine p Hp); reflexivity.
Qed.

(** Property X1.  The id printed as the marker line is the id parsed, and
    the id the session records when the start command has exited with 0:
    whether the marker line is the whole output or comes after a banner
    (none of whose lines starts with the marker), and whether it ends the
    output or is followed by more.  The id is taken below 2^53, where
    [parseInt] is exact. *)
Theorem parseBackgroundPid_printed (banner trailer : option string) (p : Z) :
  0 < p < 2 ^ 53 ->
  Forall (fun l => isMarkerLine l = false) (outputLines (default "" banner)) ->
  parseBackgroundPid (printedPid banner p trailer) = Some p /\
  (forall w i reason file r clock,
      cycles w !! i = Some (AwaitLongStart reason file) ->
      stdout r = printedPid banner p trailer -> exitCode r = 0 ->
      pid (session (fst (step w (RemoteResolved i r clock)))) = Some p /\
      logFile (session (fst (step w (RemoteResolved i r clock)))) = Some file).
Proof.
  intros [Hp _] Hbanner.
  assert (Hparse : parseBackgroundPid (printedPid banner p trailer) = Some p).
  { rewrite (parseBackgroundPid_marker _ _ _ _ (outputLines_printedPid banner p trailer Hp)
               Hbanner eq_refl).
    now rewrite (markerPid_markerLine p Hp). }
  split; [exact Hparse|].
  intros w i reason file r clock Hk Hout Hz.
  destruct w as [s ks]. destruct s as [c ? ? ? ? ? ? ? ? ? ? ? ? ? ? ? ? ? ? ? ?].
  simpl in Hk. unfold step. simpl. rewrite Hk. unfold settle. unfold_cycle.
  rewrite Hout, Hparse, Hz. simpl.
  destruct (pending0 && negb stopRequested0); split; reflexivity.
Qed.

Lemma parseBackgroundPid_printed_witness :
  parseBackgroundPid "__MCP_PID__4821" = Some 4821 /\
  parseBackgroundPid ("Welcome to Ubuntu 22.04" ++ NL ++ "__MCP_PID__4821") = Some 4821 /\
  parseBackgroundPid
    ("Welcome to Ubuntu 22.04" ++ NL ++ "__MCP_PID__4821" ++ NL ++ "logout") = Some 4821.
Proof.
  assert (Hp : 0 < 4821 < 2 ^ 53) by (split; [lia|reflexivity]).
  split; [|split].
  - apply (parseBackgroundPid_printed None None 4821 Hp). constructor.
  - apply (parseBackgroundPid_printed (Some "Welcome to Ubuntu 22.04") None 4821 Hp).
    repeat constructor.
  - apply (parseBackgroundPid_printed (Some "Welcome to Ubuntu 22.04") (Some "logout")
             4821 Hp).
    repeat constructor.
Defined.

Lemma lastDigitLine_positive (lines : list string) (p : Z) :
  lastDigitLine lines = Some p -> 0 < p.
Proof.
  induction lines as [|l lines IH]; [discriminate|].
  rewrite lastDigitLine_cons. unfold digitPid.
  destruct (allDigits l); [|exact IH].
  destruct (positivePid (parseInt l)) as [q|] eqn:E; [|exact IH].
  intros H. inversion H; subst. eapply positivePid_pos; eassumption.
Qed.

(** The parser never returns zero or a negative id. *)
Lemma parseBackgroundPid_positive (rawOutput : string) (p : Z) :
  parseBackgroundPid rawOutput = Some p -> 0 < p.
Proof.
  unfold parseBackgroundPid.
  destruct (List.find _ _) as [m|].
  - destruct (positivePid (parseInt _)) as [q|] eqn:E.
    + intros H. inversion H; subst. eapply positivePid_pos; eassumption.
    + apply lastDigitLine_positive.
  - apply lastDigitLine_positive.
Qed.

(** ** Shell quoting *)

(** How a POSIX shell reads back a command line made of quoted words: the
    words are separated by spaces; inside single quotes every character is
    literal up to the next single quote; inside double quotes every
    character is literal up to the next double quote, but for the dollar
    sign, the backquote and the backslash, which this reader refuses, as it
    refuses every character outside quotes other than a letter, a digit or
    one of [_ - . /].  [None] is a line it does not read. *)
Inductive QuoteState :=
| Between
| InWord (word : list ascii)
| InSingle (word : list ascii)
| InDouble (word : list ascii).

Definition isBareChar (c : ascii) : bool :=
  isSafeNameChar c || Ascii.eqb c "/".

Definition isDoubleSpecial (c : ascii) : bool :=
  Ascii.eqb c "$" || Ascii.eqb c "`" || Ascii.eqb c backslash.

Fixpoint readWords (st : QuoteState) (l : list ascii) : option (list (list ascii)) :=
  match l with
  | [] =>
      match st with
      | Between => Some []
      | InWord w => Some [w]
      | InSingle _ | InDouble _ => None
      end
  | c :: l' =>
      match st with
      | Between =>
          if Ascii.eqb c " " then readWords Between l'
          else if Ascii.eqb c squote then readWords (InSingle []) l'
          else if Ascii.eqb c dquote then readWords (InDouble []) l'
          else if isBareChar c then readWords (InWord [c]) l'
          else None
      | InWord w =>
          if Ascii.eqb c " " then option_map (cons w) (readWords Between l')
          else if Ascii.eqb c squote then readWords (InSingle w) l'
          else if Ascii.eqb c dquote then readWords (InDouble w) l'
          else if isBareChar c then readWords (InWord (w ++ [c])) l'
          else None
      | InSingle w =>
          if Ascii.eqb c squote then readWords (InWord w) l'
          else readWords (InSingle (w ++ [c])) l'
      | InDouble w =>
          if Ascii.eqb c dquote then readWords (InWord w) l'
          else if isDoubleSpecial c then None
          else readWords (InDouble (w ++ [c])) l'
      end
  end.

Definition shellWords (line : string) : option (list string) :=
  option_map (map of_chars) (readWords Between (chars line)).

Definition escapeQuotes (l : list ascii) : list ascii :=
  flat_map (fun c => if Ascii.eqb c squote
                     then [squote; dquote; squote; dquote; squote]
                     else [c]) l.

Lemma readWords_single (v w rest : list ascii) :
  readWords (InSingle w) (escapeQuotes v ++ squote :: rest)
  = readWords (InWord (w ++ v)) rest.
Proof.
  revert w. induction v as [|c v IH]; intros w.
  - simpl. now rewrite app_nil_r.
  - change (escapeQuotes (c :: v))
      with ((if Ascii.eqb c squote then [squote; dquote; squote; dquote; squote] else [c])
              ++ escapeQuotes v)%list.
    destruct (Ascii.eqb_spec c squote) as [->|Hc].
    + simpl. rewrite IH. now rewrite <- app_assoc.
    + simpl. apply Ascii.eqb_neq in Hc. rewrite Hc.
      rewrite IH. now rewrite <- app_assoc.
Qed.

Lemma chars_shellQuote (v : string) :
  chars (shellQuote v) = (squote :: escapeQuotes (chars v) ++ [squote])%list.
Proof. unfold shellQuote. now rewrite chars_of_chars. Qed.

Lemma readWords_quoted (v : string) (rest : list ascii) :
  readWords Between (chars (shellQuote v) ++ rest)
  = readWords (InWord (chars v)) rest.
Proof.
  rewrite chars_shellQuote. simpl. rewrite <- app_assoc. simpl.
  apply (readWords_single (chars v) []).
Qed.

Lemma chars_join_cons (sep p q : string) (rest : list string) :
  chars (join sep (p :: q :: rest))
  = (chars p ++ chars sep ++ chars (join sep (q :: rest)))%list.
Proof.
  change (join sep (p :: q :: rest)) with (p ++ sep ++ join sep (q :: rest)).
  now rewrite !chars_append.
Qed.

Lemma readWords_space (w l : list ascii) :
  readWords (InWord w) (chars " " ++ l)
  = option_map (cons w) (readWords Between l).
Proof. reflexivity. Qed.

Lemma readWords_args (parts : list string) :
  readWords Between (chars (shellQuoteArgs parts)) = Some (map chars parts).
Proof.
  unfold shellQuoteArgs. induction parts as [|p parts IH]; [reflexivity|].
  destruct parts as [|q parts].
  - change (join " " (map shellQuote [p])) with (shellQuote p).
    rewrite <- (app_nil_r (chars (shellQuote p))).
    now rewrite readWords_quoted.
  - change (map shellQuote (p :: q :: parts))
      with (shellQuote p :: shellQuote q :: map shellQuote parts).
    rewrite chars_join_cons, readWords_quoted, readWords_space.
    change (shellQuote q :: map shellQuote parts) with (map shellQuote (q :: parts)).
    rewrite IH. reflexivity.
Qed.

Lemma shellWords_shellQuoteArgs (parts : list string) :
  shellWords (shellQuoteArgs parts) = Some parts.
Proof.
  unfold shellWords. rewrite readWords_args. simpl. f_equal.
  rewrite map_map. rewrite <- (map_id parts) at 2. apply map_ext.
  intros s. apply of_chars_chars.
Qed.

Lemma shellWords_shellQuote (value : string) :
  shellWords (shellQuote value) = Some [value].
Proof.
  unfold shellWords. rewrite <- (app_nil_r (chars (shellQuote value))), readWords_quoted.
  simpl. now rewrite of_chars_chars.
Qed.

(** Property X2.  A shell reads the words quoted by [shellQuoteArgs] back as they were:
    whatever a value holds (quotes, spaces, dollars, semicolons, newlines),
    it stays one word and nothing of it is taken as shell syntax. *)
Theorem shellQuoteArgs_read_back (parts : list string) :
  shellWords (shellQuoteArgs parts) = Some parts.
Proof. exact (shellWords_shellQuoteArgs parts). Qed.

(** Property X3.  A shell reads a value quoted by [shellQuote] back as
    that one word, alone and in the middle of a command line: after [cd ],
    the quoted directory is one word. *)
Theorem shellQuote_read_back (value : string) :
  shellWords (shellQuote value) = Some [value] /\
  shellWords ("cd " ++ shellQuote value) = Some ["cd"; value].
Proof.
  split.
  - apply shellWords_shellQuote.
  - unfold shellWords. rewrite chars_append.
    change (readWords Between (chars "cd " ++ chars (shellQuote value)))
      with (option_map (cons (chars "cd"))
              (readWords Between (chars (shellQuote value)))).
    rewrite <- (app_nil_r (chars (shellQuote value))), readWords_quoted. simpl.
    now rewrite of_chars_chars.
Qed.

(** Property X4.  The transport given to rsync is ssh with the very options of the
    server that a remote command is run with, each read back by a shell as
    one word, and the remote side of the transfer is the same target with
    the remote path as one word. *)
Theorem rsync_transport_is_ssh (server : string) (config : Config)
    (args : list string) (target remotePath remoteCommand : string) :
  buildSSHBaseArgs server config = inr (args, target) ->
  buildSSHArgs server config remoteCommand = inr (args ++ [target; remoteCommand])%list /\
  (exists sshCommand,
      buildRsyncSshCommand server config = inr sshCommand /\
      shellWords sshCommand = Some ("ssh" :: args)) /\
  (exists quoted,
      buildRsyncRemoteTarget server config remotePath = inr (target ++ ":" ++ quoted) /\
      shellWords quoted = Some [remotePath]).
Proof.
  intros H. unfold buildSSHArgs, buildRsyncSshCommand, buildRsyncRemoteTarget, bindT.
  rewrite H. split; [reflexivity|]. split.
  - eexists. split; [reflexivity|]. apply shellWords_shellQuoteArgs.
  - eexists. split; [reflexivity|]. apply shellWords_shellQuote.
Qed.

Lemma rsync_transport_is_ssh_witness :
  exists sshCommand,
    buildRsyncSshCommand "gpu" demoConfig = inr sshCommand /\
    shellWords sshCommand
    = Some ("ssh" :: sshMultiplexArgs
              ++ ["-p"; "2222"; "-i"; "/home/alice/.ssh/id_ed25519"])%list.
Proof.
  exact (proj1 (proj2 (rsync_transport_is_ssh "gpu" demoConfig _ _ "/srv/app" "ls" eq_refl))).
Defined.

(** Property X5.  Two values are quoted alike exactly when they are the same. *)
Theorem shellQuote_injective (a b : string) : shellQuote a = shellQuote b <-> a = b.
Proof.
  split; [|now intros ->].
  intros H. pose proof (shellWords_shellQuote a) as Ha.
  rewrite H, shellWords_shellQuote in Ha. now inversion Ha.
Qed.

(** ** Wildcard patterns of the watch filter *)

Lemma wildcardMatch_star (pattern s : list ascii) :
  wildcardMatch (star :: pattern) s =
  wildcardMatch pattern s ||
  match s with
  | [] => false
  | c :: s' => negb (isLineTerminator c) && wildcardMatch (star :: pattern) s'
  end.
Proof. destruct s; reflexivity. Qed.

Lemma wildcardMatch_char (p : ascii) (pattern s : list ascii) :
  Ascii.eqb p star = false ->
  wildcardMatch (p :: pattern) s =
  match s with
  | c :: s' => Ascii.eqb p c && wildcardMatch pattern s'
  | [] => false
  end.
Proof. intros H. destruct s; cbn -[Ascii.eqb]; rewrite H; reflexivity. Qed.

Lemma wildcardMatch_literal (pattern s : list ascii) :
  existsb (Ascii.eqb star) pattern = false ->
  wildcardMatch pattern s = true <-> s = pattern.
Proof.
  revert s. induction pattern as [|p pattern IH]; intros s Hns.
  - destruct s; simpl; split; intros; congruence.
  - change (Ascii.eqb star p || existsb (Ascii.eqb star) pattern = false) in Hns.
    apply orb_false_elim in Hns as [Hp Hrest].
    rewrite Ascii.eqb_sym in Hp. rewrite (wildcardMatch_char _ _ _ Hp).
    destruct s as [|c s]; [split; intros; discriminate|].
    rewrite andb_true_iff, (IH s Hrest). split.
    + intros [Hc ->]. apply Ascii.eqb_eq in Hc. now subst.
    + intros H. inversion H; subst. split; [apply Ascii.eqb_refl|reflexivity].
Qed.

Definition noLineTerminator (l : list ascii) : bool :=
  forallb (fun c => negb (isLineTerminator c)) l.

Lemma wildcardMatch_suffix (suffix s : list ascii) :
  existsb (Ascii.eqb star) suffix = false ->
  wildcardMatch (star :: suffix) s = true <->
  exists before, s = (before ++ suffix)%list /\ noLineTerminator before = true.
Proof.
  intros Hns. induction s as [|c s IH].
  - rewrite wildcardMatch_star, orb_false_r, (wildcardMatch_literal _ _ Hns). split.
    + intros <-. exists []. auto.
    + intros (before & Hb & _). destruct before; simpl in Hb; [auto|discriminate].
  - rewrite wildcardMatch_star, orb_true_iff, andb_true_iff,
      (wildcardMatch_literal _ _ Hns), IH.
    split.
    + intros [<- | (Hc & before & -> & Hb)].
      * exists []. auto.
      * exists (c :: before). split; [reflexivity|]. simpl. now rewrite Hc, Hb.
    + intros (before & Heq & Hb). destruct before as [|b before].
      * left. exact Heq.
      * right. simpl in Heq. inversion Heq; subst. simpl in Hb.
        apply andb_prop in Hb as [Hc Hb]. split; [exact Hc|]. eauto.
Qed.

Lemma includes_char (c : ascii) (s : string) :
  includes (String c "") s = existsb (Ascii.eqb c) (chars s).
Proof.
  induction s as [|d s IH]; [reflexivity|].
  simpl. rewrite IH. now rewrite andb_true_r.
Qed.

Lemma of_chars_app (a b : list ascii) : of_chars (a ++ b) = of_chars a ++ of_chars b.
Proof. induction a as [|c a IH]; simpl; [reflexivity|]. now rewrite IH. Qed.

Lemma normalizeWatchPath_clean (s : string) :
  existsb (Ascii.eqb backslash) (chars (normalizeWatchPath s)) = false.
Proof.
  unfold normalizeWatchPath, replaceAllChar. rewrite chars_of_chars.
  induction (chars s) as [|c l IH]; [reflexivity|].
  rewrite map_cons.
  change (existsb ?f (?x :: ?r)) with (f x || existsb f r).
  rewrite IH, orb_false_r.
  destruct (Ascii.eqb_spec backslash c) as [<-|Hc]; [reflexivity|].
  now apply Ascii.eqb_neq.
Qed.

Lemma normalizeWatchPath_idem (s : string) :
  normalizeWatchPath (normalizeWatchPath s) = normalizeWatchPath s.
Proof. apply normalizeWatchPath_plain, normalizeWatchPath_clean. Qed.

(** Property X6.  A path written with backslashes is filtered exactly as the same path
    written with slashes. *)
Theorem shouldIgnorePath_separators (relativePath : string) (excludePatterns : list string) :
  shouldIgnorePath relativePath excludePatterns
  = shouldIgnorePath (normalizeWatchPath relativePath) excludePatterns.
Proof. unfold shouldIgnorePath. now rewrite normalizeWatchPath_idem. Qed.

(** Property X7.  A pattern made of a star and a suffix with no star and no separator
    (such as [*.log]) ignores exactly the paths whose basename ends with the
    suffix, what precedes the suffix holding no line break. *)
Theorem shouldIgnorePath_star_suffix (relativePath suffix : string) :
  isPlainPattern suffix = true ->
  shouldIgnorePath relativePath ["*" ++ suffix] = true <->
  exists before,
    basename (normalizeWatchPath relativePath) = before ++ suffix /\
    noLineTerminator (chars before) = true.
Proof.
  intros Hplain. unfold isPlainPattern in Hplain.
  apply andb_prop in Hplain as [Hplain Hbs]. apply andb_prop in Hplain as [Hstar Hsep].
  apply negb_true_iff in Hstar, Hsep, Hbs.
  assert (Hnorm : normalizeWatchPath ("*" ++ suffix) = "*" ++ suffix).
  { apply normalizeWatchPath_plain. simpl. exact Hbs. }
  assert (Hs1 : includes "*" ("*" ++ suffix) = true) by reflexivity.
  assert (Hs2 : includes "/" ("*" ++ suffix) = false) by exact Hsep.
  unfold shouldIgnorePath.
  change (existsb ?f [?x]) with (f x || false). rewrite orb_false_r.
  unfold patternIgnores. rewrite Hnorm, Hs1, Hs2.
  change (negb true) with false. cbv iota.
  unfold wildcardTest. change (chars ("*" ++ suffix)) with (star :: chars suffix).
  rewrite includes_char in Hstar.
  rewrite (wildcardMatch_suffix _ _ Hstar). split.
  - intros (before & Hb & Hnl). exists (of_chars before). split.
    + rewrite <- (of_chars_chars (basename _)), Hb.
      now rewrite of_chars_app, of_chars_chars.
    + now rewrite chars_of_chars.
  - intros (before & Hb & Hnl). exists (chars before). split; [|exact Hnl].
    now rewrite Hb, chars_append.
Qed.

Lemma shouldIgnorePath_star_suffix_witness :
  shouldIgnorePath "logs/run.log" ["*.log"] = true /\
  shouldIgnorePath "logs/run.logx" ["*.log"] = false.
Proof.
  split.
  - apply (proj2 (shouldIgnorePath_star_suffix "logs/run.log" ".log" eq_refl)).
    exists "run". split; reflexivity.
  - reflexivity.
Defined.

(** ** The recorded process id *)

(** A recorded id is a positive integer below 2^53 and comes with a log
    file. *)
Definition pidRecorded (s : DevSession) : Prop :=
  match pid s with
  | Some p => 0 < p < 2 ^ 53 /\ exists logf, logFile s = Some logf
  | None => True
  end.

(** An output whose process id, if it carries one, is below 2^53, where
    [parseInt] returns the integer itself. *)
Definition exactPid (rawOutput : string) : bool :=
  match parseBackgroundPid rawOutput with
  | Some p => p <? 2 ^ 53
  | None => true
  end.

Definition exactEvent (e : Event) : bool :=
  match e with
  | RemoteResolved _ result _ => exactPid (stdout result)
  | _ => true
  end.

Lemma step_pidRecorded (w : World) (e : Event) :
  exactEvent e = true ->
  pidRecorded (session w) -> pidRecorded (session (fst (step w e))).
Proof.
  intros Hexact Hw. unfold pidRecorded in *.
  destruct e as [f | | reason | i r c | i r c | i msg | srp sig | kr].
  - simpl. destruct w as [s ks]. destruct s as [cfg ? ? ? ? ? ? ? ? ? ? ? ? ? ? ? ? ? ? ? ?].
    unfold onWatchEvent, scheduleDevSessionCycle. simpl in *.
    destruct stopRequested0; [exact Hw|].
    destruct (truthyString f); [|exact Hw]. destruct (shouldIgnorePath _ _); exact Hw.
  - simpl. destruct (debounceTimer (session w)) as [t|]; [|exact Hw].
    destruct (timerArmed t); [|exact Hw].
    match goal with
    | |- context [runDevSessionCycle ?r ?w0] =>
        destruct (runDevSessionCycle_no_launch r w0) as (_ & Hp & Hf)
    end.
    rewrite Hp, Hf. destruct w as [s ks]. destruct s. exact Hw.
  - simpl. destruct (runDevSessionCycle_no_launch reason w) as (_ & Hp & Hf).
    rewrite Hp, Hf. exact Hw.
  - unfold step. destruct (cycles w !! i) as [[reason|reason|reason|reason lf]|];
      try exact Hw.
    destruct (settle_session w i (afterSync reason r c (session w))) as (Hs & _).
    destruct (afterSync_launch reason r c (session w)) as (Hp & Hf & _).
    rewrite Hs, Hp, Hf. exact Hw.
  - unfold step. destruct (cycles w !! i) as [[reason|reason|reason|reason lf]|];
      try exact Hw.
    + destruct (settle_session w i (afterShortRun reason r c (session w))) as (Hs & _).
      destruct (afterShortRun_no_launch reason r c (session w)) as (_ & Hp & Hf).
      rewrite Hs, Hp, Hf. exact Hw.
    + destruct (settle_session w i (afterProcessCheck reason r c (session w))) as (Hs & _).
      destruct (afterProcessCheck_launch reason r c (session w)) as (Hp & Hf & _).
      rewrite Hs, Hp, Hf. exact Hw.
    + destruct (settle_session w i (afterLongStart reason lf r c (session w))) as (Hs & _).
      destruct (afterLongStart_pid reason lf r c (session w))
        as (_ & [(Hp & Hf) | (p & Hparse & _ & Hp & Hf)]); rewrite Hs.
      * rewrite Hp, Hf. exact Hw.
      * rewrite Hp, Hf. split; [|eauto]. split.
        -- eapply parseBackgroundPid_positive; eassumption.
        -- simpl in Hexact. unfold exactPid in Hexact. rewrite Hparse in Hexact.
           now apply Z.ltb_lt.
  - unfold step. destruct (cycles w !! i) as [k|]; [|exact Hw].
    destruct (settle_session w i (failCycle msg (session w))) as (Hs & _).
    destruct (failCycle_no_launch msg (session w)) as (_ & Hp & Hf).
    rewrite Hs, Hp, Hf. exact Hw.
  - simpl. destruct w as [s ks]. destruct s. exact Hw.
  - simpl. destruct w as [s ks]. destruct s. exact Hw.
Qed.

Lemma run_pidRecorded (es : list Event) (w : World) :
  forallb exactEvent es = true ->
  pidRecorded (session w) -> pidRecorded (session (fst (run w es))).
Proof.
  revert w. induction es as [|e es IH]; intros w Hes Hw; [exact Hw|].
  apply andb_prop in Hes as [He Hes].
  destruct (run_cons w e es) as (-> & _). apply IH; [exact Hes|].
  now apply step_pidRecorded.
Qed.

Lemma dev_session_start_fresh (env : StartEnv) (args : StartArgs)
    (devSessions devSessions' : gmap string World) (acts : list Action) (sid : string) :
  dev_session_start env args devSessions = (devSessions', acts, StartCreated sid) ->
  exists w, devSessions' !! sid = Some w /\ pid (session w) = None /\
            stopRequested (session w) = false.
Proof.
  unfold dev_session_start.
  destruct (validateStart env args) as [error|c]; [discriminate|].
  destruct (watchError env) as [error|].
  - intros H. inversion H; subst. eexists. split; [apply lookup_insert_eq|].
    split; reflexivity.
  - unfold runDevSessionCycle, beginIteration.
    destruct (mode c); simpl; intros H; inversion H; subst;
      (eexists; split; [apply lookup_insert_eq|split; reflexivity]).
Qed.

(** Property X8.  Whatever happens to a session created by
    [dev_session_start], as long as the outputs of its remote commands carry
    no process id of 2^53 or more (above which [parseInt] no longer returns
    the integer printed), the process id it records, if any, is a positive
    integer below 2^53, and a log file is recorded with it. *)
Theorem recorded_pid_positive (env : StartEnv) (args : StartArgs)
    (devSessions devSessions' : gmap string World) (acts : list Action) (sid : string) :
  dev_session_start env args devSessions = (devSessions', acts, StartCreated sid) ->
  exists w,
    devSessions' !! sid = Some w /\
    forall es p,
      forallb exactEvent es = true ->
      pid (session (fst (run w es))) = Some p ->
      0 < p < 2 ^ 53 /\ truthyNumber (Some p) = true /\
      exists logf, logFile (session (fst (run w es))) = Some logf.
Proof.
  intros Hstart. destruct (dev_session_start_fresh _ _ _ _ _ _ Hstart) as (w & Hw & Hp & _).
  exists w. split; [exact Hw|]. intros es p Hes Hpid.
  assert (H0 : pidRecorded (session w)) by (unfold pidRecorded; now rewrite Hp).
  pose proof (run_pidRecorded es w Hes H0) as H. unfold pidRecorded in H.
  rewrite Hpid in H. destruct H as (Hpos & Hlog).
  split; [exact Hpos|]. split; [|exact Hlog].
  simpl. apply negb_true_iff, Z.eqb_neq. lia.
Qed.

(** *** A failed cycle does not block the next trigger *)

(** Property X9.  After an iteration has failed (failed sync, failed start of the long
    task, an exception), the next trigger begins a new cycle at once: one
    sync, the error cleared, the status back to running. *)
Theorem failure_does_not_block (reason next : string) (w : World) (e : Event) :
  inFlight reason w ->
  progress w e = Some Fails ->
  let failed := fst (step w e) in
  let retried := fst (step failed (Trigger next)) in
  status (session failed) = StatusError /\
  running (session failed) = false /\
  snd (step failed (Trigger next)) = [DoSync (syncParamsOf (session failed))] /\
  cycles retried = [AwaitSync next] /\
  running (session retried) = true /\
  pending (session retried) = false /\
  status (session retried) = StatusRunning /\
  lastError (session retried) = None.
Proof.
  intros ((k & Hk & Hr) & Hrun & Hstop) Hp.
  destruct w as [s ks]. destruct s as [c ? ? ? ? ? ? ? ? ? ? ? ? ? ? ? ? ? ? ? ?].
  unfold inFlight, progress, hasCommand in *. simpl in *. subst.
  destruct e as [f | | r0 | i r cl | i r cl | i msg | srp sig | kr]; try discriminate;
    destruct i; try discriminate; destruct k; try discriminate;
    unfold step; simpl; unfold settle; unfold_cycle; simpl;
    unfold runDevSessionCycle; simpl; auto 10.
  - destruct (success r); simpl in *; [|auto 10].
    destruct (mode c); simpl in *.
    + destruct (truthyString (shortCommand c)); discriminate.
    + destruct (truthyString (longCommand c)); discriminate.
  - destruct (processAlive r); discriminate.
  - destruct (parseBackgroundPid (stdout r)); [|simpl; auto 10].
    destruct (exitCode r =? 0); [discriminate|]. simpl. auto 10.
Qed.

Lemma failure_does_not_block_witness :
  let failed := fst (step (demoSyncing ModeShort) (SyncResolved 0 syncFailed demoClock)) in
  status (session failed) = StatusError /\
  cyclesBegun (snd (step failed (Trigger "manual trigger"))) = 1%nat.
Proof.
  cbv zeta.
  destruct (failure_does_not_block "session start" "manual trigger"
              (demoSyncing ModeShort) (SyncResolved 0 syncFailed demoClock))
    as (Hst & _ & Hacts & _).
  - repeat split. exists (AwaitSync "session start"). split; reflexivity.
  - reflexivity.
  - split; [exact Hst|]. rewrite Hacts. reflexivity.
Defined.

Definition demoLongArgs : StartArgs :=
  {| a_session_name := JString "train";
     a_server := JString "gpu";
     a_local_path := JString "/work/app";
     a_remote_path := JString "/srv/app";
     a_remote_working_dir := JUndefined;
     a_mode := JString "long";
     a_short_command := JUndefined;
     a_long_command := JString "python train.py";
     a_exclude := JUndefined;
     a_method := JUndefined;
     a_delete_remote_extra := JUndefined;
     a_debounce_ms := JUndefined;
     a_poll_interval_seconds := JUndefined;
     a_log_lines := JUndefined;
     a_follow_seconds := JUndefined |}.

Lemma recorded_pid_positive_witness :
  exists w : World,
    mode (settings (session w)) = ModeLong /\
    let es := [SyncResolved 0 syncOk demoClock;
               RemoteResolved 0 (mkExecResult "__MCP_PID__4821" "" 0) demoClock] in
    pid (session (fst (run w es))) = Some 4821 /\ 0 < 4821 < 2 ^ 53.
Proof.
  destruct (recorded_pid_positive demoStartEnv demoLongArgs ∅ _ _ _ eq_refl)
    as (w & Hw & H).
  exists w. rewrite lookup_insert_eq in Hw. injection Hw as Hw.
  split; [now rewrite <- Hw|]. cbv zeta.
  assert (Hpid : pid (session (fst (run w
             [SyncResolved 0 syncOk demoClock;
              RemoteResolved 0 (mkExecResult "__MCP_PID__4821" "" 0) demoClock])))
          = Some 4821) by (now rewrite <- Hw).
  split; [exact Hpid|].
  apply (fun Hexact => proj1 (H _ 4821 Hexact Hpid)). reflexivity.
Defined.

(** ** Watch events and the debounce timer *)

(** A watch event that the callback acts on, under a list of exclude
    patterns: one without a file name ([null] or the empty name), or one
    whose path the filter does not ignore. *)
Definition effective (excludePatterns : list string) (filename : option string) : bool :=
  match filename with
  | None => true
  | Some f => String.eqb f ""
              || negb (shouldIgnorePath (normalizeWatchPath f) excludePatterns)
  end.

(** The paths a run of watch events adds to the changed-path set: those of
    the events that carry a name which the filter does not ignore. *)
Definition recordedPaths (excludePatterns : list string) (filenames : list (option string))
  : list string :=
  omap (fun filename =>
          match filename with
          | Some f => if negb (String.eqb f "")
                         && negb (shouldIgnorePath (normalizeWatchPath f) excludePatterns)
                      then Some (normalizeWatchPath f) else None
          | None => None
          end) filenames.

Definition timerIsArmed (s : DevSession) : bool :=
  match debounceTimer s with
  | Some t => timerArmed t
  | None => false
  end.

Lemma onWatchEvent_spec (filename : option string) (s : DevSession) :
  stopRequested s = false ->
  let s' := onWatchEvent filename s in
  let excl := exclude (settings s) in
  settings s' = settings s /\ stopRequested s' = false /\
  running s' = running s /\ pending s' = pending s /\
  timerIsArmed s' = effective excl filename || timerIsArmed s /\
  changedPaths s' = list_to_set (recordedPaths excl [filename]) ∪ changedPaths s.
Proof.
  destruct s as [c ? ? ? ? ? ? ? ? ? ? ? ? ? ? ? ? ? ? ? ?]. simpl. intros ->.
  unfold onWatchEvent, scheduleDevSessionCycle, recordedPaths, effective, timerIsArmed,
    truthyString, nonEmpty.
  simpl. destruct filename as [f|]; simpl.
  - destruct (String.eqb f ""); simpl.
    + repeat split; auto. now rewrite (left_id_L ∅ (∪)).
    + destruct (shouldIgnorePath _ _); simpl; repeat split; auto.
      * now rewrite (left_id_L ∅ (∪)).
      * now rewrite (right_id_L ∅ (∪)).
  - repeat split; auto. now rewrite (left_id_L ∅ (∪)).
Qed.

Lemma recordedPaths_cons (excl : list string) (f : option string) (fs : list (option string)) :
  recordedPaths excl (f :: fs) = (recordedPaths excl [f] ++ recordedPaths excl fs)%list.
Proof.
  unfold recordedPaths. simpl.
  destruct f as [f|]; [destruct (_ && _)|]; reflexivity.
Qed.

Lemma watch_events_spec (filenames : list (option string)) (w : World) :
  stopRequested (session w) = false ->
  let w' := fst (run w (map WatchEvent filenames)) in
  let excl := exclude (settings (session w)) in
  snd (run w (map WatchEvent filenames)) = [] /\
  cycles w' = cycles w /\
  settings (session w') = settings (session w) /\
  stopRequested (session w') = false /\
  running (session w') = running (session w) /\
  pending (session w') = pending (session w) /\
  timerIsArmed (session w') = existsb (effective excl) filenames
                              || timerIsArmed (session w) /\
  changedPaths (session w')
    = list_to_set (recordedPaths excl filenames) ∪ changedPaths (session w).
Proof.
  revert w. induction filenames as [|f fs IH]; intros w Hstop.
  - simpl. repeat split; auto. now rewrite (left_id_L ∅ (∪)).
  - cbv zeta. change (map WatchEvent (f :: fs)) with (WatchEvent f :: map WatchEvent fs).
    destruct (run_cons w (WatchEvent f) (map WatchEvent fs)) as (-> & ->).
    destruct (onWatchEvent_spec f (session w) Hstop) as (Hc & Hs & Hr & Hp & Ht & Hcp).
    set (w1 := fst (step w (WatchEvent f))).
    assert (Hs1 : session w1 = onWatchEvent f (session w)) by reflexivity.
    assert (Hk1 : cycles w1 = cycles w) by reflexivity.
    specialize (IH w1). cbv zeta in IH. rewrite Hs1 in IH.
    destruct (IH Hs) as (Ha & Hk & Hc' & Hs' & Hr' & Hp' & Ht' & Hcp').
    rewrite Ha, Hk, Hk1, Hc', Hs', Hr', Hp', Ht', Hcp'.
    rewrite Hc, Hr, Hp, Ht, Hcp.
    repeat split; auto.
    + simpl existsb. now rewrite orb_assoc, (orb_comm (existsb _ _)).
    + rewrite (recordedPaths_cons _ f fs), list_to_set_app_L.
      rewrite (assoc_L (∪)). f_equal. apply (comm_L (∪)).
Qed.

(** Property X10.  However many watch events arrive before the debounce timer fires (one
    of them at least being acted on), the timer fires once: an idle session
    begins exactly one cycle, and a timer event after that does nothing. *)
Theorem debounce_coalesces (w : World) (filenames : list (option string)) (extra : nat) :
  stopRequested (session w) = false ->
  running (session w) = false ->
  cycles w = [] ->
  existsb (effective (exclude (settings (session w)))) filenames = true ->
  let es := (map WatchEvent filenames ++ repeat DebounceFired (S extra))%list in
  cyclesBegun (snd (run w es)) = 1%nat /\
  (exists reason, cycles (fst (run w es)) = [AwaitSync reason]) /\
  timerIsArmed (session (fst (run w es))) = false.
Proof.
  intros Hstop Hrun Hk Heff. cbv zeta.
  destruct (watch_events_spec filenames w Hstop)
    as (Ha & Hk' & _ & Hs' & Hr' & _ & Ht' & _).
  cbv zeta in *. rewrite Heff in Ht'. rewrite orb_true_l in Ht'.
  destruct (run_app w (map WatchEvent filenames) (repeat DebounceFired (S extra)))
    as (-> & ->).
  rewrite Ha, app_nil_l.
  rewrite Hk in Hk'. rewrite Hrun in Hr'.
  generalize dependent (fst (run w (map WatchEvent filenames))).
  intros w1 Hk' Hs' Hr' Ht'.
  change (repeat DebounceFired (S extra)) with (DebounceFired :: repeat DebounceFired extra).
  destruct (run_cons w1 DebounceFired (repeat DebounceFired extra)) as (-> & ->).
  assert (Hfire : exists reason w2 params,
             step w1 DebounceFired = (w2, [DoSync params]) /\
             cycles w2 = [AwaitSync reason] /\ timerIsArmed (session w2) = false).
  { destruct w1 as [s1 k1]. destruct s1 as [c ? ? ? ? ? ? ? ? ? ? ? ? ? ? ? ? ? ? ? ?].
    simpl in Hk', Hs', Hr', Ht'. subst.
    unfold timerIsArmed in Ht'. simpl in Ht'.
    destruct debounceTimer0 as [[r armed]|]; [|discriminate]. simpl in Ht'. subst armed.
    simpl. unfold runDevSessionCycle, beginIteration. simpl.
    do 3 eexists. split; [reflexivity|]. split; reflexivity. }
  destruct Hfire as (reason & w2 & params & Hstep & Hk2 & Ht2). rewrite Hstep. simpl fst. simpl snd.
  assert (Hidle : run w2 (repeat DebounceFired extra) = (w2, [])).
  { clear - Ht2. induction extra as [|n IHn]; [reflexivity|].
    simpl. unfold timerIsArmed in Ht2.
    destruct (debounceTimer (session w2)) as [t|]; [rewrite Ht2|]; now rewrite IHn. }
  rewrite Hidle. simpl. repeat split; eauto.
Qed.

Lemma debounce_coalesces_witness :
  let w := mkWorld (set_watcher true (newSession (demoSettings ModeShort))) [] in
  let es := [WatchEvent (Some "src/a.py"); WatchEvent (Some "node_modules/x/y.js");
             WatchEvent (Some "run.log"); WatchEvent (Some "src\b.py"); WatchEvent None;
             DebounceFired; DebounceFired; DebounceFired] in
  cyclesBegun (snd (run w es)) = 1%nat.
Proof.
  cbv zeta.
  apply (debounce_coalesces
           (mkWorld (set_watcher true (newSession (demoSettings ModeShort))) [])
           [Some "src/a.py"; Some "node_modules/x/y.js"; Some "run.log";
            Some "src\b.py"; None] 2); reflexivity.
Defined.

(** Property X11.  The changed-path set after a run of watch events holds
    what it held and the normalised paths of the events that carry a name,
    not the empty one, which the filter does not ignore; an event without a
    name or with the empty name adds nothing. *)
Theorem changed_paths_recorded (w : World) (filenames : list (option string)) :
  stopRequested (session w) = false ->
  let after := changedPaths (session (fst (run w (map WatchEvent filenames)))) in
  after = list_to_set (recordedPaths (exclude (settings (session w))) filenames)
          ∪ changedPaths (session w) /\
  (forall path,
      path ∈ after <->
      path ∈ changedPaths (session w) \/
      exists f,
        In (Some f) filenames /\ f <> "" /\ path = normalizeWatchPath f /\
        shouldIgnorePath path (exclude (settings (session w))) = false).
Proof.
  intros Hstop. cbv zeta.
  pose proof (watch_events_spec filenames w Hstop) as H. cbv zeta in H.
  assert (Heq : changedPaths (session (fst (run w (map WatchEvent filenames))))
                = list_to_set (recordedPaths (exclude (settings (session w))) filenames)
                  ∪ changedPaths (session w)) by apply H.
  split; [exact Heq|]. intros path. rewrite Heq, elem_of_union, elem_of_list_to_set.
  unfold recordedPaths. rewrite list_elem_of_omap. split.
  - intros [(x & Hx & Hsome) | Hold]; [right|now left].
    destruct x as [f|]; [|discriminate].
    destruct (String.eqb_spec f "") as [E|E]; [discriminate|]. simpl in Hsome.
    destruct (shouldIgnorePath _ _) eqn:Hi; [discriminate|]. simpl in Hsome.
    inversion Hsome; subst. exists f. rewrite <- list_elem_of_In. auto.
  - intros [Hold | (f & Hin & Hne & -> & Hi)]; [now right|left].
    exists (Some f). rewrite list_elem_of_In. split; [exact Hin|].
    destruct (String.eqb_spec f "") as [E|E]; [contradiction|]. simpl.
    now rewrite Hi.
Qed.

Lemma changed_paths_recorded_witness :
  changedPaths (session (fst (run (mkWorld (newSession (demoSettings ModeShort)) [])
      (map WatchEvent [Some "src\a.py"; Some "build/run.log"; None; Some "";
                       Some "src/a.py"]))))
  = {[ "src/a.py" ]}.
Proof.
  rewrite (proj1 (changed_paths_recorded
                    (mkWorld (newSession (demoSettings ModeShort)) [])
                    [Some "src\a.py"; Some "build/run.log"; None; Some ""; Some "src/a.py"]
                    eq_refl)).
  vm_compute. reflexivity.
Defined.

(** ** What a session start checks and creates *)

Lemma assertString_inv (v : JsValue) (field s : string) :
  assertString v field = inr s -> v = JString s /\ nonEmpty (trim s) = true.
Proof.
  unfold assertString, nonEmpty. destruct v; try discriminate.
  destruct (String.eqb (trim s0) "") eqn:E; [discriminate|].
  intros H. inversion H; subst. now rewrite E.
Qed.

Lemma assertNoControlChars_inv (v field s : string) :
  assertNoControlChars v field = inr s ->
  s = v /\ existsb isControlChar (chars v) = false.
Proof.
  unfold assertNoControlChars. destruct (existsb _ _); [discriminate|].
  intros H. inversion H. auto.
Qed.

Lemma assertPath_inv (v : JsValue) (field p : string) :
  assertPath v field = inr p -> v = JString p /\ isPathOk p = true.
Proof.
  unfold assertPath, bindT. destruct (assertString v field) as [e|s] eqn:E; [discriminate|].
  intros H. apply assertNoControlChars_inv in H as (-> & Hc).
  apply assertString_inv in E as (-> & Hn).
  split; [reflexivity|]. unfold isPathOk. now rewrite Hn, Hc.
Qed.

Lemma assertServerName_inv (v : JsValue) (field s : string) :
  assertServerName v field = inr s -> v = JString s /\ SAFE_SERVER_RE s = true.
Proof.
  unfold assertServerName, bindT.
  destruct (assertString v field) as [e|s0] eqn:E; [discriminate|].
  destruct (assertNoControlChars s0 field) as [e|s1] eqn:E1; [discriminate|].
  destruct (SAFE_SERVER_RE s1) eqn:E2; [|discriminate].
  intros H. inversion H; subst.
  apply assertNoControlChars_inv in E1 as (-> & _).
  apply assertString_inv in E as (-> & _). auto.
Qed.

Lemma assertSessionName_inv (v : JsValue) (s : string) :
  assertSessionName v = inr s -> v = JString s /\ SAFE_SERVER_RE s = true.
Proof.
  unfold assertSessionName, bindT.
  destruct (assertString v _) as [e|s0] eqn:E; [discriminate|].
  destruct (assertNoControlChars s0 _) as [e|s1] eqn:E1; [discriminate|].
  destruct (SAFE_SERVER_RE s1) eqn:E2; [|discriminate].
  intros H. inversion H; subst.
  apply assertNoControlChars_inv in E1 as (-> & _).
  apply assertString_inv in E as (-> & _). auto.
Qed.

Lemma assertPositiveInt_inv (v : JsValue) (field : string) (n : Z) :
  assertPositiveInt v field = inr n -> v = JNumber n /\ 0 < n.
Proof.
  unfold assertPositiveInt. destruct v; try discriminate.
  destruct (Z.ltb_spec 0 n0) as [Hpos|Hneg]; [|discriminate].
  intros Heq. inversion Heq; subst. auto.
Qed.

Lemma assertStringItems_inv (items : list JsValue) (field : string) (idx : nat)
    (ss : list string) :
  assertStringItems items field idx = inr ss ->
  items = map JString ss /\ forallb isPathOk ss = true.
Proof.
  revert idx ss. induction items as [|v items IH]; intros idx ss.
  - simpl. intros H. inversion H. auto.
  - simpl. unfold bindT.
    destruct (assertString v _) as [e|s0] eqn:E; [discriminate|].
    destruct (assertNoControlChars s0 _) as [e|s1] eqn:E1; [discriminate|].
    destruct (assertStringItems items field (S idx)) as [e|rest] eqn:E2; [discriminate|].
    intros H. inversion H; subst.
    apply assertNoControlChars_inv in E1 as (-> & Hc).
    apply assertString_inv in E as (-> & Hn).
    destruct (IH _ _ E2) as (-> & Hrest).
    split; [reflexivity|]. simpl. unfold isPathOk at 1. now rewrite Hn, Hc, Hrest.
Qed.

(** The settings of a session that passed the checks. *)
Definition validSettings (c : SessionSettings) : Prop :=
  SAFE_SERVER_RE (name c) = true /\
  SAFE_SERVER_RE (server c) = true /\
  isPathOk (localPath c) = true /\
  isPathOk (remotePath c) = true /\
  isPathOk (remoteWorkingDir c) = true /\
  forallb isPathOk (exclude c) = true /\
  0 < debounceMs c /\ 0 < pollIntervalSeconds c /\ 0 < logLines c /\
  0 <= followSeconds c <= 86400 /\
  hasCommand c = true /\
  match mode c with
  | ModeShort => longCommand c = None
  | ModeLong => shortCommand c = None
  end.

Lemma validateStart_valid (env : StartEnv) (args : StartArgs) (c : SessionSettings) :
  validateStart env args = inr c ->
  validSettings c /\
  sessionId c = name c ++ "-" ++ idStamp env ++ "-" ++ idRandom env /\
  startedAt c = nowMs (startClock env).
Proof.
  unfold validateStart, bindT, ret, throw.
  destruct (assertSessionName _) as [e|nm] eqn:E1; [discriminate|].
  destruct (assertServerName _ _) as [e|srv] eqn:E2; [discriminate|].
  destruct (assertPath (a_local_path args) _) as [e|lp] eqn:E3; [discriminate|].
  destruct (assertPath (a_remote_path args) _) as [e|rp] eqn:E4; [discriminate|].
  destruct (if truthy (a_remote_working_dir args) then _ else _) as [e|wd] eqn:E5;
    [discriminate|].
  destruct (assertDevSessionMode _) as [e|m] eqn:E6; [discriminate|].
  destruct (assertStringArray _ _) as [e|ex] eqn:E7; [discriminate|].
  destruct (assertSyncMethod _) as [e|me] eqn:E8; [discriminate|].
  destruct (assertPositiveInt (orDefault (a_debounce_ms args) _) _) as [e|db] eqn:E9;
    [discriminate|].
  destruct (assertPositiveInt (orDefault (a_poll_interval_seconds args) _) _)
    as [e|pl] eqn:E10; [discriminate|].
  destruct (assertPositiveInt (orDefault (a_log_lines args) _) _) as [e|ll] eqn:E11;
    [discriminate|].
  destruct (match orDefault (a_follow_seconds args) _ with JNumber n => _ | _ => _ end)
    as [e|fs] eqn:E12; [discriminate|].
  destruct (match m with ModeShort => _ | ModeLong => _ end) as [e|cmds] eqn:E13;
    [discriminate|].
  intros H. inversion H; subst; clear H. unfold validSettings, hasCommand. simpl.
  apply assertSessionName_inv in E1 as (_ & Hnm).
  apply assertServerName_inv in E2 as (_ & Hsrv).
  apply assertPath_inv in E3 as (_ & Hlp).
  apply assertPath_inv in E4 as (_ & Hrp).
  assert (Hwd : isPathOk wd = true).
  { destruct (truthy (a_remote_working_dir args)).
    - now apply assertPath_inv in E5 as (_ & Hwd).
    - inversion E5; subst. exact Hrp. }
  assert (Hex : forallb isPathOk ex = true).
  { unfold assertStringArray in E7. destruct (orDefault (a_exclude args) _); try discriminate.
    now apply assertStringItems_inv in E7 as (_ & Hex). }
  apply assertPositiveInt_inv in E9 as (_ & Hdb).
  apply assertPositiveInt_inv in E10 as (_ & Hpl).
  apply assertPositiveInt_inv in E11 as (_ & Hll).
  assert (Hfs : 0 <= fs <= 86400).
  { destruct (orDefault (a_follow_seconds args) _); try discriminate.
    destruct (Z.ltb_spec n 0) as [Hlo|Hlo]; [discriminate|].
    destruct (Z.ltb_spec 86400 n) as [Hhi|Hhi]; [discriminate|].
    simpl in E12. inversion E12. lia. }
  assert (Hcmd : match m with
                 | ModeShort => truthyString (fst cmds) = true /\ snd cmds = None
                 | ModeLong => truthyString (snd cmds) = true /\ fst cmds = None
                 end).
  { destruct m.
    - destruct (truthy (a_short_command args)) eqn:Ht; [|discriminate].
      destruct (assertString _ _) as [e|sc] eqn:Es; [discriminate|].
      inversion E13; subst. apply assertString_inv in Es as (Hv & _).
      rewrite Hv in Ht. simpl in *. auto.
    - destruct (truthy (a_long_command args)) eqn:Ht; [|discriminate].
      destruct (assertString _ _) as [e|sc] eqn:Es; [discriminate|].
      inversion E13; subst. apply assertString_inv in Es as (Hv & _).
      rewrite Hv in Ht. simpl in *. auto. }
  split; [|split; reflexivity].
  repeat split; try assumption; try lia; destruct m; destruct Hcmd; auto.
Qed.

(** ** Forced sync methods *)

Section SyncForced.
Variable rt : Runtime.
Variable config : Config.
Variables (server : string) (args : list string) (target : string).
Hypothesis Hbase : buildSSHBaseArgs server config = inr (args, target).

Lemma performRemoteSync_checked (params : SyncParams) :
  wellFormedParams server params ->
  performRemoteSync rt config params =
  let safeExclude := default [] (p_exclude params) in
  let safeDelete := default false (p_delete_remote_extra params) in
  match default MethodAuto (p_method params) with
  | MethodScp =>
      run! result <- scpUpload rt config server (p_local_path params)
                       (p_remote_path params) in
      retM (syncResult safeExclude safeDelete UsedScp false result None)
  | m =>
      let rs := rsyncOutcome rt args target params in
      (rsyncCall rt args target params ::
         fst (if exitCode rs =? 0 then
                retM (syncResult safeExclude safeDelete UsedRsync false rs (Some rs))
              else if (match m with MethodAuto => true | _ => false end)
                      && isRsyncUnavailable rs then
                run! result <- scpUpload rt config server (p_local_path params)
                                 (p_remote_path params) in
                retM (syncResult safeExclude safeDelete UsedScp true result (Some rs))
              else retM (syncResult safeExclude safeDelete UsedRsync false rs (Some rs))),
       snd (if exitCode rs =? 0 then
                retM (syncResult safeExclude safeDelete UsedRsync false rs (Some rs))
              else if (match m with MethodAuto => true | _ => false end)
                      && isRsyncUnavailable rs then
                run! result <- scpUpload rt config server (p_local_path params)
                                 (p_remote_path params) in
                retM (syncResult safeExclude safeDelete UsedScp true result (Some rs))
              else retM (syncResult safeExclude safeDelete UsedRsync false rs (Some rs))))
  end.
Proof.
  intros (Hs & Hl & Hr & He).
  unfold performRemoteSync. rewrite Hs.
  rewrite (buildSSHBaseArgs_server _ _ _ Hbase).
  rewrite (assertPath_ok _ "local_path" Hl), (assertPath_ok _ "remote_path" Hr).
  assert (Hex : match p_exclude params with
                | Some ex => assertStringArray (JArray (map JString ex)) "exclude"
                | None => ret []
                end = inr (default [] (p_exclude params))).
  { destruct (p_exclude params) as [ex|]; [|reflexivity].
    simpl in *. now apply assertStringItems_ok. }
  rewrite Hex. rewrite !bindM_lift. cbv zeta.
  destruct (default MethodAuto (p_method params)); [| |reflexivity];
    unfold buildRsyncSshCommand, buildRsyncRemoteTarget, bindT; rewrite Hbase;
    rewrite !bindM_lift; rewrite bindM_await; reflexivity.
Qed.

Definition isRsyncCall (c : Call) : bool := String.eqb (callProgram c) "rsync".

(** Property X12.  With the method forced to scp, rsync is never run: the engine creates
    the remote directory, uploads unless the local directory is empty (then
    it reports success without running scp), and reports scp without
    fallback.  With the method forced to rsync, rsync alone is run and its
    outcome is the report, even when rsync is not available. *)
Theorem performRemoteSync_forced (params : SyncParams) :
  wellFormedParams server params ->
  (p_method params = Some MethodScp ->
   exists rest result,
     performRemoteSync rt config params
       = (mkdirCall rt args target (p_local_path params) (p_remote_path params) :: rest,
          inr result) /\
     existsb isRsyncCall
       (mkdirCall rt args target (p_local_path params) (p_remote_path params) :: rest) = false /\
     method result = UsedScp /\ fallback_used result = false /\
     rsync_error result = None /\
     (resolveScpUploadLocalSources rt (p_local_path params) = [] ->
        rest = [] /\ success result = true /\ exit_code result = 0)) /\
  (p_method params = Some MethodRsync ->
   let rs := rsyncOutcome rt args target params in
   exists result,
     performRemoteSync rt config params = ([rsyncCall rt args target params], inr result) /\
     method result = UsedRsync /\ fallback_used result = false /\
     rsync_error result = None /\
     exit_code result = exitCode rs /\ success result = (exitCode rs =? 0) /\
     output result = stdout rs /\ sync_stderr result = stderr rs).
Proof.
  intros Hwf. rewrite (performRemoteSync_checked params Hwf). split.
  - intros ->. simpl default at 1. cbv zeta. cbv iota.
    unfold scpUpload, executeRemoteCommand, buildSSHArgs, bindT.
    rewrite Hbase. rewrite bindM_lift, bindM_await.
    fold (mkdirCall rt args target (p_local_path params) (p_remote_path params)).
    destruct (resolveScpUploadLocalSources rt (p_local_path params)) as [|p ps] eqn:E.
    + exists [], (syncResult (default [] (p_exclude params))
                   (default false (p_delete_remote_extra params))
                   UsedScp false (mkExecResult "" "" 0) None).
      repeat split.
    + unfold buildSCPArgs, bindT. rewrite Hbase. rewrite bindM_lift.
      eexists _, _. unfold bindM, awaitCommand, retM. simpl.
      split; [reflexivity|]. repeat split; intros; discriminate.
  - intros ->. simpl default at 1. cbv zeta. cbv iota. rewrite andb_false_l.
    destruct (exitCode (rsyncOutcome rt args target params) =? 0) eqn:E;
      eexists; (split; [reflexivity|]); simpl; rewrite ?E; repeat split.
Qed.
End SyncForced.

Lemma performRemoteSync_forced_witness :
  exists result,
    performRemoteSync
      (demoRuntime (mkExecResult "" "bash: rsync: command not found" 127)) demoConfig
      {| p_server := "gpu"; p_local_path := "/work/app"; p_remote_path := "/srv/app";
         p_exclude := None; p_method := Some MethodRsync;
         p_delete_remote_extra := None |}
    = ([rsyncCall (demoRuntime (mkExecResult "" "bash: rsync: command not found" 127))
          (sshMultiplexArgs ++ ["-p"; "2222"; "-i"; "/home/alice/.ssh/id_ed25519"])%list
          "alice@10.0.0.7"
          {| p_server := "gpu"; p_local_path := "/work/app"; p_remote_path := "/srv/app";
             p_exclude := None; p_method := Some MethodRsync;
             p_delete_remote_extra := None |}], inr result) /\
    method result = UsedRsync /\ exit_code result = 127.
Proof.
  destruct (proj2 (performRemoteSync_forced
              (demoRuntime (mkExecResult "" "bash: rsync: command not found" 127))
              demoConfig "gpu"
              (sshMultiplexArgs ++ ["-p"; "2222"; "-i"; "/home/alice/.ssh/id_ed25519"])%list
              "alice@10.0.0.7" ltac:(vm_compute; reflexivity)
              {| p_server := "gpu"; p_local_path := "/work/app"; p_remote_path := "/srv/app";
                 p_exclude := None; p_method := Some MethodRsync;
                 p_delete_remote_extra := None |}
              ltac:(vm_compute; repeat split)) eq_refl)
    as (result & Hrun & Hm & _ & _ & Hexit & _).
  exists result. split; [exact Hrun|]. split; [exact Hm|]. rewrite Hexit. reflexivity.
Defined.

(** ** A session and its sync engine *)

Lemma performRemoteSync_returns (rt : Runtime) (config : Config)
    (server : string) (args : list string) (target : string) (params : SyncParams) :
  buildSSHBaseArgs server config = inr (args, target) ->
  wellFormedParams server params ->
  exists calls result,
    performRemoteSync rt config params = (calls, inr result) /\
    sync_exclude result = default [] (p_exclude params) /\
    delete_remote_extra result = default false (p_delete_remote_extra params).
Proof.
  intros Hbase Hwf.
  rewrite (performRemoteSync_checked rt config server args target Hbase params Hwf).
  destruct (scpUpload_returns rt config server args target Hbase
              (p_local_path params) (p_remote_path params))
    as (rest & upres & Hup & _).
  cbv zeta.
  destruct (default MethodAuto (p_method params)).
  - destruct (exitCode _ =? 0); [eexists _, _; repeat split|].
    simpl andb. destruct (isRsyncUnavailable _); [|eexists _, _; repeat split].
    rewrite Hup. eexists _, _. repeat split.
  - destruct (exitCode _ =? 0); eexists _, _; repeat split.
  - rewrite Hup. eexists _, _. repeat split.
Qed.

(** Property X13.  The sync of a session that [dev_session_start] has checked never fails
    the checks of the sync engine: whatever the runtime, it returns a result
    (success or failure of the transfer) as soon as the server's ssh
    arguments can be built, and that result carries the session's exclude
    list and delete flag. *)
Theorem session_sync_returns (env : StartEnv) (args : StartArgs) (s : DevSession)
    (rt : Runtime) (config : Config) (sshArgs : list string) (target : string) :
  validateStart env args = inr (settings s) ->
  buildSSHBaseArgs (server (settings s)) config = inr (sshArgs, target) ->
  exists calls result,
    performRemoteSync rt config (syncParamsOf s) = (calls, inr result) /\
    sync_exclude result = exclude (settings s) /\
    delete_remote_extra result = deleteRemoteExtra (settings s).
Proof.
  intros Hval Hbase.
  destruct (validateStart_valid env args _ Hval)
    as ((_ & _ & Hl & Hr & _ & Hex & _) & _).
  apply (performRemoteSync_returns rt config _ _ _ (syncParamsOf s) Hbase).
  repeat split; assumption.
Qed.

Definition demoShortSession : DevSession :=
  match validateStart demoStartEnv (demoStartArgs JUndefined) with
  | inr c => newSession c
  | inl _ => newSession (demoSettings ModeShort)
  end.

Lemma session_sync_returns_witness :
  exists calls result,
    performRemoteSync (demoRuntime (mkExecResult "" "" 0)) demoConfig
      (syncParamsOf demoShortSession) = (calls, inr result) /\
    sync_exclude result = ["node_modules"; "*.log"].
Proof.
  destruct (session_sync_returns demoStartEnv (demoStartArgs JUndefined) demoShortSession
              (demoRuntime (mkExecResult "" "" 0)) demoConfig
              (sshMultiplexArgs ++ ["-p"; "2222"; "-i"; "/home/alice/.ssh/id_ed25519"])%list
              "alice@10.0.0.7" ltac:(vm_compute; reflexivity) ltac:(vm_compute; reflexivity))
    as (calls & result & Hrun & Hex & _).
  exists calls, result. split; [exact Hrun|]. rewrite Hex. reflexivity.
Defined.

(** The record a successful [dev_session_start] leaves in the registry. *)
Lemma dev_session_start_record (env : StartEnv) (args : StartArgs)
    (devSessions devSessions' : gmap string World) (acts : list Action) (sid : string) :
  dev_session_start env args devSessions = (devSessions', acts, StartCreated sid) ->
  exists w,
    devSessions' = <[sid := w]> devSessions /\
    (forall other, other <> sid -> devSessions' !! other = devSessions !! other) /\
    validateStart env args = inr (settings (session w)) /\
    validSettings (settings (session w)) /\
    sid = name (settings (session w)) ++ "-" ++ idStamp env ++ "-" ++ idRandom env /\
    syncCount (session w) = 0 /\ runCount (session w) = 0 /\
    pid (session w) = None /\ changedPaths (session w) = ∅ /\
    stopRequested (session w) = false /\
    match watchError env with
    | Some error =>
        acts = [] /\ cycles w = [] /\ watcher (session w) = false /\
        status (session w) = StatusError /\ lastError (session w) = Some error
    | None =>
        acts = [DoSync (syncParamsOf (session w))] /\
        cycles w = [AwaitSync "session start"] /\ watcher (session w) = true /\
        status (session w) = StatusRunning /\ running (session w) = true /\
        pending (session w) = false /\ lastError (session w) = None /\
        pollingTimer (session w)
          = match mode (settings (session w)) with ModeLong => true | ModeShort => false end
    end.
Proof.
  unfold dev_session_start.
  destruct (validateStart env args) as [error|c] eqn:Hval; [discriminate|].
  destruct (validateStart_valid env args c Hval) as (Hvalid & Hid & _).
  destruct (watchError env) as [error|].
  - intros H. inversion H; subst. eexists. split; [reflexivity|].
    split; [intros other Hne; now rewrite lookup_insert_ne|].
    simpl. repeat split; auto; apply Hvalid.
  - unfold runDevSessionCycle, beginIteration.
    destruct (mode c) eqn:Hm; simpl; intros H; inversion H; subst;
      (eexists; split; [reflexivity|]);
      (split; [intros other Hne; now rewrite lookup_insert_ne|]);
      simpl; rewrite ?Hm; repeat split; auto; apply Hvalid.
Qed.

(** Property X14.  A successful [dev_session_start] adds one record to the registry under
    the generated id and touches no other; the record holds checked
    settings and zeroed counters.  If the watcher could be set up, the first
    cycle has begun with one sync; if [watch] threw, the session is
    registered in error and nothing has been issued. *)
Theorem dev_session_start_creates (env : StartEnv) (args : StartArgs)
    (devSessions devSessions' : gmap string World) (acts : list Action) (sid : string) :
  dev_session_start env args devSessions = (devSessions', acts, StartCreated sid) ->
  exists w,
    devSessions' = <[sid := w]> devSessions /\
    (forall other, other <> sid -> devSessions' !! other = devSessions !! other) /\
    validateStart env args = inr (settings (session w)) /\
    validSettings (settings (session w)) /\
    sid = name (settings (session w)) ++ "-" ++ idStamp env ++ "-" ++ idRandom env /\
    syncCount (session w) = 0 /\ runCount (session w) = 0 /\
    pid (session w) = None /\ changedPaths (session w) = ∅ /\
    stopRequested (session w) = false /\
    match watchError env with
    | Some error =>
        acts = [] /\ cycles w = [] /\ watcher (session w) = false /\
        status (session w) = StatusError /\ lastError (session w) = Some error
    | None =>
        acts = [DoSync (syncParamsOf (session w))] /\
        cycles w = [AwaitSync "session start"] /\ watcher (session w) = true /\
        status (session w) = StatusRunning /\ running (session w) = true /\
        pending (session w) = false /\ lastError (session w) = None /\
        pollingTimer (session w)
          = match mode (settings (session w)) with ModeLong => true | ModeShort => false end
    end.
Proof. exact (dev_session_start_record env args devSessions devSessions' acts sid). Qed.

Lemma dev_session_start_creates_witness :
  exists w : World,
    cycles w = [AwaitSync "session start"] /\
    syncCount (session w) = 0 /\
    validSettings (settings (session w)).
Proof.
  destruct (dev_session_start_creates demoStartEnv (demoStartArgs JUndefined) ∅ _ _ _ eq_refl)
    as (w & _ & _ & _ & Hvalid & _ & Hsc & _ & _ & _ & _ & Hrest).
  simpl in Hrest. destruct Hrest as (_ & Hk & _).
  exists w. split; [exact Hk|]. split; [exact Hsc|exact Hvalid].
Defined.

(** Property X15.  The first cycle of a short session: once its sync has succeeded and its
    command has returned, one sync and one run are counted, the run is
    recorded, the changed paths are cleared and the cycle is over; an exit
    code other than 0 is noted as the last error and the status stays
    running. *)
Theorem first_cycle_short (env : StartEnv) (args : StartArgs)
    (devSessions devSessions' : gmap string World) (acts : list Action) (sid : string)
    (w : World) (sr : SyncExecutionResult) (runRes : ExecResult) (c1 c2 : Clock) :
  dev_session_start env args devSessions = (devSessions', acts, StartCreated sid) ->
  watchError env = None ->
  devSessions' !! sid = Some w ->
  mode (settings (session w)) = ModeShort ->
  success sr = true ->
  let s' := session (fst (run w [SyncResolved 0 sr c1; RemoteResolved 0 runRes c2])) in
  (exists command,
      shortCommand (settings (session w)) = Some command /\
      snd (run w [SyncResolved 0 sr c1; RemoteResolved 0 runRes c2])
      = [DoRemote ShortRun
           ("cd " ++ shellQuote (remoteWorkingDir (settings (session w))) ++ " && " ++ command)
           300000]) /\
  cycles (fst (run w [SyncResolved 0 sr c1; RemoteResolved 0 runRes c2])) = [] /\
  syncCount s' = 1 /\ runCount s' = 1 /\
  lastSyncResult s' = Some sr /\ lastShortRun s' = Some runRes /\
  lastSyncAt s' = Some (nowMs c1) /\ lastRunAt s' = Some (nowMs c2) /\
  changedPaths s' = ∅ /\ running s' = false /\ status s' = StatusRunning /\
  lastError s' =
    (if exitCode runRes =? 0 then None
     else Some ("short command failed with exit code " ++ ofZ (exitCode runRes))).
Proof.
  intros Hstart Hwatch Hw Hmode Hsucc.
  destruct (dev_session_start_record _ _ _ _ _ _ Hstart)
    as (w0 & -> & _ & _ & Hvalid & _ & Hsc & Hrc & _ & Hcp & Hstop & Hrest).
  rewrite lookup_insert_eq in Hw. inversion Hw; subst w0. clear Hw.
  rewrite Hwatch in Hrest. destruct Hrest as (_ & Hk & _ & Hst & Hrun & Hpend & Herr & _).
  destruct Hvalid as (_ & _ & _ & _ & _ & _ & _ & _ & _ & _ & Hcmd & _).
  unfold hasCommand in Hcmd. rewrite Hmode in Hcmd.
  destruct w as [s ks]. destruct s as [c ? ? ? ? ? ? ? ? ? ? ? ? ? ? ? ? ? ? ? ?].
  simpl in *. subst.
  destruct (shortCommand c) as [command|] eqn:Hc; [|discriminate].
  clear Hstart.
  unfold settle. unfold_cycle. simpl. rewrite Hsucc, Hmode, Hc. simpl in Hcmd. simpl.
  rewrite Hcmd. simpl.
  destruct (exitCode runRes =? 0); simpl;
    (split; [exists command; split; reflexivity|]); repeat split.
Qed.

Definition demoCreated : World :=
  fst (runDevSessionCycle "session start" (mkWorld (set_watcher true demoShortSession) [])).

Lemma first_cycle_short_witness :
  let final := fst (run demoCreated [SyncResolved 0 syncOk demoClock;
                                     RemoteResolved 0 (mkExecResult "hi" "" 0) demoClock]) in
  syncCount (session final) = 1 /\ runCount (session final) = 1 /\
  lastError (session final) = None.
Proof.
  cbv zeta.
  pose proof (first_cycle_short demoStartEnv (demoStartArgs JUndefined) ∅ _ _ _
                demoCreated syncOk (mkExecResult "hi" "" 0) demoClock demoClock
                eq_refl eq_refl (lookup_insert_eq _ _ _) eq_refl eq_refl) as H.
  cbv zeta in H.
  destruct H as (_ & _ & Hs & Hr & _ & _ & _ & _ & _ & _ & _ & He).
  split; [exact Hs|]. split; [exact Hr|exact He].
Defined.

(** ** The [dev_session_stop] handler *)

(** The lookup shared by the status and stop handlers. *)
Definition lookupSession (session_id : JsValue) (devSessions : gmap string World)
  : Throws (string * World) :=
  try! s <- assertString session_id "session_id" in
  try! safeSessionId <- assertNoControlChars s "session_id" in
  match devSessions !! safeSessionId with
  | Some w => ret (safeSessionId, w)
  | None => throw ("session not found: " ++ safeSessionId)
  end.

(** [case "dev_session_stop"], from the call to the [await] of the kill
    command or to the answer: the registry (the session object is changed in
    place), the command issued, and the id of the stopped session or the
    error of the failure answer. *)
Definition dev_session_stop (session_id : JsValue) (stop_remote_process : bool)
    (signal : JsValue) (devSessions : gmap string World)
  : gmap string World * list Action * Throws string :=
  match lookupSession session_id devSessions with
  | inl error => (devSessions, [], inl error)
  | inr (sid, w) =>
      let '(w', acts) := step w (Stop stop_remote_process signal) in
      let devSessions' := <[sid := w']> devSessions in
      if stop_remote_process && truthyNumber (pid (session w)) then
        match mode (settings (session w)),
              assertSignal (orDefault signal (JString "TERM")) with
        | ModeLong, inl error => (devSessions', [], inl error)
        | _, _ => (devSessions', acts, inr sid)
        end
      else (devSessions', acts, inr sid)
  end.

Definition isSafeSignal (s : string) : bool :=
  String.eqb s "TERM" || String.eqb s "KILL" || String.eqb s "INT" || String.eqb s "HUP".

Lemma assertSignal_safe (v : JsValue) (s : string) :
  assertSignal v = inr s -> isSafeSignal s = true.
Proof.
  unfold assertSignal, bindT, isSafeSignal.
  destruct (assertString v _) as [e|s0]; [discriminate|].
  destruct (assertNoControlChars s0 _) as [e|s1]; [discriminate|].
  destruct (_ || _ || _ || _) eqn:E; [|discriminate].
  intros H. inversion H; subst. exact E.
Qed.

Lemma stopSession_spec (srp : bool) (signal : JsValue) (s : DevSession) :
  let s' := fst (stopSession srp signal s) in
  let acts := snd (stopSession srp signal s) in
  stopRequested s' = true /\ status s' = StatusStopped /\
  debounceTimer s' = None /\ pollingTimer s' = false /\ watcher s' = false /\
  settings s' = settings s /\ pid s' = pid s /\ logFile s' = logFile s /\
  syncCount s' = syncCount s /\ runCount s' = runCount s /\
  running s' = running s /\ isProcessRunning s' = isProcessRunning s /\
  (srp = false -> acts = []) /\
  (acts = [] \/
   exists sig p,
     srp = true /\ mode (settings s) = ModeLong /\ pid s = Some p /\ 0 <> p /\
     assertSignal (orDefault signal (JString "TERM")) = inr sig /\
     acts = [DoRemote Kill ("kill -s " ++ sig ++ " " ++ ofZ p) 10000]).
Proof.
  destruct s as [c ? ? ? ? ? ? ? ? ? ? ? ? ? ? ? ? ? ? ? ?].
  unfold stopSession, clearSessionTimers. simpl.
  repeat (split; [reflexivity|]).
  split.
  - intros ->. reflexivity.
  - destruct srp; simpl; [|now left].
    destruct pid0 as [p|]; simpl; [|now left].
    destruct (p =? 0) eqn:Hp; simpl; [now left|].
    apply Z.eqb_neq in Hp.
    destruct (mode c); [now left|].
    destruct (assertSignal _) as [e|sig] eqn:E; [now left|].
    right. exists sig, p. repeat split; auto.
Qed.

(** Property X16.  Stopping a session that the registry does not hold, or with an id that
    is not a clean non-empty string, changes nothing and fails.  Stopping a
    known session keeps its record in the registry, stopped, with its timers
    cleared and its counters, process id and cycle in flight untouched, and
    touches no other session.  The only command it can issue is one [kill]
    of the recorded process with one of the four signals, and only when the
    caller asked for it; if the signal asked for is not one of the four, the
    call fails although the session has been stopped. *)
Theorem dev_session_stop_spec (session_id : JsValue) (stop_remote_process : bool)
    (signal : JsValue) (devSessions : gmap string World) :
  let '(devSessions', acts, outcome) :=
    dev_session_stop session_id stop_remote_process signal devSessions in
  match lookupSession session_id devSessions with
  | inl error => devSessions' = devSessions /\ acts = [] /\ outcome = inl error
  | inr (sid, w) =>
      devSessions !! sid = Some w /\
      dom devSessions' = dom devSessions /\
      (forall other, other <> sid -> devSessions' !! other = devSessions !! other) /\
      exists w',
        devSessions' !! sid = Some w' /\
        cycles w' = cycles w /\
        stopRequested (session w') = true /\ status (session w') = StatusStopped /\
        debounceTimer (session w') = None /\ pollingTimer (session w') = false /\
        watcher (session w') = false /\
        pid (session w') = pid (session w) /\ logFile (session w') = logFile (session w) /\
        syncCount (session w') = syncCount (session w) /\
        runCount (session w') = runCount (session w) /\
        (stop_remote_process = false -> acts = [] /\ outcome = inr sid) /\
        (acts = [] \/
         exists sig p,
           isSafeSignal sig = true /\ pid (session w) = Some p /\ 0 <> p /\
           mode (settings (session w)) = ModeLong /\
           acts = [DoRemote Kill ("kill -s " ++ sig ++ " " ++ ofZ p) 10000] /\
           outcome = inr sid) /\
        (forall error, outcome = inl error ->
           acts = [] /\ assertSignal (orDefault signal (JString "TERM")) = inl error)
  end.
Proof.
  unfold dev_session_stop.
  destruct (lookupSession session_id devSessions) as [error|[sid w]] eqn:Hlook; [auto|].
  assert (Hsid : devSessions !! sid = Some w).
  { unfold lookupSession, bindT in Hlook.
    destruct (assertString _ _) as [e|s0]; [discriminate|].
    destruct (assertNoControlChars _ _) as [e|s1]; [discriminate|].
    destruct (devSessions !! s1) as [w0|] eqn:E; [|discriminate].
    inversion Hlook; subst. exact E. }
  pose proof (stopSession_spec stop_remote_process signal (session w)) as Hspec.
  cbv zeta in Hspec.
  assert (Hstep : step w (Stop stop_remote_process signal)
                  = (mkWorld (fst (stopSession stop_remote_process signal (session w)))
                       (cycles w),
                     snd (stopSession stop_remote_process signal (session w)))).
  { simpl. now destruct (stopSession _ _ _). }
  rewrite Hstep. clear Hstep.
  set (s' := fst (stopSession stop_remote_process signal (session w))) in *.
  set (acts0 := snd (stopSession stop_remote_process signal (session w))) in *.
  destruct Hspec as (H1 & H2 & H3 & H4 & H5 & H6 & H7 & H8 & H9 & H10 & _ & _ & Hoff & Hacts).
  assert (Hdom : dom (<[sid := mkWorld s' (cycles w)]> devSessions) = dom devSessions).
  { apply dom_insert_lookup_L. now exists w. }
  assert (Hother : forall other, other <> sid ->
            <[sid := mkWorld s' (cycles w)]> devSessions !! other = devSessions !! other).
  { intros other Hne. now rewrite lookup_insert_ne. }
  assert (Hcommon : forall acts outcome,
    (stop_remote_process = false -> acts = [] /\ outcome = inr sid) ->
    (acts = [] \/
         exists sig p,
           isSafeSignal sig = true /\ pid (session w) = Some p /\ 0 <> p /\
           mode (settings (session w)) = ModeLong /\
           acts = [DoRemote Kill ("kill -s " ++ sig ++ " " ++ ofZ p) 10000] /\
           outcome = inr sid) ->
    (forall error, outcome = inl error ->
           acts = [] /\ assertSignal (orDefault signal (JString "TERM")) = inl error) ->
    devSessions !! sid = Some w /\
    dom (<[sid := mkWorld s' (cycles w)]> devSessions) = dom devSessions /\
    (forall other, other <> sid ->
        <[sid := mkWorld s' (cycles w)]> devSessions !! other = devSessions !! other) /\
    exists w',
      <[sid := mkWorld s' (cycles w)]> devSessions !! sid = Some w' /\
      cycles w' = cycles w /\
      stopRequested (session w') = true /\ status (session w') = StatusStopped /\
      debounceTimer (session w') = None /\ pollingTimer (session w') = false /\
      watcher (session w') = false /\
      pid (session w') = pid (session w) /\ logFile (session w') = logFile (session w) /\
      syncCount (session w') = syncCount (session w) /\
      runCount (session w') = runCount (session w) /\
      (stop_remote_process = false -> acts = [] /\ outcome = inr sid) /\
      (acts = [] \/
         exists sig p,
           isSafeSignal sig = true /\ pid (session w) = Some p /\ 0 <> p /\
           mode (settings (session w)) = ModeLong /\
           acts = [DoRemote Kill ("kill -s " ++ sig ++ " " ++ ofZ p) 10000] /\
           outcome = inr sid) /\
      (forall error, outcome = inl error ->
           acts = [] /\ assertSignal (orDefault signal (JString "TERM")) = inl error)).
  { intros acts outcome Ha Hb Hc. split; [exact Hsid|]. split; [exact Hdom|].
    split; [exact Hother|]. exists (mkWorld s' (cycles w)).
    split; [apply lookup_insert_eq|]. simpl. tauto. }
  destruct stop_remote_process; simpl andb.
  2:{ apply Hcommon.
      - intros _. split; [now apply Hoff|reflexivity].
      - left. now apply Hoff.
      - intros error H. discriminate H. }
  destruct (truthyNumber (pid (session w))) eqn:Hpid.
  2:{ assert (Hnone : acts0 = []).
      { destruct Hacts as [Ha | (sig & p & _ & _ & Hp & Hnz & _)]; [exact Ha|].
        rewrite Hp in Hpid. simpl in Hpid.
        apply negb_false_iff, Z.eqb_eq in Hpid. congruence. }
      apply Hcommon.
      - intros H; discriminate H.
      - left. exact Hnone.
      - intros error H. discriminate H. }
  destruct (mode (settings (session w))) eqn:Hmode.
  - apply Hcommon.
    + intros H; discriminate H.
    + destruct Hacts as [Ha | (sig & p & _ & Hm & _)]; [now left|congruence].
    + intros error H. discriminate H.
  - destruct (assertSignal (orDefault signal (JString "TERM"))) as [error|sig] eqn:Hsig.
    + apply Hcommon.
      * intros H; discriminate H.
      * now left.
      * intros error' H. inversion H; subst. auto.
    + apply Hcommon.
      * intros H; discriminate H.
      * destruct Hacts as [Ha | (sig' & p & _ & _ & Hp & Hnz & Hs & Ha)]; [now left|].
        right. exists sig', p.
        assert (sig = sig') by congruence. subst sig'.
        repeat split; auto. eapply assertSignal_safe; exact Hsig.
      * intros error H. discriminate H.
Qed.

(** ** The poller [pollLongTask] *)

(** The command on which [pollLongTask] is suspended. *)
Inductive PollAwait :=
| PollCheck (command : string) (timeoutMs : Z)
| PollTail (command : string) (timeoutMs : Z).

Definition tailCommand (s : DevSession) : string :=
  let c := settings s in
  let file := shellQuote (default "" (logFile s)) in
  if 0 <? followSeconds c then
    "if command -v timeout >/dev/null 2>&1; then timeout " ++ ofZ (followSeconds c)
      ++ " tail -f -n " ++ ofZ (logLines c) ++ " " ++ file
      ++ " 2>/dev/null || true; else tail -n " ++ ofZ (logLines c) ++ " " ++ file ++ "; fi"
  else "tail -n " ++ ofZ (logLines c) ++ " " ++ file.

(** [pollLongTask] from [if (!session.logFile) return] to the [await] of the
    tail command. *)
Definition pollLogTail (s : DevSession) : option PollAwait :=
  if truthyString (logFile s) then
    Some (PollTail (tailCommand s)
            (if 0 <? followSeconds (settings s)
             then (followSeconds (settings s) + 5) * 1000 else 30000))
  else None.

(** [pollLongTask] from its entry to its first [await] or to its [return]. *)
Definition pollLongTask (s : DevSession) : option PollAwait :=
  match mode (settings s) with
  | ModeShort => None
  | ModeLong =>
      if truthyNumber (pid s)
      then Some (PollCheck (processCheckCommand (default 0 (pid s))) 15000)
      else pollLogTail s
  end.

(** [pollLongTask] after the [ps] lookup has returned. *)
Definition afterPollCheck (checkRes : ExecResult) (s : DevSession)
  : DevSession * option PollAwait :=
  let s1 := set_isProcessRunning (Some (processAlive checkRes)) s in
  let s2 := set_lastProcessInfo (Some (stdout checkRes)) s1 in
  (s2, pollLogTail s2).

(** The two fields of a session that nothing but the end of [pollLongTask]
    assigns. *)
Record TailFields := mkTailFields {
  lastTailLog : option string;
  lastTailStderr : option string
}.

Definition afterPollTail (tailRes : ExecResult) : TailFields :=
  mkTailFields (Some (stdout tailRes)) (Some (stderr tailRes)).

(** A session with the two fields the [ps] lookup of the poller assigns
    blanked. *)
Definition exceptPolled (s : DevSession) : DevSession :=
  set_isProcessRunning None (set_lastProcessInfo None s).

Definition agreeButPolled (w1 w2 : World) : Prop :=
  cycles w1 = cycles w2 /\ exceptPolled (session w1) = exceptPolled (session w2).

Definition agreeOut (o1 o2 : DevSession * option Cont * list Action) : Prop :=
  exceptPolled (fst (fst o1)) = exceptPolled (fst (fst o2)) /\
  snd (fst o1) = snd (fst o2) /\ snd o1 = snd o2.

Ltac agree_by_cases s1 s2 H :=
  destruct s1 as [c ? ? ? ? ? ? ? ? ? ? ? ? ? ? ? ? ? ? ? ?];
  destruct s2 as [c2 ? ? ? ? ? ? ? ? ? ? ? ? ? ? ? ? ? ? ? ?];
  unfold exceptPolled in H; simpl in H;
  injection H as -> -> -> -> -> -> -> -> -> -> -> -> -> -> -> -> -> -> ->;
  unfold agreeOut, exceptPolled; unfold_cycle; simpl;
  break_ifs; simpl in *; repeat split; congruence.

Lemma beginIteration_agree (reason : string) (s1 s2 : DevSession) :
  exceptPolled s1 = exceptPolled s2 ->
  agreeOut (beginIteration reason s1) (beginIteration reason s2).
Proof. intros H. agree_by_cases s1 s2 H. Qed.

Lemma endIteration_agree (reason : string) (s1 s2 : DevSession) :
  exceptPolled s1 = exceptPolled s2 ->
  agreeOut (endIteration reason s1) (endIteration reason s2).
Proof. intros H. agree_by_cases s1 s2 H. Qed.

Lemma failCycle_agree (message : string) (s1 s2 : DevSession) :
  exceptPolled s1 = exceptPolled s2 ->
  agreeOut (failCycle message s1) (failCycle message s2).
Proof. intros H. agree_by_cases s1 s2 H. Qed.

Lemma afterSync_agree (reason : string) (r : SyncExecutionResult) (clock : Clock)
    (s1 s2 : DevSession) :
  exceptPolled s1 = exceptPolled s2 ->
  agreeOut (afterSync reason r clock s1) (afterSync reason r clock s2).
Proof. intros H. agree_by_cases s1 s2 H. Qed.

Lemma afterShortRun_agree (reason : string) (r : ExecResult) (clock : Clock)
    (s1 s2 : DevSession) :
  exceptPolled s1 = exceptPolled s2 ->
  agreeOut (afterShortRun reason r clock s1) (afterShortRun reason r clock s2).
Proof. intros H. agree_by_cases s1 s2 H. Qed.

Lemma afterProcessCheck_agree (reason : string) (r : ExecResult) (clock : Clock)
    (s1 s2 : DevSession) :
  exceptPolled s1 = exceptPolled s2 ->
  agreeOut (afterProcessCheck reason r clock s1) (afterProcessCheck reason r clock s2).
Proof. intros H. agree_by_cases s1 s2 H. Qed.

Lemma afterLongStart_agree (reason file : string) (r : ExecResult) (clock : Clock)
    (s1 s2 : DevSession) :
  exceptPolled s1 = exceptPolled s2 ->
  agreeOut (afterLongStart reason file r clock s1) (afterLongStart reason file r clock s2).
Proof. intros H. agree_by_cases s1 s2 H. Qed.

Lemma settle_agree (w1 w2 : World) (i : nat)
    (o1 o2 : DevSession * option Cont * list Action) :
  cycles w1 = cycles w2 -> agreeOut o1 o2 ->
  snd (settle w1 i o1) = snd (settle w2 i o2) /\
  agreeButPolled (fst (settle w1 i o1)) (fst (settle w2 i o2)).
Proof.
  destruct o1 as [[s1 k1] a1], o2 as [[s2 k2] a2].
  unfold agreeOut, agreeButPolled, settle. simpl.
  intros Hk (Hs & -> & ->). rewrite Hk. auto.
Qed.

Lemma runDevSessionCycle_agree (reason : string) (w1 w2 : World) :
  agreeButPolled w1 w2 ->
  snd (runDevSessionCycle reason w1) = snd (runDevSessionCycle reason w2) /\
  agreeButPolled (fst (runDevSessionCycle reason w1)) (fst (runDevSessionCycle reason w2)).
Proof.
  destruct w1 as [s1 k1], w2 as [s2 k2]. unfold agreeButPolled. simpl.
  intros [-> H].
  destruct s1 as [c ? ? ? ? ? ? ? ? ? ? ? ? ? ? ? ? ? ? ? ?].
  destruct s2 as [c2 ? ? ? ? ? ? ? ? ? ? ? ? ? ? ? ? ? ? ? ?].
  unfold exceptPolled in H. simpl in H.
  injection H as -> -> -> -> -> -> -> -> -> -> -> -> -> -> -> -> -> -> ->.
  unfold runDevSessionCycle, beginIteration, exceptPolled. simpl.
  destruct stopRequested1; simpl; [auto|].
  destruct running1; simpl; auto.
Qed.

Lemma step_agreeButPolled (w1 w2 : World) (e : Event) :
  agreeButPolled w1 w2 ->
  snd (step w1 e) = snd (step w2 e) /\ agreeButPolled (fst (step w1 e)) (fst (step w2 e)).
Proof.
  intros Hagree. pose proof Hagree as [Hk Hs].
  destruct e; unfold step.
  - split; [reflexivity|]. split; [exact Hk|]. simpl.
    destruct (session w1) as [c ? ? ? ? ? ? ? ? ? ? ? ? ? ? ? ? ? ? ? ?].
    destruct (session w2) as [c2 ? ? ? ? ? ? ? ? ? ? ? ? ? ? ? ? ? ? ? ?].
    unfold exceptPolled in Hs. simpl in Hs.
    injection Hs as -> -> -> -> -> -> -> -> -> -> -> -> -> -> -> -> -> -> ->.
    unfold onWatchEvent, scheduleDevSessionCycle, exceptPolled. simpl.
    destruct stopRequested1; simpl; [reflexivity|].
    destruct (truthyString filename); simpl; [|reflexivity].
    destruct (shouldIgnorePath _ _); reflexivity.
  - assert (Ht : debounceTimer (session w1) = debounceTimer (session w2)).
    { apply (f_equal debounceTimer) in Hs.
      destruct (session w1), (session w2). exact Hs. }
    rewrite <- Ht. destruct (debounceTimer (session w1)) as [t|]; [|auto].
    destruct (timerArmed t); [|auto].
    apply runDevSessionCycle_agree. split; [exact Hk|]. simpl.
    destruct (session w1) as [c ? ? ? ? ? ? ? ? ? ? ? ? ? ? ? ? ? ? ? ?].
    destruct (session w2) as [c2 ? ? ? ? ? ? ? ? ? ? ? ? ? ? ? ? ? ? ? ?].
    unfold exceptPolled in *. simpl in *.
    injection Hs as -> -> -> -> -> -> -> -> -> -> -> -> -> -> -> -> -> -> ->.
    reflexivity.
  - now apply runDevSessionCycle_agree.
  - rewrite <- Hk. destruct (cycles w1 !! i) as [[r|r|r|r f]|]; auto.
    apply settle_agree; [exact Hk|]. now apply afterSync_agree.
  - rewrite <- Hk. destruct (cycles w1 !! i) as [[r|r|r|r f]|]; auto.
    + apply settle_agree; [exact Hk|]. now apply afterShortRun_agree.
    + apply settle_agree; [exact Hk|]. now apply afterProcessCheck_agree.
    + apply settle_agree; [exact Hk|]. now apply afterLongStart_agree.
  - rewrite <- Hk. destruct (cycles w1 !! i) as [k|]; auto.
    apply settle_agree; [exact Hk|]. now apply failCycle_agree.
  - destruct (session w1) as [c ? ? ? ? ? ? ? ? ? ? ? ? ? ? ? ? ? ? ? ?].
    destruct (session w2) as [c2 ? ? ? ? ? ? ? ? ? ? ? ? ? ? ? ? ? ? ? ?].
    unfold exceptPolled in Hs. simpl in Hs.
    injection Hs as -> -> -> -> -> -> -> -> -> -> -> -> -> -> -> -> -> -> ->.
    unfold stopSession, clearSessionTimers, agreeButPolled, exceptPolled. simpl. auto.
  - split; [reflexivity|]. split; [exact Hk|]. simpl.
    destruct (session w1) as [c ? ? ? ? ? ? ? ? ? ? ? ? ? ? ? ? ? ? ? ?].
    destruct (session w2) as [c2 ? ? ? ? ? ? ? ? ? ? ? ? ? ? ? ? ? ? ? ?].
    unfold exceptPolled in *. simpl in *.
    injection Hs as -> -> -> -> -> -> -> -> -> -> -> -> -> -> -> -> -> -> ->.
    reflexivity.
Qed.

Lemma run_agreeButPolled (es : list Event) (w1 w2 : World) :
  agreeButPolled w1 w2 ->
  snd (run w1 es) = snd (run w2 es) /\ agreeButPolled (fst (run w1 es)) (fst (run w2 es)).
Proof.
  revert w1 w2. induction es as [|e es IH]; intros w1 w2 H; [simpl; auto|].
  destruct (step_agreeButPolled w1 w2 e H) as [Ha Hw].
  specialize (IH _ _ Hw). simpl.
  destruct (step w1 e) as [w1' a1], (step w2 e) as [w2' a2]. simpl in *.
  destruct (run w1' es) as [w1'' b1], (run w2' es) as [w2'' b2]. simpl in *.
  destruct IH as [-> IH]. subst. auto.
Qed.

(** Property X17.  The [ps] lookup of the poller, whenever it returns between two events of
    a session, changes nothing of what the session does next: the same
    commands are issued in the same order, the same activations are
    suspended, and every field of the record ends the same but for the two
    the lookup assigns, [isProcessRunning] and [lastProcessInfo]. *)
Theorem poller_does_not_interfere (w : World) (checkRes : ExecResult) (es : list Event) :
  let polled := mkWorld (fst (afterPollCheck checkRes (session w))) (cycles w) in
  snd (run polled es) = snd (run w es) /\
  cycles (fst (run polled es)) = cycles (fst (run w es)) /\
  exceptPolled (session (fst (run polled es))) = exceptPolled (session (fst (run w es))).
Proof.
  cbv zeta. apply run_agreeButPolled. split; [reflexivity|].
  destruct w as [s ks]. destruct s. reflexivity.
Qed.

Lemma isBareChar_plain (c : ascii) :
  isBareChar c = true ->
  Ascii.eqb c " " = false /\ Ascii.eqb c squote = false /\ Ascii.eqb c dquote = false.
Proof.
  destruct c as [[] [] [] [] [] [] [] []]; intros H; try discriminate H;
    repeat split; reflexivity.
Qed.

Lemma readWords_bare (word w rest : list ascii) :
  forallb isBareChar word = true ->
  readWords (InWord w) (word ++ rest) = readWords (InWord (w ++ word)) rest.
Proof.
  revert w. induction word as [|c word IH]; intros w H.
  - simpl. now rewrite app_nil_r.
  - apply andb_prop in H as [Hc Hw].
    destruct (isBareChar_plain c Hc) as (H1 & H2 & H3).
    change ((c :: word) ++ rest)%list with (c :: (word ++ rest))%list.
    cbn [readWords]. rewrite H1, H2, H3, Hc, (IH _ Hw), <- app_assoc. reflexivity.
Qed.

Lemma readWords_bare_first (word rest : list ascii) :
  word <> [] -> forallb isBareChar word = true ->
  readWords Between (word ++ rest) = readWords (InWord word) rest.
Proof.
  destruct word as [|c word]; [congruence|]. intros _ H.
  apply andb_prop in H as [Hc Hw].
  destruct (isBareChar_plain c Hc) as (H1 & H2 & H3).
  change ((c :: word) ++ rest)%list with (c :: (word ++ rest))%list.
  cbn [readWords]. rewrite H1, H2, H3, Hc. now apply (readWords_bare word [c]).
Qed.

Lemma isDigit_bare (l : list ascii) :
  forallb isDigit l = true -> forallb isBareChar l = true.
Proof.
  induction l as [|c l IH]; simpl; [reflexivity|].
  intros H. apply andb_prop in H as [Hc Hl]. rewrite (IH Hl), andb_true_r.
  unfold isBareChar, isSafeNameChar. unfold isDigit in Hc. rewrite Hc.
  now rewrite !orb_true_r.
Qed.

Lemma ofZ_bare (n : Z) :
  chars (ofZ n) <> [] /\ forallb isBareChar (chars (ofZ n)) = true.
Proof.
  destruct n as [|q|q].
  - split; [discriminate|reflexivity].
  - destruct (ofZ_digits (Z.pos q)) as [Hn Hd]; [lia|].
    split; [exact Hn|now apply isDigit_bare].
  - unfold ofZ. simpl Z.to_int.
    change (NilZero.string_of_int (Decimal.Neg (Pos.to_uint q)))
      with (String "-" (NilZero.string_of_uint (Pos.to_uint q))).
    pose proof (DecimalPos.Unsigned.to_uint_nonnil q) as Hd.
    destruct (uint_head_digit _ Hd) as (Hz & _).
    rewrite Hz. split; [discriminate|].
    change (forallb isBareChar ("-"%char :: chars (NilEmpty.string_of_uint (Pos.to_uint q)))
            = true).
    cbn [forallb]. rewrite (isDigit_bare _ (uint_chars_digits _)). reflexivity.
Qed.

(** Property X18.  When a session does not follow its log ([followSeconds] is 0), the
    poller's command for the log, read by a shell, is [tail -n] with the
    number of lines of the session and the recorded log file as one word,
    whatever characters the file name contains; it is given 30 seconds.
    The number of lines is taken below 10^21, where JavaScript writes an
    integer in plain decimal. *)
Theorem pollLongTask_tail_words (s : DevSession) (file : string) :
  followSeconds (settings s) <= 0 ->
  0 < logLines (settings s) < 10 ^ 21 ->
  logFile s = Some file -> file <> "" ->
  exists command,
    pollLogTail s = Some (PollTail command 30000) /\
    shellWords command = Some ["tail"; "-n"; ofZ (logLines (settings s)); file].
Proof.
  intros Hf _ Hl Hne. unfold pollLogTail, tailCommand. rewrite Hl.
  assert (Ht : truthyString (Some file) = true).
  { destruct file; [congruence|reflexivity]. }
  rewrite Ht. destruct (Z.ltb_spec 0 (followSeconds (settings s))) as [Hlt|_]; [lia|].
  eexists. split; [reflexivity|].
  unfold shellWords. rewrite !chars_append.
  destruct (ofZ_bare (logLines (settings s))) as [Hn Hb].
  change (readWords Between
            (chars "tail -n " ++ chars (ofZ (logLines (settings s))) ++ chars " "
               ++ chars (shellQuote (default "" (Some file))))%list)
    with (option_map (cons (chars "tail"))
            (option_map (cons (chars "-n"))
               (readWords Between
                  (chars (ofZ (logLines (settings s))) ++ chars " "
                     ++ chars (shellQuote file))%list))).
  rewrite (readWords_bare_first _ _ Hn Hb), readWords_space.
  rewrite <- (app_nil_r (chars (shellQuote file))), readWords_quoted.
  simpl. now rewrite !of_chars_chars.
Qed.

Definition demoTailSession : DevSession :=
  set_logFile (Some "/srv/app/it's a run.log")
    (newSession
       {| sessionId := "train-lp2k3f0g-x7k2qa";
          name := "train";
          server := "gpu";
          localPath := "/work/app";
          remotePath := "/srv/app";
          remoteWorkingDir := "/srv/app";
          exclude := [];
          syncMethod := MethodAuto;
          deleteRemoteExtra := false;
          mode := ModeLong;
          shortCommand := None;
          longCommand := Some "python train.py";
          debounceMs := 800;
          pollIntervalSeconds := 5;
          logLines := 80;
          followSeconds := 0;
          startedAt := 1700000000000 |}).

Lemma pollLongTask_tail_words_witness :
  exists command,
    pollLongTask demoTailSession = Some (PollTail command 30000) /\
    shellWords command = Some ["tail"; "-n"; "80"; "/srv/app/it's a run.log"].
Proof.
  assert (Hf : followSeconds (settings demoTailSession) <= 0) by (simpl; lia).
  assert (Hn : 0 < logLines (settings demoTailSession) < 10 ^ 21) by (simpl; lia).
  assert (Hne : "/srv/app/it's a run.log" <> "") by discriminate.
  destruct (pollLongTask_tail_words demoTailSession _ Hf Hn eq_refl Hne)
    as (command & Hc & Hw).
  exists command. split; [exact Hc|exact Hw].
Defined.
